(** * Event-Planner: the event, invitation and auth services over their store

    A shallow embedding of the Go packages [internal/event],
    [internal/invitation] and [internal/auth] of the Event-Planner backend,
    together with the relational store of [schema.sql] they run against.

    - a Go [string] is a [string] (a sequence of bytes, [len] is [String.length]);
    - a Go [int] is a [Z] (identifiers are only compared, never computed with);
    - a [time.Time] is a [Z], the instant in nanoseconds since the Unix epoch;
    - a Go [error] is a value of [errors.error]; a function returning
      [(T, error)] returns a [result T];
    - a repository or service method is a computation of the monad [M]: it
      receives the store and hands it back together with its result, also
      when it fails;
    - a Go slice is an [option (list A)], [None] being the nil slice;
    - a handler takes the request as it reads it (the user in the context,
      the path value, the decoded body) and the store, and gives the
      response (status code and the fields of its JSON object) and the store;
    - the libraries [time], [bcrypt], [jwt], [os] and [strings] are
      interfaces with an instance to run examples on; a [regexp] is its
      syntax tree, matched by derivatives. *)

From Stdlib Require Import ZArith String Ascii List Bool Lia Permutation Sorted.
Import ListNotations.
Local Open Scope string_scope.
Local Open Scope Z_scope.

(** ** Errors *)

Module errors.

(** What the drivers report: the store errors the services can meet. *)
Inductive PgError : Type :=
| ErrNoRows                                  (* pgx.ErrNoRows *)
| UniqueViolation (constraint : string)      (* SQLSTATE 23505 *)
| ForeignKeyViolation (constraint : string)  (* SQLSTATE 23503 *)
| CheckViolation (constraint : string)       (* SQLSTATE 23514 *)
| ConnFailure.                               (* the pool could not serve the call *)

Inductive error : Type :=
| New (msg : string)                    (* errors.New(msg), fmt.Errorf(msg) *)
| Wrap (msg : string) (cause : error)   (* fmt.Errorf(msg + ": %w", cause) *)
| Pg (e : PgError)
| ParseError (layout value : string)    (* *time.ParseError *)
| Lib (pkg : string).                   (* a failure inside bcrypt or jwt *)

Definition PgText (e : PgError) : string :=
  match e with
  | ErrNoRows => "no rows in result set"
  | UniqueViolation c =>
      "ERROR: duplicate key value violates unique constraint " ++ c ++ " (SQLSTATE 23505)"
  | ForeignKeyViolation c =>
      "ERROR: insert or update violates foreign key constraint " ++ c ++ " (SQLSTATE 23503)"
  | CheckViolation c =>
      "ERROR: new row violates check constraint " ++ c ++ " (SQLSTATE 23514)"
  | ConnFailure => "failed to connect"
  end.

(** [err.Error()] *)
Fixpoint Error (e : error) : string :=
  match e with
  | New msg => msg
  | Wrap msg cause => msg ++ ": " ++ Error cause
  | Pg e => PgText e
  | ParseError layout value => "parsing time " ++ value ++ " as " ++ layout
  | Lib pkg => pkg
  end.

End errors.
Import errors.

Inductive result (A : Type) : Type :=
| Ok (a : A)
| Err (e : error).
Arguments Ok {A} a.
Arguments Err {A} e.

Definition is_ok {A} (r : result A) : bool :=
  match r with Ok _ => true | Err _ => false end.

(** ** Package [time]: instants and the three layouts the services parse *)

Module time.

Definition Time : Type := Z.

(** The zero value of [time.Time]: January 1 of year 1, 00:00:00 UTC. *)
Definition zeroTime : Time := -62135596800000000000.

(** [t.Before(u)] *)
Definition Before (t u : Time) : bool := t <? u.

(** The part of the package the services call. *)
Class Pkg : Type := {
  Parse  : string -> string -> result Time;   (* time.Parse(layout, value) *)
  Format : string -> Time -> string           (* t.Format(layout) *)
}.

(** *** A reference implementation

    [Parse] and [Format] of the Go library, for the layouts
    ["2006-01-02"], ["15:04:05"] and ["2006-01-02 15:04:05"]. *)

Definition isDigit (c : ascii) : bool :=
  ((48 <=? nat_of_ascii c) && (nat_of_ascii c <=? 57))%nat.

Definition digit (c : ascii) : Z := Z.of_nat (nat_of_ascii c) - 48.

(** [getnum(s, fixed)]: one or two digits, two when [fixed]. *)
Definition getnum (s : string) (fixed : bool) : option (Z * string) :=
  match s with
  | String c0 rest =>
      if isDigit c0 then
        match rest with
        | String c1 rest' =>
            if isDigit c1 then Some (digit c0 * 10 + digit c1, rest')
            else if fixed then None else Some (digit c0, rest)
        | EmptyString => if fixed then None else Some (digit c0, rest)
        end
      else None
  | EmptyString => None
  end.

(** The four digits of [stdLongYear]. *)
Definition getyear (s : string) : option (Z * string) :=
  match s with
  | String a (String b (String c (String d rest))) =>
      if isDigit a && isDigit b && isDigit c && isDigit d
      then Some (((digit a * 10 + digit b) * 10 + digit c) * 10 + digit d, rest)
      else None
  | _ => None
  end.

Fixpoint cutspace (s : string) : string :=
  match s with
  | String c rest => if Ascii.eqb c " " then cutspace rest else s
  | EmptyString => s
  end.

(** [skip(value, prefix)] for a one-byte prefix: a space of the layout
    stands for any run of spaces of the value. *)
Definition skip (value : string) (prefix : ascii) : option string :=
  if Ascii.eqb prefix " " then
    match value with
    | String c _ => if Ascii.eqb c " " then Some (cutspace value) else None
    | EmptyString => Some value
    end
  else
    match value with
    | String c rest => if Ascii.eqb c prefix then Some rest else None
    | EmptyString => None
    end.

Definition commaOrPeriod (c : ascii) : bool :=
  Ascii.eqb c "." || Ascii.eqb c ",".

(** The digits at the head of [s], and what follows them. *)
Fixpoint span_digits (s : string) : list Z * string :=
  match s with
  | String c rest =>
      if isDigit c then let (ds, r) := span_digits rest in (digit c :: ds, r)
      else ([], s)
  | EmptyString => ([], s)
  end.

(** [parseNanoseconds]: at most nine digits count, scaled to nanoseconds. *)
Fixpoint nanos (ds : list Z) (width : nat) : Z :=
  match width with
  | O => 0
  | S w =>
      match ds with
      | d :: ds' => d * 10 ^ Z.of_nat w + nanos ds' w
      | [] => 0
      end
  end.

(** A fractional second in the value is read even though the layout has
    none. *)
Definition fraction (value : string) : Z * string :=
  match value with
  | String c rest =>
      if commaOrPeriod c then
        match span_digits rest with
        | ([], _) => (0, value)
        | (ds, r) => (nanos ds 9, r)
        end
      else (0, value)
  | EmptyString => (0, value)
  end.

Inductive chunk : Type :=
| stdLongYear | stdZeroMonth | stdZeroDay
| stdHour | stdZeroMinute | stdZeroSecond
| lit (c : ascii).

Definition dateChunks : list chunk :=
  [stdLongYear; lit "-"; stdZeroMonth; lit "-"; stdZeroDay].

Definition clockChunks : list chunk :=
  [stdHour; lit ":"; stdZeroMinute; lit ":"; stdZeroSecond].

Definition chunksOf (layout : string) : option (list chunk) :=
  if (layout =? "2006-01-02")%string then Some dateChunks
  else if (layout =? "15:04:05")%string then Some clockChunks
  else if (layout =? "2006-01-02 15:04:05")%string
       then Some (dateChunks ++ lit " " :: clockChunks)%list
  else None.

Record fields : Type := mkFields {
  year : Z; month : Z; day : Z; hour : Z; min : Z; sec : Z; nsec : Z
}.

(** Fields absent from the layout: year 0, January 1, 00:00:00. *)
Definition zero : fields := mkFields 0 1 1 0 0 0 0.

Definition inRange (lo v hi : Z) : bool := (lo <=? v) && (v <=? hi).

Fixpoint parseChunks (cs : list chunk) (value : string) (f : fields)
  : option (fields * string) :=
  match cs with
  | [] => Some (f, value)
  | c :: cs' =>
      match c with
      | lit p =>
          match skip value p with
          | Some v => parseChunks cs' v f
          | None => None
          end
      | stdLongYear =>
          match getyear value with
          | Some (y, v) =>
              parseChunks cs' v
                (mkFields y (month f) (day f) (hour f) (min f) (sec f) (nsec f))
          | None => None
          end
      | stdZeroMonth =>
          match getnum value true with
          | Some (m, v) =>
              if inRange 1 m 12
              then parseChunks cs' v
                     (mkFields (year f) m (day f) (hour f) (min f) (sec f) (nsec f))
              else None
          | None => None
          end
      | stdZeroDay =>
          match getnum value true with
          | Some (d, v) =>
              parseChunks cs' v
                (mkFields (year f) (month f) d (hour f) (min f) (sec f) (nsec f))
          | None => None
          end
      | stdHour =>
          match getnum value false with
          | Some (h, v) =>
              if inRange 0 h 23
              then parseChunks cs' v
                     (mkFields (year f) (month f) (day f) h (min f) (sec f) (nsec f))
              else None
          | None => None
          end
      | stdZeroMinute =>
          match getnum value true with
          | Some (m, v) =>
              if inRange 0 m 59
              then parseChunks cs' v
                     (mkFields (year f) (month f) (day f) (hour f) m (sec f) (nsec f))
              else None
          | None => None
          end
      | stdZeroSecond =>
          match getnum value true with
          | Some (s, v) =>
              if inRange 0 s 59
              then let (ns, v') := fraction v in
                   parseChunks cs' v'
                     (mkFields (year f) (month f) (day f) (hour f) (min f) s ns)
              else None
          | None => None
          end
      end
  end.

Definition isLeap (y : Z) : bool :=
  (y mod 4 =? 0) && (negb (y mod 100 =? 0) || (y mod 400 =? 0)).

Definition daysIn (m y : Z) : Z :=
  if m =? 2 then (if isLeap y then 29 else 28)
  else if (m =? 4) || (m =? 6) || (m =? 9) || (m =? 11) then 30
  else 31.

(** Days from 1970-01-01 to the given day of the proleptic Gregorian
    calendar. *)
Definition daysFromCivil (y m d : Z) : Z :=
  let y' := if m <=? 2 then y - 1 else y in
  let era := y' / 400 in
  let yoe := y' - era * 400 in
  let doy := (153 * (if 2 <? m then m - 3 else m + 9) + 2) / 5 + d - 1 in
  let doe := yoe * 365 + yoe / 4 - yoe / 100 + doy in
  era * 146097 + doe - 719468.

(** [time.Date(year, month, day, hour, min, sec, nsec, time.UTC)] *)
Definition Date (f : fields) : Time :=
  ((daysFromCivil (year f) (month f) (day f) * 86400
    + hour f * 3600 + min f * 60 + sec f) * 1000000000) + nsec f.

Definition goParse (layout value : string) : result Time :=
  match chunksOf layout with
  | None => Err (ParseError layout value)
  | Some cs =>
      match parseChunks cs value zero with
      | Some (f, EmptyString) =>
          if inRange 1 (day f) (daysIn (month f) (year f))
          then Ok (Date f)
          else Err (ParseError layout value)
      | _ => Err (ParseError layout value)
      end
  end.

(** The inverse of [daysFromCivil]: year, month and day of a day number. *)
Definition civilFromDays (z : Z) : Z * Z * Z :=
  let z := z + 719468 in
  let era := z / 146097 in
  let doe := z - era * 146097 in
  let yoe := (doe - doe / 1460 + doe / 36524 - doe / 146096) / 365 in
  let doy := doe - (365 * yoe + yoe / 4 - yoe / 100) in
  let mp := (5 * doy + 2) / 153 in
  let d := doy - (153 * mp + 2) / 5 + 1 in
  let m := if mp <? 10 then mp + 3 else mp - 9 in
  (yoe + era * 400 + (if m <=? 2 then 1 else 0), m, d).

Definition digitChar (d : Z) : ascii := ascii_of_nat (Z.to_nat (48 + d mod 10)).

Definition two (n : Z) : string :=
  String (digitChar (n / 10)) (String (digitChar n) EmptyString).

Definition four (n : Z) : string := two (n / 100) ++ two n.

Definition goFormat (layout : string) (t : Time) : string :=
  let secs := t / 1000000000 in
  let '(y, m, d) := civilFromDays (secs / 86400) in
  let s := secs mod 86400 in
  let date := four y ++ "-" ++ two m ++ "-" ++ two d in
  let clock := two (s / 3600) ++ ":" ++ two (s / 60 mod 60) ++ ":" ++ two (s mod 60) in
  if (layout =? "2006-01-02")%string then date
  else if (layout =? "15:04:05")%string then clock
  else if (layout =? "2006-01-02 15:04:05")%string then date ++ " " ++ clock
  else layout.

Definition go : Pkg := {| Parse := goParse; Format := goFormat |}.

End time.

(** ** Slices *)

(** A slice is nil ([None]) or holds its elements ([Some l], possibly with
    [l = []]: the literal [[]T{}]). *)
Definition slice (A : Type) : Type := option (list A).

(** [append(s, x)] *)
Definition append {A} (s : slice A) (x : A) : slice A :=
  match s with
  | None => Some [x]
  | Some l => Some (l ++ [x])%list
  end.

(** [var out []T; for rows.Next() { ...; out = append(out, row) }] *)
Definition collect {A} (rows : list A) : slice A :=
  fold_left append rows None.

(** [if s == nil { s = []T{} }] *)
Definition orEmpty {A} (s : slice A) : slice A :=
  match s with
  | None => Some []
  | Some _ => s
  end.

Definition elems {A} (s : slice A) : list A :=
  match s with
  | None => []
  | Some l => l
  end.

(** ** The structs of the packages *)

(** [user.User]: the package is used by [internal/auth]; the fields are those
    its queries scan. *)
Module User.
Record t : Type := mk {
  ID : Z;
  Email : string;
  PasswordHash : string;
  CreatedAt : time.Time
}.
End User.

Module LoginRequest.
Record t : Type := mk { Email : string; Password : string }.
End LoginRequest.

Module RegisterRequest.
Record t : Type := mk { Email : string; Password : string }.
End RegisterRequest.

Module AuthResponse.
Record t : Type := mk { Token : string }.
End AuthResponse.

(** [internal/event/model.go] *)
Module Event.
Record t : Type := mk {
  ID : Z;
  Title : string;
  Description : string;
  Date : time.Time;
  Time : time.Time;
  Location : string;
  OrganizerID : Z;
  CreatedAt : time.Time
}.
End Event.

Module CreateEventRequest.
Record t : Type := mk {
  Title : string;
  Description : string;
  Date : string;   (* YYYY-MM-DD *)
  Time : string;   (* HH:MM:SS *)
  Location : string
}.
End CreateEventRequest.

Module UpdateEventRequest.
Record t : Type := mk {
  Title : string;
  Description : string;
  Date : string;
  Time : string;
  Location : string
}.
End UpdateEventRequest.

Module EventAttendee.
Record t : Type := mk {
  ID : Z;
  UserID : Z;
  EventID : Z;
  Role : string;     (* 'organizer', 'attendee', 'collaborator' *)
  Status : string;   (* 'going', 'maybe', 'not_going' *)
  CreatedAt : time.Time
}.
End EventAttendee.

Module EventWithAttendeeInfo.
Record t : Type := mk {
  Event : Event.t;
  Role : string;
  Status : string
}.
End EventWithAttendeeInfo.

Module AddAttendeeRequest.
Record t : Type := mk { UserID : Z; Role : string }.
End AddAttendeeRequest.

(** [internal/invitation/model.go] *)
Module Invitation.
Record t : Type := mk {
  ID : Z;
  EventID : Z;
  InviterID : Z;
  InviteeEmail : string;
  InviteeID : option Z;
  Role : string;     (* 'attendee' or 'collaborator' *)
  Status : string;   (* 'pending', 'accepted', 'declined' *)
  Message : string;
  CreatedAt : time.Time;
  RespondedAt : option time.Time
}.
End Invitation.

Module InvitationWithDetails.
Record t : Type := mk {
  Invitation : Invitation.t;
  EventTitle : string;
  EventDate : string;
  EventTime : string;
  EventLocation : string;
  InviterEmail : string
}.
End InvitationWithDetails.

Module SendInvitationRequest.
Record t : Type := mk {
  EventID : Z;
  InviteeEmail : string;
  Role : string;
  Message : string
}.
End SendInvitationRequest.

(** ** The store

    The tables of [schema.sql], each row held as the struct the
    repositories scan it into, with the sequences behind the [SERIAL]
    columns, the clock behind [NOW()], and for every round trip still to
    come whether the pool fails to serve it. *)

Module pg.

Record DB : Type := mk {
  users : list User.t;
  events : list Event.t;
  event_attendees : list EventAttendee.t;
  invitations : list Invitation.t;
  users_id_seq : Z;
  events_id_seq : Z;
  event_attendees_id_seq : Z;
  invitations_id_seq : Z;
  clock : time.Time;
  faults : list bool
}.

Definition empty (now : time.Time) : DB := mk [] [] [] [] 0 0 0 0 now [].

Definition set_users v (db : DB) : DB :=
  mk v (events db) (event_attendees db) (invitations db)
     (users_id_seq db) (events_id_seq db) (event_attendees_id_seq db)
     (invitations_id_seq db) (clock db) (faults db).

Definition set_events v (db : DB) : DB :=
  mk (users db) v (event_attendees db) (invitations db)
     (users_id_seq db) (events_id_seq db) (event_attendees_id_seq db)
     (invitations_id_seq db) (clock db) (faults db).

Definition set_event_attendees v (db : DB) : DB :=
  mk (users db) (events db) v (invitations db)
     (users_id_seq db) (events_id_seq db) (event_attendees_id_seq db)
     (invitations_id_seq db) (clock db) (faults db).

Definition set_invitations v (db : DB) : DB :=
  mk (users db) (events db) (event_attendees db) v
     (users_id_seq db) (events_id_seq db) (event_attendees_id_seq db)
     (invitations_id_seq db) (clock db) (faults db).

Definition set_users_id_seq v (db : DB) : DB :=
  mk (users db) (events db) (event_attendees db) (invitations db)
     v (events_id_seq db) (event_attendees_id_seq db)
     (invitations_id_seq db) (clock db) (faults db).

Definition set_events_id_seq v (db : DB) : DB :=
  mk (users db) (events db) (event_attendees db) (invitations db)
     (users_id_seq db) v (event_attendees_id_seq db)
     (invitations_id_seq db) (clock db) (faults db).

Definition set_event_attendees_id_seq v (db : DB) : DB :=
  mk (users db) (events db) (event_attendees db) (invitations db)
     (users_id_seq db) (events_id_seq db) v
     (invitations_id_seq db) (clock db) (faults db).

Definition set_invitations_id_seq v (db : DB) : DB :=
  mk (users db) (events db) (event_attendees db) (invitations db)
     (users_id_seq db) (events_id_seq db) (event_attendees_id_seq db)
     v (clock db) (faults db).

Definition set_faults v (db : DB) : DB :=
  mk (users db) (events db) (event_attendees db) (invitations db)
     (users_id_seq db) (events_id_seq db) (event_attendees_id_seq db)
     (invitations_id_seq db) (clock db) v.

(** The four tables of two stores agree. *)
Definition same_tables (a b : DB) : Prop :=
  users a = users b /\ events a = events b
  /\ event_attendees a = event_attendees b /\ invitations a = invitations b.

End pg.

(** ** Computations over the store *)

Definition M (A : Type) : Type := pg.DB -> result A * pg.DB.

Definition ret {A} (a : A) : M A := fun db => (Ok a, db).

Definition fail {A} (e : error) : M A := fun db => (Err e, db).

Definition bind {A B} (m : M A) (k : A -> M B) : M B :=
  fun db =>
    match m db with
    | (Ok a, db') => k a db'
    | (Err e, db') => (Err e, db')
    end.

(** [if err != nil { return f(err) }] *)
Definition onError {A} (f : error -> error) (m : M A) : M A :=
  fun db =>
    match m db with
    | (Ok a, db') => (Ok a, db')
    | (Err e, db') => (Err (f e), db')
    end.

(** A check that does not touch the store: [if err := check; err != nil
    { return err }]. *)
Definition lift {A} (r : result A) : M A := fun db => (r, db).

Declare Scope go_scope.
Delimit Scope go_scope with go.
Notation "x <- m ;; k" := (bind m (fun x => k))
  (at level 100, m at next level, right associativity) : go_scope.
Notation "m ;; k" := (bind m (fun _ => k))
  (at level 100, right associativity) : go_scope.
Local Open Scope go_scope.

Definition ok : result unit := Ok tt.

(** ** What a statement does to the store *)

Module sql.
Import pg.

Definition read {A} (f : DB -> A) : M A := fun db => (Ok (f db), db).

Definition write (f : DB -> DB) : M unit := fun db => (Ok tt, f db).

(** Every [QueryRow], [Query] and [Exec] is one round trip, which the pool
    may fail to serve. *)
Definition served (db : DB) : bool :=
  match faults db with
  | true :: _ => false
  | _ => true
  end.

Definition trip (db : DB) : DB := set_faults (tl (faults db)) db.

Definition roundTrip : M unit :=
  fun db =>
    if served db then (Ok tt, trip db) else (Err (Pg ConnFailure), trip db).

(** [NOW()] *)
Definition now : M time.Time := read clock.

(** The default of a [SERIAL] column; the value is spent even when the
    statement fails afterwards. *)
Definition nextval (seq : DB -> Z) (set_seq : Z -> DB -> DB) : M Z :=
  fun db => let v := seq db + 1 in (Ok v, set_seq v db).

(** A constraint of the schema: the statement fails when [holds] is false. *)
Definition constraint (holds : bool) (e : PgError) : M unit :=
  if holds then ret tt else fail (Pg e).

(** [QueryRow(...).Scan(...)]: the first row, or [pgx.ErrNoRows]. *)
Definition queryRow {A} (rows : list A) : M A :=
  match rows with
  | r :: _ => ret r
  | [] => fail (Pg ErrNoRows)
  end.

Fixpoint insertDesc {A} (key : A -> Z) (x : A) (l : list A) : list A :=
  match l with
  | [] => [x]
  | y :: l' => if key y <=? key x then x :: l else y :: insertDesc key x l'
  end.

(** [ORDER BY key DESC] *)
Definition orderByDesc {A} (key : A -> Z) (rows : list A) : list A :=
  fold_right (insertDesc key) [] rows.

Definition hasUser (id : Z) (db : DB) : bool :=
  existsb (fun u => User.ID u =? id) (users db).

Definition hasEvent (id : Z) (db : DB) : bool :=
  existsb (fun e => Event.ID e =? id) (events db).

Definition hasAttendee (user_id event_id : Z) (db : DB) : bool :=
  existsb (fun a => (EventAttendee.UserID a =? user_id)
                    && (EventAttendee.EventID a =? event_id))
          (event_attendees db).

Definition roleCheck (role : string) : bool :=
  (role =? "organizer")%string || (role =? "attendee")%string
  || (role =? "collaborator")%string.

Definition statusCheck (status : string) : bool :=
  (status =? "going")%string || (status =? "maybe")%string
  || (status =? "not_going")%string.

(** [INSERT INTO event_attendees (user_id, event_id, role, status)
     VALUES (user_id, event_id, role, status)]: the checks of the row, the
    unique index, then the foreign keys. *)
Definition insertAttendee (user_id event_id : Z) (role status : string) : M unit :=
  roundTrip ;;
  id <- nextval event_attendees_id_seq set_event_attendees_id_seq ;;
  created_at <- now ;;
  constraint (roleCheck role) (CheckViolation "event_attendees_role_check") ;;
  constraint (statusCheck status) (CheckViolation "event_attendees_status_check") ;;
  dup <- read (hasAttendee user_id event_id) ;;
  constraint (negb dup) (UniqueViolation "event_attendees_user_id_event_id_key") ;;
  fk_user <- read (hasUser user_id) ;;
  constraint fk_user (ForeignKeyViolation "event_attendees_user_id_fkey") ;;
  fk_event <- read (hasEvent event_id) ;;
  constraint fk_event (ForeignKeyViolation "event_attendees_event_id_fkey") ;;
  write (fun db =>
           set_event_attendees
             (event_attendees db
              ++ [EventAttendee.mk id user_id event_id role status created_at])%list
             db).

End sql.

(** ** Package [net/http]: what a handler reads and what it answers *)

Module http.

Definition StatusOK : Z := 200.
Definition StatusCreated : Z := 201.
Definition StatusBadRequest : Z := 400.
Definition StatusUnauthorized : Z := 401.
Definition StatusForbidden : Z := 403.
Definition StatusNotFound : Z := 404.
Definition StatusInternalServerError : Z := 500.

(** A request as the handlers read it: the user that the auth middleware
    left in the context ([auth.GetUserID(r.Context())]), the path value
    [id] through [strconv.Atoi], and the body through the JSON decoder. *)
Record Request (Body : Type) : Type := mkRequest {
  UserID : option Z;
  PathID : result Z;
  Decode : result Body
}.
Arguments mkRequest {Body} _ _ _.
Arguments UserID {Body} _.
Arguments PathID {Body} _.
Arguments Decode {Body} _.

(** A response: the status code, and of the JSON object written the
    fields [error], [message] and [data]. *)
Record Response (Data : Type) : Type := mkResponse {
  StatusCode : Z;
  error : option string;
  message : option string;
  data : option Data
}.
Arguments mkResponse {Data} _ _ _ _.
Arguments StatusCode {Data} _.
Arguments error {Data} _.
Arguments message {Data} _.
Arguments data {Data} _.

(** [http.Error(w, fmt.Sprintf(`{"error": "%s"}`, text), code)] *)
Definition Error {Data} (text : string) (code : Z) : Response Data :=
  mkResponse code (Some text) None None.

End http.

(** ** Package [event] *)

Module event.

Definition set_Title v (e : Event.t) : Event.t :=
  Event.mk (Event.ID e) v (Event.Description e) (Event.Date e) (Event.Time e)
           (Event.Location e) (Event.OrganizerID e) (Event.CreatedAt e).

Definition set_Description v (e : Event.t) : Event.t :=
  Event.mk (Event.ID e) (Event.Title e) v (Event.Date e) (Event.Time e)
           (Event.Location e) (Event.OrganizerID e) (Event.CreatedAt e).

Definition set_Date v (e : Event.t) : Event.t :=
  Event.mk (Event.ID e) (Event.Title e) (Event.Description e) v (Event.Time e)
           (Event.Location e) (Event.OrganizerID e) (Event.CreatedAt e).

Definition set_Time v (e : Event.t) : Event.t :=
  Event.mk (Event.ID e) (Event.Title e) (Event.Description e) (Event.Date e) v
           (Event.Location e) (Event.OrganizerID e) (Event.CreatedAt e).

Definition set_Location v (e : Event.t) : Event.t :=
  Event.mk (Event.ID e) (Event.Title e) (Event.Description e) (Event.Date e)
           (Event.Time e) v (Event.OrganizerID e) (Event.CreatedAt e).

(** [internal/event]'s repository: one statement per method. *)
Module Repository.
Import pg sql.

(** [INSERT INTO events ... RETURNING id, created_at]; the struct comes
    back with the two scanned fields set. *)
Definition CreateEvent (event : Event.t) : M Event.t :=
  onError (Wrap "failed to create event")
    (roundTrip ;;
     id <- nextval events_id_seq set_events_id_seq ;;
     created_at <- now ;;
     fk <- read (hasUser (Event.OrganizerID event)) ;;
     constraint fk (ForeignKeyViolation "events_organizer_id_fkey") ;;
     let row := Event.mk id (Event.Title event) (Event.Description event)
                         (Event.Date event) (Event.Time event)
                         (Event.Location event) (Event.OrganizerID event)
                         created_at in
     write (fun db => set_events (events db ++ [row])%list db) ;;
     ret row).

(** [SELECT ... FROM events WHERE id = $1] *)
Definition GetEventByID (eventID : Z) : M Event.t :=
  onError (Wrap "failed to get event")
    (roundTrip ;;
     rows <- read events ;;
     queryRow (filter (fun e => Event.ID e =? eventID) rows)).

(** [SELECT ... FROM events ORDER BY date DESC] *)
Definition GetAllEvents : M (slice Event.t) :=
  onError (Wrap "failed to get events")
    (roundTrip ;;
     rows <- read events ;;
     ret (collect (orderByDesc Event.Date rows))).

(** [SELECT ... FROM events WHERE organizer_id = $1 ORDER BY date DESC] *)
Definition GetEventsByOrganizerID (organizerID : Z) : M (slice Event.t) :=
  onError (Wrap "failed to get organizer events")
    (roundTrip ;;
     rows <- read events ;;
     ret (collect (orderByDesc Event.Date
            (filter (fun e => Event.OrganizerID e =? organizerID) rows)))).

(** The block "Apply updates (only non-empty fields)" of [UpdateEvent]:
    the fields of [updates] that are not empty, written over
    [currentEvent] one after the other. *)
Definition applyUpdates `{time.Pkg} (updates : UpdateEventRequest.t)
    (currentEvent : Event.t) : result Event.t :=
  let currentEvent :=
    if negb (UpdateEventRequest.Title updates =? "")%string
    then set_Title (UpdateEventRequest.Title updates) currentEvent
    else currentEvent in
  let currentEvent :=
    if negb (UpdateEventRequest.Description updates =? "")%string
    then set_Description (UpdateEventRequest.Description updates) currentEvent
    else currentEvent in
  let withDate :=
    if negb (UpdateEventRequest.Date updates =? "")%string then
      match time.Parse "2006-01-02" (UpdateEventRequest.Date updates) with
      | Ok eventDate => Ok (set_Date eventDate currentEvent)
      | Err err => Err (Wrap "invalid date format" err)
      end
    else Ok currentEvent in
  match withDate with
  | Err err => Err err
  | Ok currentEvent =>
      let withTime :=
        if negb (UpdateEventRequest.Time updates =? "")%string then
          match time.Parse "15:04:05" (UpdateEventRequest.Time updates) with
          | Ok eventTime => Ok (set_Time eventTime currentEvent)
          | Err err => Err (Wrap "invalid time format" err)
          end
        else Ok currentEvent in
      match withTime with
      | Err err => Err err
      | Ok currentEvent =>
          Ok (if negb (UpdateEventRequest.Location updates =? "")%string
              then set_Location (UpdateEventRequest.Location updates) currentEvent
              else currentEvent)
      end
  end.

(** The row [old] with the five columns of the [SET] clause taken from
    [new]. *)
Definition setColumns (new old : Event.t) : Event.t :=
  Event.mk (Event.ID old) (Event.Title new) (Event.Description new)
           (Event.Date new) (Event.Time new) (Event.Location new)
           (Event.OrganizerID old) (Event.CreatedAt old).

(** The current row is read, patched, and written back whole:
    [UPDATE events SET title = $1, ..., location = $5 WHERE id = $6
     RETURNING ...]. *)
Definition UpdateEvent `{time.Pkg} (eventID : Z) (updates : UpdateEventRequest.t)
  : M Event.t :=
  currentEvent <- GetEventByID eventID ;;
  currentEvent <- lift (applyUpdates updates currentEvent) ;;
  onError (Wrap "failed to update event")
    (roundTrip ;;
     write (fun db =>
              set_events
                (map (fun e => if Event.ID e =? eventID
                               then setColumns currentEvent e else e)
                     (events db))
                db) ;;
     rows <- read events ;;
     queryRow (filter (fun e => Event.ID e =? eventID) rows)).

(** [DELETE FROM events WHERE id = $1]; the rows of [event_attendees]
    that reference the event go with it ([ON DELETE CASCADE]), and so do
    its invitations. *)
Definition DeleteEvent (eventID : Z) : M unit :=
  rowsAffected <-
    onError (Wrap "failed to delete event")
      (roundTrip ;;
       rows <- read events ;;
       write (fun db =>
                set_invitations
                  (filter (fun i => negb (Invitation.EventID i =? eventID))
                          (invitations db))
                  (set_event_attendees
                     (filter (fun a => negb (EventAttendee.EventID a =? eventID))
                             (event_attendees db))
                     (set_events
                        (filter (fun e => negb (Event.ID e =? eventID))
                                (events db))
                        db))) ;;
       ret (length (filter (fun e => Event.ID e =? eventID) rows))) ;;
  if Nat.eqb rowsAffected 0 then fail (New "event not found") else ret tt.

(** [INSERT INTO event_attendees ... VALUES ($1, $2, 'attendee', 'going')] *)
Definition JoinEvent (userID eventID : Z) : M unit :=
  onError (Wrap "failed to join event")
    (insertAttendee userID eventID "attendee" "going").

(** [SELECT e.*, ea.role, ea.status FROM events e
     JOIN event_attendees ea ON e.id = ea.event_id
     WHERE ea.user_id = $1 ORDER BY e.date DESC] *)
Definition GetEventsByAttendeeID (userID : Z) : M (slice EventWithAttendeeInfo.t) :=
  onError (Wrap "failed to get attendee events")
    (roundTrip ;;
     es <- read events ;;
     eas <- read event_attendees ;;
     ret (collect
            (orderByDesc (fun r => Event.Date (EventWithAttendeeInfo.Event r))
               (flat_map
                  (fun e =>
                     map (fun ea => EventWithAttendeeInfo.mk e
                                      (EventAttendee.Role ea)
                                      (EventAttendee.Status ea))
                         (filter (fun ea =>
                                    (Event.ID e =? EventAttendee.EventID ea)
                                    && (EventAttendee.UserID ea =? userID))
                                 eas))
                  es)))).

(** [SELECT ... FROM events WHERE organizer_id = $1 ORDER BY date DESC] *)
Definition GetMyOrganizedEvents (organizerID : Z) : M (slice Event.t) :=
  onError (Wrap "failed to get organized events")
    (roundTrip ;;
     rows <- read events ;;
     ret (collect (orderByDesc Event.Date
            (filter (fun e => Event.OrganizerID e =? organizerID) rows)))).

(** [INSERT INTO event_attendees ... VALUES ($1, $2, 'organizer', 'going')] *)
Definition AddOrganizerAsAttendee (userID eventID : Z) : M unit :=
  onError (Wrap "failed to add organizer as attendee")
    (insertAttendee userID eventID "organizer" "going").

(** [INSERT INTO event_attendees ... VALUES ($1, $2, $3, 'going')] *)
Definition AddAttendee (eventID userID : Z) (role : string) : M unit :=
  onError (Wrap "failed to add user to event")
    (insertAttendee userID eventID role "going").

(** [UPDATE event_attendees SET status = $1
     WHERE user_id = $2 AND event_id = $3] *)
Definition UpdateAttendanceStatus (userID eventID : Z) (status : string) : M unit :=
  rowsAffected <-
    onError (Wrap "failed to update attendance status")
      (roundTrip ;;
       rows <- read event_attendees ;;
       let hit := fun a => (EventAttendee.UserID a =? userID)
                           && (EventAttendee.EventID a =? eventID) in
       constraint (Nat.eqb (length (filter hit rows)) 0 || statusCheck status)
                  (CheckViolation "event_attendees_status_check") ;;
       write (fun db =>
                set_event_attendees
                  (map (fun a =>
                          if hit a
                          then EventAttendee.mk (EventAttendee.ID a)
                                 (EventAttendee.UserID a) (EventAttendee.EventID a)
                                 (EventAttendee.Role a) status
                                 (EventAttendee.CreatedAt a)
                          else a)
                       (event_attendees db))
                  db) ;;
       ret (length (filter hit rows))) ;;
  if Nat.eqb rowsAffected 0 then fail (New "attendance record not found") else ret tt.

(** [SELECT ... FROM event_attendees WHERE event_id = $1
     ORDER BY created_at DESC] *)
Definition GetEventAttendees (eventID : Z) : M (slice EventAttendee.t) :=
  onError (Wrap "failed to get event attendees")
    (roundTrip ;;
     rows <- read event_attendees ;;
     ret (collect (orderByDesc EventAttendee.CreatedAt
            (filter (fun a => EventAttendee.EventID a =? eventID) rows)))).

End Repository.

(** [internal/event]'s service: validation and ownership around the
    repository. *)
Module Service.
Import pg sql.

(** [time.Now()] *)
Definition Now : M time.Time := read clock.

Definition validateCreateRequest (req : CreateEventRequest.t) : result unit :=
  if (CreateEventRequest.Title req =? "")%string then
    Err (New "event title is required")
  else if (CreateEventRequest.Date req =? "")%string then
    Err (New "event date is required")
  else if (CreateEventRequest.Time req =? "")%string then
    Err (New "event time is required")
  else if (CreateEventRequest.Location req =? "")%string then
    Err (New "event location is required")
  else if (255 <? String.length (CreateEventRequest.Title req))%nat then
    Err (New "event title must not exceed 255 characters")
  else if (1000 <? String.length (CreateEventRequest.Description req))%nat then
    Err (New "event description must not exceed 1000 characters")
  else ok.

Definition validateDateFormat `{time.Pkg} (date : string) : result unit :=
  match time.Parse "2006-01-02" date with
  | Ok _ => ok
  | Err _ => Err (New "invalid date format, use YYYY-MM-DD")
  end.

Definition validateTimeFormat `{time.Pkg} (timeStr : string) : result unit :=
  match time.Parse "15:04:05" timeStr with
  | Ok _ => ok
  | Err _ => Err (New "invalid time format, use HH:MM:SS")
  end.

Definition validateDateTime `{time.Pkg} (date timeStr : string) : result unit :=
  match validateDateFormat date with
  | Err err => Err err
  | Ok _ =>
      match validateTimeFormat timeStr with
      | Err err => Err err
      | Ok _ => ok
      end
  end.

Definition validateFutureEvent `{time.Pkg} (date timeStr : string) : M unit :=
  match time.Parse "2006-01-02 15:04:05" (date ++ " " ++ timeStr) with
  | Err _ => fail (New "failed to parse event date and time")
  | Ok eventDateTime =>
      now <- Now ;;
      if time.Before eventDateTime now
      then fail (New "event date and time must be in the future")
      else ret tt
  end.

Definition wrapResult {A} (msg : string) (r : result A) : result A :=
  match r with
  | Ok a => Ok a
  | Err err => Err (Wrap msg err)
  end.

(** CreateEvent validates and creates a new event *)
Definition CreateEvent `{time.Pkg} (req : CreateEventRequest.t) (organizerID : Z)
  : M Event.t :=
  lift (validateCreateRequest req) ;;
  lift (validateDateTime (CreateEventRequest.Date req) (CreateEventRequest.Time req)) ;;
  validateFutureEvent (CreateEventRequest.Date req) (CreateEventRequest.Time req) ;;
  eventDate <- lift (wrapResult "invalid date format"
                       (time.Parse "2006-01-02" (CreateEventRequest.Date req))) ;;
  eventTime <- lift (wrapResult "invalid time format"
                       (time.Parse "15:04:05" (CreateEventRequest.Time req))) ;;
  let event := Event.mk 0 (CreateEventRequest.Title req)
                        (CreateEventRequest.Description req)
                        eventDate eventTime
                        (CreateEventRequest.Location req)
                        organizerID time.zeroTime in
  event <- Repository.CreateEvent event ;;
  onError (Wrap "failed to add organizer as attendee")
    (Repository.AddOrganizerAsAttendee organizerID (Event.ID event)) ;;
  ret event.

Definition GetEventByID (eventID : Z) : M Event.t :=
  if eventID <=? 0 then fail (New "invalid event ID")
  else Repository.GetEventByID eventID.

Definition GetAllEvents : M (slice Event.t) :=
  events <- Repository.GetAllEvents ;;
  ret (orEmpty events).

Definition GetEventsByOrganizerID (organizerID : Z) : M (slice Event.t) :=
  if organizerID <=? 0 then fail (New "invalid organizer ID")
  else
    events <- Repository.GetEventsByOrganizerID organizerID ;;
    ret (orEmpty events).

(** UpdateEvent validates and updates an event *)
Definition UpdateEvent `{time.Pkg} (eventID : Z) (req : UpdateEventRequest.t)
    (organizerID : Z) : M Event.t :=
  if eventID <=? 0 then fail (New "invalid event ID")
  else
    event <- Repository.GetEventByID eventID ;;
    if negb (Event.OrganizerID event =? organizerID) then
      fail (New "you are not authorized to update this event")
    else
      (if negb (UpdateEventRequest.Date req =? "")%string
          && negb (UpdateEventRequest.Time req =? "")%string then
         lift (validateDateTime (UpdateEventRequest.Date req)
                                (UpdateEventRequest.Time req)) ;;
         validateFutureEvent (UpdateEventRequest.Date req)
                             (UpdateEventRequest.Time req)
       else if negb (UpdateEventRequest.Date req =? "")%string then
         lift (validateDateFormat (UpdateEventRequest.Date req))
       else if negb (UpdateEventRequest.Time req =? "")%string then
         lift (validateTimeFormat (UpdateEventRequest.Time req))
       else ret tt) ;;
      Repository.UpdateEvent eventID req.

(** DeleteEvent validates and deletes an event *)
Definition DeleteEvent (eventID organizerID : Z) : M unit :=
  if eventID <=? 0 then fail (New "invalid event ID")
  else
    event <- Repository.GetEventByID eventID ;;
    if negb (Event.OrganizerID event =? organizerID) then
      fail (New "you are not authorized to delete this event")
    else Repository.DeleteEvent eventID.

(** JoinEvent allows a user to join an event as an attendee *)
Definition JoinEvent (userID eventID : Z) : M unit :=
  if userID <=? 0 then fail (New "invalid user ID")
  else if eventID <=? 0 then fail (New "invalid event ID")
  else
    onError (fun _ => New "event not found") (Repository.GetEventByID eventID) ;;
    Repository.JoinEvent userID eventID.

Definition GetMyAttendingEvents (userID : Z) : M (slice EventWithAttendeeInfo.t) :=
  if userID <=? 0 then fail (New "invalid user ID")
  else
    events <- Repository.GetEventsByAttendeeID userID ;;
    ret (orEmpty events).

(** InviteUserToEvent invites a user to an event (only event creator can
    invite) *)
Definition InviteUserToEvent (eventID inviterID : Z) (req : AddAttendeeRequest.t)
  : M unit :=
  if eventID <=? 0 then fail (New "invalid event ID")
  else if inviterID <=? 0 then fail (New "invalid inviter ID")
  else if AddAttendeeRequest.UserID req <=? 0 then fail (New "invalid user ID")
  else if negb (AddAttendeeRequest.Role req =? "attendee")%string
          && negb (AddAttendeeRequest.Role req =? "collaborator")%string
          && negb (AddAttendeeRequest.Role req =? "organizer")%string then
    fail (New "invalid role: must be 'attendee', 'collaborator', or 'organizer'")
  else
    event <- onError (fun _ => New "event not found")
               (Repository.GetEventByID eventID) ;;
    if negb (Event.OrganizerID event =? inviterID) then
      fail (New "only the event creator can invite users to this event")
    else if AddAttendeeRequest.UserID req =? inviterID then
      fail (New "you cannot invite yourself to the event")
    else
      Repository.AddAttendee eventID (AddAttendeeRequest.UserID req)
                             (AddAttendeeRequest.Role req).

(** UpdateAttendanceStatus updates a user's attendance status for an
    event *)
Definition UpdateAttendanceStatus (userID eventID : Z) (status : string) : M unit :=
  if userID <=? 0 then fail (New "invalid user ID")
  else if eventID <=? 0 then fail (New "invalid event ID")
  else
    let validStatuses := ["going"; "maybe"; "not_going"] in
    let isValid := existsb (String.eqb status) validStatuses in
    if negb isValid then
      fail (New "invalid status: must be 'going', 'maybe', or 'not_going'")
    else Repository.UpdateAttendanceStatus userID eventID status.

Definition GetEventAttendees (eventID : Z) : M (slice EventAttendee.t) :=
  if eventID <=? 0 then fail (New "invalid event ID")
  else
    attendees <- Repository.GetEventAttendees eventID ;;
    ret (orEmpty attendees).

Definition GetMyOrganizedEvents (organizerID : Z) : M (slice Event.t) :=
  if organizerID <=? 0 then fail (New "invalid organizer ID")
  else
    events <- Repository.GetMyOrganizedEvents organizerID ;;
    ret (orEmpty events).

End Service.

(** The handlers answer over the store the service works on. *)
Module Handler.

(** CreateEvent handles POST /events *)
Definition CreateEvent `{time.Pkg} (r : http.Request CreateEventRequest.t)
  : pg.DB -> http.Response Event.t * pg.DB :=
  fun db =>
    match http.UserID r with
    | None => (http.Error "unauthorized" http.StatusUnauthorized, db)
    | Some organizerID =>
        match http.Decode r with
        | Err _ => (http.Error "invalid request body" http.StatusBadRequest, db)
        | Ok req =>
            match Service.CreateEvent req organizerID db with
            | (Err err, db') =>
                (http.Error (errors.Error err) http.StatusBadRequest, db')
            | (Ok event, db') =>
                (http.mkResponse http.StatusCreated None
                   (Some "event created successfully") (Some event), db')
            end
        end
    end.

(** GetEventByID handles GET /events/:id *)
Definition GetEventByID (r : http.Request unit)
  : pg.DB -> http.Response Event.t * pg.DB :=
  fun db =>
    match http.PathID r with
    | Err _ => (http.Error "invalid event ID" http.StatusBadRequest, db)
    | Ok eventID =>
        match Service.GetEventByID eventID db with
        | (Err err, db') =>
            (http.Error (errors.Error err) http.StatusNotFound, db')
        | (Ok event, db') =>
            (http.mkResponse http.StatusOK None None (Some event), db')
        end
    end.

(** UpdateEvent handles PUT /events/:id *)
Definition UpdateEvent `{time.Pkg} (r : http.Request UpdateEventRequest.t)
  : pg.DB -> http.Response Event.t * pg.DB :=
  fun db =>
    match http.UserID r with
    | None => (http.Error "unauthorized" http.StatusUnauthorized, db)
    | Some userID =>
        match http.PathID r with
        | Err _ => (http.Error "invalid event ID" http.StatusBadRequest, db)
        | Ok eventID =>
            match http.Decode r with
            | Err _ => (http.Error "invalid request body" http.StatusBadRequest, db)
            | Ok req =>
                match Service.UpdateEvent eventID req userID db with
                | (Err err, db') =>
                    if (errors.Error err
                        =? "you are not authorized to update this event")%string
                    then (http.Error (errors.Error err) http.StatusForbidden, db')
                    else (http.Error (errors.Error err) http.StatusBadRequest, db')
                | (Ok event, db') =>
                    (http.mkResponse http.StatusOK None
                       (Some "event updated successfully") (Some event), db')
                end
            end
        end
    end.

(** DeleteEvent handles DELETE /events/:id *)
Definition DeleteEvent (r : http.Request unit)
  : pg.DB -> http.Response unit * pg.DB :=
  fun db =>
    match http.UserID r with
    | None => (http.Error "unauthorized" http.StatusUnauthorized, db)
    | Some userID =>
        match http.PathID r with
        | Err _ => (http.Error "invalid event ID" http.StatusBadRequest, db)
        | Ok eventID =>
            match Service.DeleteEvent eventID userID db with
            | (Err err, db') =>
                if (errors.Error err
                    =? "you are not authorized to delete this event")%string
                then (http.Error (errors.Error err) http.StatusForbidden, db')
                else (http.Error (errors.Error err) http.StatusBadRequest, db')
            | (Ok _, db') =>
                (http.mkResponse http.StatusOK None
                   (Some "event deleted successfully") None, db')
            end
        end
    end.

(** JoinEvent handles POST /events/:id/join *)
Definition JoinEvent (r : http.Request unit)
  : pg.DB -> http.Response unit * pg.DB :=
  fun db =>
    match http.UserID r with
    | None => (http.Error "unauthorized" http.StatusUnauthorized, db)
    | Some userID =>
        match http.PathID r with
        | Err _ => (http.Error "invalid event ID" http.StatusBadRequest, db)
        | Ok eventID =>
            match Service.JoinEvent userID eventID db with
            | (Err err, db') =>
                (http.Error (errors.Error err) http.StatusBadRequest, db')
            | (Ok _, db') =>
                (http.mkResponse http.StatusOK None
                   (Some "successfully joined event") None, db')
            end
        end
    end.

(** InviteUserToEvent handles POST /events/{id}/invite *)
Definition InviteUserToEvent (r : http.Request AddAttendeeRequest.t)
  : pg.DB -> http.Response unit * pg.DB :=
  fun db =>
    match http.UserID r with
    | None => (http.Error "unauthorized" http.StatusUnauthorized, db)
    | Some inviterID =>
        match http.PathID r with
        | Err _ => (http.Error "invalid event ID" http.StatusBadRequest, db)
        | Ok eventID =>
            match http.Decode r with
            | Err _ => (http.Error "invalid request body" http.StatusBadRequest, db)
            | Ok req =>
                match Service.InviteUserToEvent eventID inviterID req db with
                | (Err err, db') =>
                    if (errors.Error err
                        =? "only the event creator can invite users to this event")%string
                    then (http.Error (errors.Error err) http.StatusForbidden, db')
                    else (http.Error (errors.Error err) http.StatusBadRequest, db')
                | (Ok _, db') =>
                    (http.mkResponse http.StatusOK None
                       (Some "user invited to event successfully") None, db')
                end
            end
        end
    end.

End Handler.

End event.

(** ** Package [strings] *)

Module strings.
Class Pkg : Type := { TrimSpace : string -> string }.
End strings.

(** ** Package [regexp]: the expressions the services compile *)

Module regexp.

(** The syntax of an expression between [^] and [$]; a class is a list
    of byte ranges. *)
Inductive Regexp : Type :=
| NoMatch
| EmptyMatch
| CharClass (ranges : list (ascii * ascii))
| Concat (r s : Regexp)
| Alternate (r s : Regexp)
| Star (r : Regexp).

(** A single character. *)
Definition Literal (c : ascii) : Regexp := CharClass [(c, c)].

(** [r+] *)
Definition Plus (r : Regexp) : Regexp := Concat r (Star r).

(** [r{min,}] *)
Fixpoint Repeat (min : nat) (r : Regexp) : Regexp :=
  match min with
  | O => Star r
  | S n => Concat r (Repeat n r)
  end.

Definition inRanges (c : ascii) (ranges : list (ascii * ascii)) : bool :=
  existsb (fun range =>
             (N_of_ascii (fst range) <=? N_of_ascii c)%N
             && (N_of_ascii c <=? N_of_ascii (snd range))%N)
          ranges.

(** Whether the expression matches the empty string. *)
Fixpoint nullable (r : Regexp) : bool :=
  match r with
  | NoMatch => false
  | EmptyMatch => true
  | CharClass _ => false
  | Concat r s => nullable r && nullable s
  | Alternate r s => nullable r || nullable s
  | Star _ => true
  end.

(** What is left of the expression after the character [c]. *)
Fixpoint derive (c : ascii) (r : Regexp) : Regexp :=
  match r with
  | NoMatch => NoMatch
  | EmptyMatch => NoMatch
  | CharClass ranges => if inRanges c ranges then EmptyMatch else NoMatch
  | Concat r s =>
      if nullable r
      then Alternate (Concat (derive c r) s) (derive c s)
      else Concat (derive c r) s
  | Alternate r s => Alternate (derive c r) (derive c s)
  | Star r => Concat (derive c r) (Star r)
  end.

(** [regexp.MustCompile("^" + r + "$").MatchString(s)] *)
Fixpoint MatchString (r : Regexp) (s : string) : bool :=
  match s with
  | EmptyString => nullable r
  | String c s' => MatchString (derive c r) s'
  end.

(** The strings an expression denotes. *)
Inductive matches : Regexp -> string -> Prop :=
| matches_empty : matches EmptyMatch ""
| matches_class c ranges :
    inRanges c ranges = true -> matches (CharClass ranges) (String c "")
| matches_concat r s u v :
    matches r u -> matches s v -> matches (Concat r s) (u ++ v)
| matches_left r s u : matches r u -> matches (Alternate r s) u
| matches_right r s u : matches s u -> matches (Alternate r s) u
| matches_star_nil r : matches (Star r) ""
| matches_star_cons r u v :
    matches r u -> matches (Star r) v -> matches (Star r) (u ++ v).

(** Every character of the string is in the class. *)
Fixpoint allIn (ranges : list (ascii * ascii)) (s : string) : bool :=
  match s with
  | EmptyString => true
  | String c s' => inRanges c ranges && allIn ranges s'
  end.

End regexp.

(** ** Package [invitation] *)

Module invitation.

Definition respond (status : string) (at_ : time.Time) (i : Invitation.t)
  : Invitation.t :=
  Invitation.mk (Invitation.ID i) (Invitation.EventID i) (Invitation.InviterID i)
                (Invitation.InviteeEmail i) (Invitation.InviteeID i)
                (Invitation.Role i) status (Invitation.Message i)
                (Invitation.CreatedAt i) (Some at_).

Module Repository.
Import pg sql.

(** Modelled from the spec: the table [invitations] is not in
    [schema.sql]. Its columns are those of the statements below; a new
    row has status 'pending' and no responded-at time, and it references
    its event, which takes its invitations with it when deleted.

    [INSERT INTO invitations (event_id, inviter_id, invitee_email,
     invitee_id, role, message) ... RETURNING id, created_at] *)
Definition SendInvitation (invitation : Invitation.t) : M Invitation.t :=
  onError (Wrap "failed to send invitation")
    (roundTrip ;;
     id <- nextval invitations_id_seq set_invitations_id_seq ;;
     created_at <- now ;;
     fk <- read (hasEvent (Invitation.EventID invitation)) ;;
     constraint fk (ForeignKeyViolation "invitations_event_id_fkey") ;;
     write (fun db =>
              set_invitations
                (invitations db
                 ++ [Invitation.mk id (Invitation.EventID invitation)
                       (Invitation.InviterID invitation)
                       (Invitation.InviteeEmail invitation)
                       (Invitation.InviteeID invitation)
                       (Invitation.Role invitation) "pending"
                       (Invitation.Message invitation) created_at None])%list
                db) ;;
     ret (Invitation.mk id (Invitation.EventID invitation)
            (Invitation.InviterID invitation)
            (Invitation.InviteeEmail invitation)
            (Invitation.InviteeID invitation)
            (Invitation.Role invitation) (Invitation.Status invitation)
            (Invitation.Message invitation) created_at
            (Invitation.RespondedAt invitation))).

(** [SELECT ... FROM invitations WHERE id = $1] *)
Definition GetInvitationByID (invitationID : Z) : M Invitation.t :=
  onError (Wrap "failed to get invitation")
    (roundTrip ;;
     rows <- read invitations ;;
     queryRow (filter (fun i => Invitation.ID i =? invitationID) rows)).

(** [FROM invitations i JOIN events e ON i.event_id = e.id
     JOIN users u ON i.inviter_id = u.id]: the rows of the join that
    satisfy [keep], [ORDER BY i.created_at DESC]. *)
Definition joined `{time.Pkg} (keep : Invitation.t -> bool) (db : DB)
  : list InvitationWithDetails.t :=
  orderByDesc (fun r => Invitation.CreatedAt (InvitationWithDetails.Invitation r))
    (flat_map
       (fun i =>
          flat_map
            (fun e =>
               map (fun u =>
                      InvitationWithDetails.mk i (Event.Title e)
                        (time.Format "2006-01-02" (Event.Date e))
                        (time.Format "15:04:05" (Event.Time e))
                        (Event.Location e) (User.Email u))
                   (filter (fun u => Invitation.InviterID i =? User.ID u)
                           (users db)))
            (filter (fun e => Invitation.EventID i =? Event.ID e) (events db)))
       (filter keep (invitations db))).

(** [... WHERE i.invitee_email = $1 ORDER BY i.created_at DESC] *)
Definition GetInvitationsByEmail `{time.Pkg} (email : string)
  : M (slice InvitationWithDetails.t) :=
  onError (Wrap "failed to get invitations by email")
    (roundTrip ;;
     rows <- read (joined (fun i => (Invitation.InviteeEmail i =? email)%string)) ;;
     ret (collect rows)).

(** [... WHERE i.event_id = $1 ORDER BY i.created_at DESC] *)
Definition GetInvitationsByEventID `{time.Pkg} (eventID : Z)
  : M (slice InvitationWithDetails.t) :=
  onError (Wrap "failed to get invitations by event")
    (roundTrip ;;
     rows <- read (joined (fun i => Invitation.EventID i =? eventID)) ;;
     ret (collect rows)).

(** [UPDATE invitations SET status = $1, responded_at = $2
     WHERE id = $3], with [time.Now()] for [$2]. *)
Definition UpdateInvitationStatus (invitationID : Z) (status : string) : M unit :=
  onError (Wrap "failed to update invitation status")
    (at_ <- read clock ;;
     roundTrip ;;
     write (fun db =>
              set_invitations
                (map (fun i => if Invitation.ID i =? invitationID
                               then respond status at_ i else i)
                     (invitations db))
                db)).

(** [SELECT id FROM users WHERE email = $1]; any failure is "no such
    user". *)
Definition GetUserIDByEmail (email : string) : M (option Z) :=
  fun db =>
    match (roundTrip ;;
           rows <- read users ;;
           queryRow (filter (fun u => (User.Email u =? email)%string) rows)) db with
    | (Ok u, db') => (Ok (Some (User.ID u)), db')
    | (Err _, db') => (Ok None, db')
    end.

End Repository.

Module Service.

Definition GetMyInvitations `{time.Pkg} (email : string)
  : M (slice InvitationWithDetails.t) :=
  invitations <- Repository.GetInvitationsByEmail email ;;
  ret (orEmpty invitations).

Definition GetEventInvitations `{time.Pkg} (eventID : Z)
  : M (slice InvitationWithDetails.t) :=
  invitations <- Repository.GetInvitationsByEventID eventID ;;
  ret (orEmpty invitations).

(** RespondToInvitation allows a user to accept or decline an
    invitation *)
Definition RespondToInvitation (invitationID : Z) (status userEmail : string)
  : M unit :=
  if negb (status =? "accepted")%string && negb (status =? "declined")%string then
    fail (New "invalid status: must be 'accepted' or 'declined'")
  else
    invitation <- onError (Wrap "invitation not found")
                    (Repository.GetInvitationByID invitationID) ;;
    if negb (Invitation.InviteeEmail invitation =? userEmail)%string then
      fail (New "you are not authorized to respond to this invitation")
    else if negb (Invitation.Status invitation =? "pending")%string then
      fail (New "invitation has already been responded to")
    else
      Repository.UpdateInvitationStatus invitationID status ;;
      (* If accepted, add user to event attendees (if user exists):
         the branch is empty. *)
      (if (status =? "accepted")%string
          && (match Invitation.InviteeID invitation with
              | Some _ => true
              | None => false
              end)
       then ret tt
       else ret tt).

Definition localPart : list (ascii * ascii) :=
  [("a", "z"); ("A", "Z"); ("0", "9"); (".", "."); ("_", "_"); ("%", "%");
   ("+", "+"); ("-", "-")]%char.

Definition domainPart : list (ascii * ascii) :=
  [("a", "z"); ("A", "Z"); ("0", "9"); (".", "."); ("-", "-")]%char.

Definition letters : list (ascii * ascii) := [("a", "z"); ("A", "Z")]%char.

(** [^[a-zA-Z0-9._%+-]+@[a-zA-Z0-9.-]+\.[a-zA-Z]{2,}$] *)
Definition emailRegex : regexp.Regexp :=
  regexp.Concat (regexp.Plus (regexp.CharClass localPart))
    (regexp.Concat (regexp.Literal "@")
       (regexp.Concat (regexp.Plus (regexp.CharClass domainPart))
          (regexp.Concat (regexp.Literal ".")
             (regexp.Repeat 2 (regexp.CharClass letters))))).

Definition isValidEmail `{strings.Pkg} (email : string) : bool :=
  let email := strings.TrimSpace email in
  if (254 <? String.length email)%nat then false
  else regexp.MatchString emailRegex email.

Definition validateSendInvitationRequest `{strings.Pkg}
    (req : SendInvitationRequest.t) : result unit :=
  if SendInvitationRequest.EventID req <=? 0 then
    Err (New "invalid event ID")
  else if (SendInvitationRequest.InviteeEmail req =? "")%string then
    Err (New "invitee email is required")
  else if negb (isValidEmail (SendInvitationRequest.InviteeEmail req)) then
    Err (New "invalid email format")
  else if negb (SendInvitationRequest.Role req =? "attendee")%string
          && negb (SendInvitationRequest.Role req =? "collaborator")%string then
    Err (New "invalid role: must be 'attendee' or 'collaborator'")
  else if (500 <? String.length (SendInvitationRequest.Message req))%nat then
    Err (New "message must not exceed 500 characters")
  else ok.

(** SendInvitation validates and sends an invitation *)
Definition SendInvitation `{strings.Pkg} (req : SendInvitationRequest.t)
    (inviterID : Z) : M Invitation.t :=
  lift (validateSendInvitationRequest req) ;;
  inviteeID <- onError (Wrap "failed to check invitee")
                 (Repository.GetUserIDByEmail
                    (SendInvitationRequest.InviteeEmail req)) ;;
  let invitation :=
    Invitation.mk 0 (SendInvitationRequest.EventID req) inviterID
                  (SendInvitationRequest.InviteeEmail req) inviteeID
                  (SendInvitationRequest.Role req) "pending"
                  (SendInvitationRequest.Message req) time.zeroTime None in
  Repository.SendInvitation invitation.

End Service.

End invitation.

(** ** Package [auth] *)

Module bcrypt.
Class Pkg : Type := {
  GenerateFromPassword : string -> result string;
  CompareHashAndPassword : string -> string -> result unit
}.
End bcrypt.

Module jwt.
(** [jwt.NewWithClaims(jwt.SigningMethodHS256, claims).SignedString(key)]
    for the claims [user_id] and [exp]. *)
Class Pkg : Type := {
  SignedString : Z -> Z -> string -> result string
}.
End jwt.

Module os.
Class Env : Type := { Getenv : string -> string }.
End os.

Module auth.

Module Service.
Import pg sql.

(** generateToken creates a JWT token for the user *)
Definition generateToken `{jwt.Pkg} `{os.Env} (userID : Z) : M string :=
  now <- read clock ;;
  let exp := (now + 7 * 24 * 3600 * 1000000000) / 1000000000 in
  let jwtSecret := os.Getenv "JWT_SECRET" in
  let jwtSecret :=
    if (jwtSecret =? "")%string then "your-secret-key" else jwtSecret in
  lift (jwt.SignedString userID exp jwtSecret).

(** Register creates a new user account *)
Definition Register `{bcrypt.Pkg} `{jwt.Pkg} `{os.Env} (req : RegisterRequest.t)
  : M AuthResponse.t :=
  hashedPassword <- lift (event.Service.wrapResult "failed to hash password"
                            (bcrypt.GenerateFromPassword (RegisterRequest.Password req))) ;;
  u <- onError (Wrap "failed to create user")
         (roundTrip ;;
          id <- nextval users_id_seq set_users_id_seq ;;
          created_at <- now ;;
          rows <- read users ;;
          constraint
            (negb (existsb (fun u => (User.Email u =? RegisterRequest.Email req)%string)
                           rows))
            (UniqueViolation "users_email_key") ;;
          let u := User.mk id (RegisterRequest.Email req) hashedPassword created_at in
          write (fun db => set_users (users db ++ [u])%list db) ;;
          ret u) ;;
  token <- onError (Wrap "failed to generate token") (generateToken (User.ID u)) ;;
  ret (AuthResponse.mk token).

(** Login authenticates a user and returns a token *)
Definition Login `{bcrypt.Pkg} `{jwt.Pkg} `{os.Env} (req : LoginRequest.t)
  : M AuthResponse.t :=
  u <- onError (fun _ => New "invalid email or password")
         (roundTrip ;;
          rows <- read users ;;
          queryRow (filter (fun u => (User.Email u =? LoginRequest.Email req)%string)
                           rows)) ;;
  match bcrypt.CompareHashAndPassword (User.PasswordHash u)
                                      (LoginRequest.Password req) with
  | Err _ => fail (New "invalid email or password")
  | Ok _ =>
      token <- onError (Wrap "failed to generate token") (generateToken (User.ID u)) ;;
      ret (AuthResponse.mk token)
  end.

End Service.

End auth.

(** ** A stand-in environment

    Instances of the library interfaces for running the services on
    concrete stores: the reference [time] implementation, a [bcrypt] whose
    hash is the password behind a marker, a [jwt] that prints its claims,
    and an empty process environment. *)

Module standin.

Definition hashOf (password : string) : string := "$2a$10$" ++ password.

#[export] Instance Time : time.Pkg := time.go.

#[export] Instance Bcrypt : bcrypt.Pkg := {|
  bcrypt.GenerateFromPassword := fun password => Ok (hashOf password);
  bcrypt.CompareHashAndPassword :=
    fun hash password =>
      if (hash =? hashOf password)%string then ok
      else Err (Lib "crypto/bcrypt: hashedPassword is not the hash of the given password")
|}.

#[export] Instance Jwt : jwt.Pkg := {|
  jwt.SignedString :=
    fun user_id exp key =>
      Ok ("user_id=" ++ time.four user_id ++ ";key=" ++ key)
|}.

#[export] Instance Env : os.Env := {| os.Getenv := fun _ => "" |}.

(** [strings.TrimSpace] on text without white space beyond ASCII. *)
Definition isSpace (c : ascii) : bool :=
  existsb (Ascii.eqb c) [" "; "009"; "010"; "011"; "012"; "013"]%char.

Fixpoint trimLeft (s : string) : string :=
  match s with
  | EmptyString => EmptyString
  | String c s' => if isSpace c then trimLeft s' else s
  end.

Fixpoint trimRight (s : string) : string :=
  match s with
  | EmptyString => EmptyString
  | String c s' =>
      match trimRight s' with
      | EmptyString => if isSpace c then EmptyString else String c EmptyString
      | t => String c t
      end
  end.

#[export] Instance Strings : strings.Pkg := {|
  strings.TrimSpace := fun s => trimRight (trimLeft s)
|}.

End standin.

(** ** A sample store

    Alice organizes a party and attends it; Bob has an account. *)

Module example.

Definition alice : User.t := User.mk 1 "alice@example.com" (standin.hashOf "wonderland") 0.
Definition bob : User.t := User.mk 2 "bob@example.com" (standin.hashOf "builder") 0.

(** 2030-01-01 00:00:00 UTC *)
Definition newYear2030 : time.Time := 1893456000000000000.

Definition party : Event.t :=
  Event.mk 1 "Party" "Bring cake" 1924905600000000000 (-62167219200000000000 + 72000000000000)
           "Town hall" 1 0.

Definition db0 : pg.DB :=
  pg.mk [alice; bob] [party]
        [EventAttendee.mk 1 1 1 "organizer" "going" 0] []
        2 1 1 0 newYear2030 [].

Definition moveIt : UpdateEventRequest.t :=
  UpdateEventRequest.mk "" "" "" "" "Village green".

(** A date and a time ten years before the clock of [db0]. *)
Definition backdate : UpdateEventRequest.t :=
  UpdateEventRequest.mk "" "" "2020-01-01" "10:00:00" "".

Definition dateOnly : UpdateEventRequest.t :=
  UpdateEventRequest.mk "" "" "2020-01-01" "" "".

(** An event at the very instant of the clock of [db0]. *)
Definition countdown : CreateEventRequest.t :=
  CreateEventRequest.mk "Countdown" "" "2030-01-01" "00:00:00" "Town hall".

Definition picnic : CreateEventRequest.t :=
  CreateEventRequest.mk "Picnic" "Bring a blanket" "2030-06-15" "12:30:00" "Park".

Definition carol : User.t := User.mk 3 "carol@example.com" (standin.hashOf "singer") 0.

(** [db0] with a third account. *)
Definition db2 : pg.DB :=
  pg.set_users_id_seq 3 (pg.set_users [alice; bob; carol] db0).

(** Alice has invited Bob, who has not answered yet. *)
Definition invite : Invitation.t :=
  Invitation.mk 1 1 1 "bob@example.com" (Some 2) "attendee" "pending"
                "Join us" 0 None.

Definition db1 : pg.DB :=
  pg.set_invitations_id_seq 1 (pg.set_invitations [invite] db0).

End example.

Import standin.

(** ** Well-formed stores

    What the schema maintains: identifiers come from the sequences, primary
    keys and the unique columns do not repeat, and references resolve. *)

Module wf.
Import pg sql.

Fixpoint distinct {A} (eqb : A -> A -> bool) (l : list A) : bool :=
  match l with
  | [] => true
  | x :: l' => negb (existsb (eqb x) l') && distinct eqb l'
  end.

Definition serial (seq id : Z) : bool := (0 <? id) && (id <=? seq).

Definition pairEqb (p q : Z * Z) : bool :=
  (fst p =? fst q) && (snd p =? snd q).

(** [users]: [id SERIAL PRIMARY KEY], [email UNIQUE]. *)
Definition users_ok (db : DB) : bool :=
  (0 <=? users_id_seq db)
  && forallb (fun u => serial (users_id_seq db) (User.ID u)) (users db)
  && distinct Z.eqb (map User.ID (users db))
  && distinct String.eqb (map User.Email (users db)).

(** [events]: [id SERIAL PRIMARY KEY], [organizer_id REFERENCES users]. *)
Definition events_ok (db : DB) : bool :=
  (0 <=? events_id_seq db)
  && forallb (fun e => serial (events_id_seq db) (Event.ID e)) (events db)
  && distinct Z.eqb (map Event.ID (events db))
  && forallb (fun e => hasUser (Event.OrganizerID e) db) (events db).

(** [event_attendees]: [id SERIAL PRIMARY KEY], [UNIQUE(user_id, event_id)],
    the two references and the two checks. *)
Definition attendees_ok (db : DB) : bool :=
  (0 <=? event_attendees_id_seq db)
  && forallb (fun a => serial (event_attendees_id_seq db) (EventAttendee.ID a))
             (event_attendees db)
  && distinct Z.eqb (map EventAttendee.ID (event_attendees db))
  && distinct pairEqb
       (map (fun a => (EventAttendee.UserID a, EventAttendee.EventID a))
            (event_attendees db))
  && forallb (fun a => hasUser (EventAttendee.UserID a) db
                       && hasEvent (EventAttendee.EventID a) db)
             (event_attendees db)
  && forallb (fun a => roleCheck (EventAttendee.Role a)
                       && statusCheck (EventAttendee.Status a))
             (event_attendees db).

(** [invitations]: a serial primary key and the reference to the event. *)
Definition invitations_ok (db : DB) : bool :=
  (0 <=? invitations_id_seq db)
  && forallb (fun i => serial (invitations_id_seq db) (Invitation.ID i))
             (invitations db)
  && distinct Z.eqb (map Invitation.ID (invitations db))
  && forallb (fun i => hasEvent (Invitation.EventID i) db) (invitations db).

Definition check (db : DB) : bool :=
  users_ok db && events_ok db && attendees_ok db && invitations_ok db.

Definition holds (db : DB) : Prop := check db = true.

End wf.

(** ** Readings of the spec *)

(** The date and time of an update that the service lets through at the
    instant [now]: each one given parses under its layout, and when both are
    given their combination parses to an instant that is not before [now]. *)
Definition patchPasses `{time.Pkg} (now : time.Time) (req : UpdateEventRequest.t)
  : Prop :=
  (UpdateEventRequest.Date req <> ""
   -> is_ok (time.Parse "2006-01-02" (UpdateEventRequest.Date req)) = true)
  /\ (UpdateEventRequest.Time req <> ""
      -> is_ok (time.Parse "15:04:05" (UpdateEventRequest.Time req)) = true)
  /\ (UpdateEventRequest.Date req <> "" -> UpdateEventRequest.Time req <> ""
      -> exists t,
           time.Parse "2006-01-02 15:04:05"
             (UpdateEventRequest.Date req ++ " " ++ UpdateEventRequest.Time req) = Ok t
           /\ now <= t).

(** A field of a patch: the empty string keeps what is stored. *)
Definition patched {A} (given : string) (new old : A) : A :=
  if (given =? "")%string then old else new.

(** The rows of [invitations] after the response [status] given at [at_]
    to the invitation [invitationID]. *)
Definition responded (invitationID : Z) (status : string) (at_ : time.Time)
    (rows : list Invitation.t) : list Invitation.t :=
  map (fun i => if Invitation.ID i =? invitationID
                then invitation.respond status at_ i else i) rows.

(** The two answers to an invitation. *)
Definition validResponse (status : string) : Prop :=
  status = "accepted" \/ status = "declined".

(** The roles [InviteUserToEvent] lets through. *)
Definition validRole (role : string) : Prop :=
  role = "attendee" \/ role = "collaborator" \/ role = "organizer".

(** What [CreateEvent] has checked of a request it lets through. *)
Definition requestPassed `{time.Pkg} (now : time.Time) (req : CreateEventRequest.t)
    (eventDate eventTime : time.Time) : Prop :=
  CreateEventRequest.Title req <> ""
  /\ CreateEventRequest.Date req <> ""
  /\ CreateEventRequest.Time req <> ""
  /\ CreateEventRequest.Location req <> ""
  /\ (String.length (CreateEventRequest.Title req) <= 255)%nat
  /\ (String.length (CreateEventRequest.Description req) <= 1000)%nat
  /\ time.Parse "2006-01-02" (CreateEventRequest.Date req) = Ok eventDate
  /\ time.Parse "15:04:05" (CreateEventRequest.Time req) = Ok eventTime
  /\ exists t,
       time.Parse "2006-01-02 15:04:05"
         (CreateEventRequest.Date req ++ " " ++ CreateEventRequest.Time req) = Ok t
       /\ now <= t.

(** A list operation never hands out the nil slice. *)
Definition neverNil {A} (service : M (slice A)) : Prop :=
  forall db s db', service db = (Ok s, db') -> s <> None.

(** Where the repository yields the nil slice, the service yields the empty
    one, and the same store. *)
Definition emptyForNil {A} (repo service : M (slice A)) : Prop :=
  forall db db', repo db = (Ok None, db') -> service db = (Ok (Some []), db').

(** The date and time of an update that lie in the future at the instant
    [now]: as [patchPasses], with the combination after [now]. *)
Definition patchAccepted `{time.Pkg} (now : time.Time) (req : UpdateEventRequest.t)
  : Prop :=
  (UpdateEventRequest.Date req <> ""
   -> is_ok (time.Parse "2006-01-02" (UpdateEventRequest.Date req)) = true)
  /\ (UpdateEventRequest.Time req <> ""
      -> is_ok (time.Parse "15:04:05" (UpdateEventRequest.Time req)) = true)
  /\ (UpdateEventRequest.Date req <> "" -> UpdateEventRequest.Time req <> ""
      -> exists t,
           time.Parse "2006-01-02 15:04:05"
             (UpdateEventRequest.Date req ++ " " ++ UpdateEventRequest.Time req) = Ok t
           /\ now < t).

(** A request for an event in the future at the instant [now]: as
    [requestPassed], with the combination after [now]. *)
Definition requestAccepted `{time.Pkg} (now : time.Time) (req : CreateEventRequest.t)
    (eventDate eventTime : time.Time) : Prop :=
  CreateEventRequest.Title req <> ""
  /\ CreateEventRequest.Date req <> ""
  /\ CreateEventRequest.Time req <> ""
  /\ CreateEventRequest.Location req <> ""
  /\ (String.length (CreateEventRequest.Title req) <= 255)%nat
  /\ (String.length (CreateEventRequest.Description req) <= 1000)%nat
  /\ time.Parse "2006-01-02" (CreateEventRequest.Date req) = Ok eventDate
  /\ time.Parse "15:04:05" (CreateEventRequest.Time req) = Ok eventTime
  /\ exists t,
       time.Parse "2006-01-02 15:04:05"
         (CreateEventRequest.Date req ++ " " ++ CreateEventRequest.Time req) = Ok t
       /\ now < t.

(** A computation that keeps the store well formed, whatever it returns. *)
Definition preserves {A} (m : M A) : Prop :=
  forall db r db', wf.holds db -> m db = (r, db') -> wf.holds db'.

(** Rows in the order of [ORDER BY key DESC]. *)
Definition descending {A} (key : A -> Z) (rows : list A) : Prop :=
  StronglySorted (fun a b => key b <= key a) rows.

(** The rows of [event_attendees] with the status of one user for one
    event set. *)
Definition withStatus (userID eventID : Z) (status : string)
    (rows : list EventAttendee.t) : list EventAttendee.t :=
  map (fun a =>
         if (EventAttendee.UserID a =? userID) && (EventAttendee.EventID a =? eventID)
         then EventAttendee.mk (EventAttendee.ID a) (EventAttendee.UserID a)
                (EventAttendee.EventID a) (EventAttendee.Role a) status
                (EventAttendee.CreatedAt a)
         else a)
      rows.

Definition validStatus (status : string) : Prop :=
  status = "going" \/ status = "maybe" \/ status = "not_going".

(** How often the character occurs in the string. *)
Fixpoint occurrences (c : ascii) (s : string) : nat :=
  match s with
  | EmptyString => O
  | String a s' => ((if Ascii.eqb a c then 1 else 0) + occurrences c s')%nat
  end.

(** An address of the form local@domain.tld: a local part of letters,
    digits and [._%+-], a domain of letters, digits, dots and hyphens, and
    after its last dot two letters or more. *)
Definition emailShape (s : string) : Prop :=
  exists localName domain tld,
    s = localName ++ "@" ++ domain ++ "." ++ tld
    /\ localName <> "" /\ regexp.allIn invitation.Service.localPart localName = true
    /\ domain <> "" /\ regexp.allIn invitation.Service.domainPart domain = true
    /\ (2 <= String.length tld)%nat
    /\ regexp.allIn invitation.Service.letters tld = true.

(** The caller is refused as not being the organizer: the lookup was
    served and the first row with the identifier has another organizer. *)
Definition notTheOrganizer (eventID caller : Z) (db : pg.DB) : Prop :=
  0 < eventID /\ sql.served db = true
  /\ exists ev rest,
       filter (fun e => Event.ID e =? eventID) (pg.events db) = ev :: rest
       /\ Event.OrganizerID ev <> caller.

(** What a listing of invitations holds, for the invitations [keep]
    selects. *)
Definition listsInvitations (keep : Invitation.t -> bool) (db : pg.DB)
    (rows : list InvitationWithDetails.t) : Prop :=
  descending (fun r => Invitation.CreatedAt (InvitationWithDetails.Invitation r)) rows
  /\ (forall r,
        In r rows ->
        In (InvitationWithDetails.Invitation r) (pg.invitations db)
        /\ keep (InvitationWithDetails.Invitation r) = true
        /\ exists e u,
             In e (pg.events db)
             /\ Event.ID e = Invitation.EventID (InvitationWithDetails.Invitation r)
             /\ InvitationWithDetails.EventTitle r = Event.Title e
             /\ InvitationWithDetails.EventLocation r = Event.Location e
             /\ In u (pg.users db)
             /\ User.ID u = Invitation.InviterID (InvitationWithDetails.Invitation r)
             /\ InvitationWithDetails.InviterEmail r = User.Email u)
  /\ (forall i e u,
        In i (pg.invitations db) -> keep i = true ->
        In e (pg.events db) -> Event.ID e = Invitation.EventID i ->
        In u (pg.users db) -> User.ID u = Invitation.InviterID i ->
        exists r,
          In r rows /\ InvitationWithDetails.Invitation r = i
          /\ InvitationWithDetails.EventTitle r = Event.Title e
          /\ InvitationWithDetails.InviterEmail r = User.Email u).

(** * Properties *)

(** ** The reference [time] implementation on sample values *)

Example goParse_date :
  time.goParse "2006-01-02" "1970-01-02" = Ok 86400000000000.
Proof. reflexivity. Qed.

Example goParse_clock_fraction :
  time.goParse "15:04:05" "9:30:00.5" = Ok (time.Date (time.mkFields 0 1 1 9 30 0 500000000)).
Proof. reflexivity. Qed.

Example goParse_leap_day :
  time.goParse "2006-01-02" "2024-02-29" = Ok (19782 * 86400 * 1000000000)
  /\ is_ok (time.goParse "2006-01-02" "2025-02-29") = false.
Proof. split; reflexivity. Qed.

Example goFormat_round_trip :
  time.goFormat "2006-01-02 15:04:05" 1893456000000000000 = "2030-01-01 00:00:00"
  /\ time.goParse "2006-01-02 15:04:05" "2030-01-01 00:00:00" = Ok 1893456000000000000.
Proof. split; reflexivity. Qed.

(** ** The store primitives *)

Section Primitives.
Import pg sql.

Lemma roundTrip_eq db :
  roundTrip db = (if served db then Ok tt else Err (Pg ConnFailure), trip db).
Proof. unfold roundTrip. destruct (served db); reflexivity. Qed.

Lemma trip_no_faults db : faults db = [] -> trip db = db.
Proof. destruct db; simpl; intros ->; reflexivity. Qed.

Lemma served_no_faults db : faults db = [] -> served db = true.
Proof. unfold served; intros ->; reflexivity. Qed.

Lemma same_tables_refl db : same_tables db db.
Proof. repeat split. Qed.

Lemma same_tables_trip db : same_tables db (trip db).
Proof. repeat split. Qed.

Lemma same_tables_trans a b c :
  same_tables a b -> same_tables b c -> same_tables a c.
Proof.
  unfold same_tables; intros (-> & -> & -> & ->) (-> & -> & -> & ->).
  repeat split.
Qed.

Lemma filter_head_In {A} (f : A -> bool) l r rest :
  filter f l = r :: rest -> In r l /\ f r = true.
Proof.
  intros E. apply filter_In. rewrite E. left; reflexivity.
Qed.

Lemma existsb_filter_nil {A} (f : A -> bool) l :
  existsb f l = false <-> filter f l = [].
Proof.
  induction l as [|x l IH]; simpl; [tauto|].
  destruct (f x); simpl; [split; discriminate | exact IH].
Qed.

End Primitives.

Section Acceptance.
Context `{time.Pkg}.

Lemma patchAccepted_passes now req : patchAccepted now req -> patchPasses now req.
Proof.
  intros (D & T & B). split; [exact D|]. split; [exact T|].
  intros ND NT. destruct (B ND NT) as (t & P & L). exists t. split; [exact P|lia].
Qed.

Lemma requestAccepted_passed now req eventDate eventTime :
  requestAccepted now req eventDate eventTime ->
  requestPassed now req eventDate eventTime.
Proof.
  unfold requestAccepted, requestPassed.
  intros (T & D & Tm & L & LT & LD & PD & PT & t & PB & Fut).
  repeat (split; [assumption|]). exists t. split; [exact PB|lia].
Qed.

End Acceptance.

Section EventFacts.
Import pg sql event.
Context `{time.Pkg}.

(** [GetEventByID] in one step. *)
Lemma GetEventByID_eq eventID db :
  Repository.GetEventByID eventID db =
    (if served db then
       match filter (fun e => Event.ID e =? eventID) (events db) with
       | r :: _ => Ok r
       | [] => Err (Wrap "failed to get event" (Pg ErrNoRows))
       end
     else Err (Wrap "failed to get event" (Pg ConnFailure)),
     trip db).
Proof.
  unfold Repository.GetEventByID, onError, bind, read, queryRow.
  rewrite roundTrip_eq.
  destruct (served db); [|reflexivity].
  change (events (trip db)) with (events db).
  destruct (filter _ (events db)); reflexivity.
Qed.

Lemma GetEventByID_Ok eventID db ev db1 :
  Repository.GetEventByID eventID db = (Ok ev, db1) ->
  served db = true /\ db1 = trip db
  /\ In ev (events db) /\ Event.ID ev = eventID
  /\ exists rest, filter (fun e => Event.ID e =? eventID) (events db) = ev :: rest.
Proof.
  rewrite GetEventByID_eq. destruct (served db); [|discriminate].
  destruct (filter _ (events db)) as [|r rest] eqn:F; [discriminate|].
  intros E; injection E as -> <-.
  destruct (filter_head_In _ _ _ _ F) as [I K].
  apply Z.eqb_eq in K. repeat split; eauto.
Qed.

Lemma GetEventByID_no_faults eventID db ev db1 :
  faults db = [] ->
  Repository.GetEventByID eventID db = (Ok ev, db1) -> db1 = db.
Proof.
  intros F G. apply GetEventByID_Ok in G as (_ & -> & _).
  apply trip_no_faults; assumption.
Qed.

End EventFacts.

Section WellFormed.
Import pg sql.

Lemma existsb_key_filter {A} (key : A -> Z) (k : Z) (l : list A) :
  existsb (Z.eqb k) (map key l) = false ->
  filter (fun y => key y =? k) l = [].
Proof.
  induction l as [|y l IH]; simpl; [reflexivity|].
  rewrite orb_false_iff, (Z.eqb_sym k). intros [-> E]. auto.
Qed.

Lemma distinct_filter_one {A} (key : A -> Z) (l : list A) (x : A) :
  wf.distinct Z.eqb (map key l) = true -> In x l ->
  filter (fun y => key y =? key x) l = [x].
Proof.
  induction l as [|y l IH]; simpl; [tauto|].
  rewrite andb_true_iff, negb_true_iff. intros [N D] [->|I].
  - rewrite Z.eqb_refl, (existsb_key_filter _ _ _ N). reflexivity.
  - destruct (key y =? key x) eqn:E; [|auto].
    apply Z.eqb_eq in E. exfalso.
    assert (existsb (Z.eqb (key y)) (map key l) = true); [|congruence].
    apply existsb_exists. exists (key x). split; [apply in_map; exact I|].
    apply Z.eqb_eq; exact E.
Qed.

(** The conjuncts of [wf.check], one table at a time. *)
Lemma wf_tables db :
  wf.holds db <->
  wf.users_ok db = true /\ wf.events_ok db = true
  /\ wf.attendees_ok db = true /\ wf.invitations_ok db = true.
Proof. unfold wf.holds, wf.check. rewrite !andb_true_iff. tauto. Qed.

Lemma wf_users db :
  wf.holds db ->
  0 <= users_id_seq db
  /\ (forall u, In u (users db) -> 0 < User.ID u <= users_id_seq db)
  /\ wf.distinct Z.eqb (map User.ID (users db)) = true
  /\ wf.distinct String.eqb (map User.Email (users db)) = true.
Proof.
  intros W. apply wf_tables in W. destruct W as (U & _).
  unfold wf.users_ok in U. rewrite !andb_true_iff, forallb_forall in U.
  destruct U as (((S & F) & D) & E). apply Z.leb_le in S.
  split; [exact S|]. split; [|split; assumption].
  intros u I. specialize (F _ I). unfold wf.serial in F.
  rewrite andb_true_iff in F. lia.
Qed.

Lemma wf_events db :
  wf.holds db ->
  0 <= events_id_seq db
  /\ (forall e, In e (events db) -> 0 < Event.ID e <= events_id_seq db)
  /\ wf.distinct Z.eqb (map Event.ID (events db)) = true
  /\ (forall e, In e (events db) -> hasUser (Event.OrganizerID e) db = true).
Proof.
  intros W. apply wf_tables in W. destruct W as (_ & E & _).
  unfold wf.events_ok in E. rewrite !andb_true_iff, !forallb_forall in E.
  destruct E as (((S & F) & D) & R). apply Z.leb_le in S.
  split; [exact S|]. split; [|split; assumption].
  intros e I. specialize (F _ I). unfold wf.serial in F.
  rewrite andb_true_iff in F. lia.
Qed.

Lemma wf_attendees db :
  wf.holds db ->
  0 <= event_attendees_id_seq db
  /\ (forall a, In a (event_attendees db) ->
        0 < EventAttendee.ID a <= event_attendees_id_seq db
        /\ hasUser (EventAttendee.UserID a) db = true
        /\ hasEvent (EventAttendee.EventID a) db = true
        /\ roleCheck (EventAttendee.Role a) = true
        /\ statusCheck (EventAttendee.Status a) = true)
  /\ wf.distinct Z.eqb (map EventAttendee.ID (event_attendees db)) = true
  /\ wf.distinct wf.pairEqb
        (map (fun a => (EventAttendee.UserID a, EventAttendee.EventID a))
             (event_attendees db)) = true.
Proof.
  intros W. apply wf_tables in W. destruct W as (_ & _ & A & _).
  unfold wf.attendees_ok in A. rewrite !andb_true_iff, !forallb_forall in A.
  destruct A as (((((S & F) & D) & P) & R) & C). apply Z.leb_le in S.
  split; [exact S|]. split; [|split; assumption].
  intros a I. specialize (F _ I). specialize (R _ I). specialize (C _ I).
  unfold wf.serial in F. rewrite andb_true_iff in F, R, C.
  repeat split; try tauto; lia.
Qed.

Lemma wf_invitations db :
  wf.holds db ->
  0 <= invitations_id_seq db
  /\ (forall i, In i (invitations db) ->
        0 < Invitation.ID i <= invitations_id_seq db
        /\ hasEvent (Invitation.EventID i) db = true)
  /\ wf.distinct Z.eqb (map Invitation.ID (invitations db)) = true.
Proof.
  intros W. apply wf_tables in W. destruct W as (_ & _ & _ & V).
  unfold wf.invitations_ok in V. rewrite !andb_true_iff, !forallb_forall in V.
  destruct V as (((S & F) & D) & R). apply Z.leb_le in S.
  split; [exact S|]. split; [|exact D].
  intros i I. specialize (F _ I). specialize (R _ I).
  unfold wf.serial in F. rewrite andb_true_iff in F. split; [lia|exact R].
Qed.

Lemma wf_event_serial db e :
  wf.holds db -> In e (events db) -> 0 < Event.ID e <= events_id_seq db.
Proof. intros W I. apply (wf_events db W); exact I. Qed.

Lemma wf_event_key db :
  wf.holds db -> wf.distinct Z.eqb (map Event.ID (events db)) = true.
Proof. intros W. apply (wf_events db W). Qed.

Lemma wf_invitation_key db :
  wf.holds db -> wf.distinct Z.eqb (map Invitation.ID (invitations db)) = true.
Proof. intros W. apply (wf_invitations db W). Qed.

Lemma wf_attendee_event db a :
  wf.holds db -> In a (event_attendees db) ->
  hasEvent (EventAttendee.EventID a) db = true.
Proof. intros W I. apply (wf_attendees db W); exact I. Qed.

Lemma hasEvent_In id db :
  hasEvent id db = true <-> exists e, In e (events db) /\ Event.ID e = id.
Proof.
  unfold hasEvent. rewrite existsb_exists.
  split; intros (e & I & E); exists e; split; auto; apply Z.eqb_eq; exact E.
Qed.

Lemma hasUser_In id db :
  hasUser id db = true <-> exists u, In u (users db) /\ User.ID u = id.
Proof.
  unfold hasUser. rewrite existsb_exists.
  split; intros (e & I & E); exists e; split; auto; apply Z.eqb_eq; exact E.
Qed.

Lemma wf_empty now : wf.holds (pg.empty now).
Proof. reflexivity. Qed.

End WellFormed.

Section Ownership.
Import pg sql event.
Context `{time.Pkg}.

Lemma applyUpdates_Ok_inv req ev cur :
  Repository.applyUpdates req ev = Ok cur ->
  Event.ID cur = Event.ID ev
  /\ Event.OrganizerID cur = Event.OrganizerID ev
  /\ Event.CreatedAt cur = Event.CreatedAt ev
  /\ Event.Title cur
     = patched (UpdateEventRequest.Title req) (UpdateEventRequest.Title req) (Event.Title ev)
  /\ Event.Description cur
     = patched (UpdateEventRequest.Description req)
               (UpdateEventRequest.Description req) (Event.Description ev)
  /\ Event.Location cur
     = patched (UpdateEventRequest.Location req)
               (UpdateEventRequest.Location req) (Event.Location ev)
  /\ (if (UpdateEventRequest.Date req =? "")%string
      then Event.Date cur = Event.Date ev
      else time.Parse "2006-01-02" (UpdateEventRequest.Date req) = Ok (Event.Date cur))
  /\ (if (UpdateEventRequest.Time req =? "")%string
      then Event.Time cur = Event.Time ev
      else time.Parse "15:04:05" (UpdateEventRequest.Time req) = Ok (Event.Time cur)).
Proof.
  unfold Repository.applyUpdates, patched.
  destruct (UpdateEventRequest.Title req =? "")%string,
           (UpdateEventRequest.Description req =? "")%string,
           (UpdateEventRequest.Location req =? "")%string,
           (UpdateEventRequest.Date req =? "")%string,
           (UpdateEventRequest.Time req =? "")%string; simpl;
    repeat match goal with
           | |- context [time.Parse ?l ?v] => destruct (time.Parse l v) eqn:?; simpl
           end;
    intros E; try discriminate; injection E as <-; simpl; repeat split; reflexivity.
Qed.

Lemma applyUpdates_total req ev :
  (UpdateEventRequest.Date req <> ""
   -> is_ok (time.Parse "2006-01-02" (UpdateEventRequest.Date req)) = true) ->
  (UpdateEventRequest.Time req <> ""
   -> is_ok (time.Parse "15:04:05" (UpdateEventRequest.Time req)) = true) ->
  exists cur, Repository.applyUpdates req ev = Ok cur.
Proof.
  intros D T. unfold Repository.applyUpdates.
  destruct (String.eqb_spec (UpdateEventRequest.Date req) "") as [_|ND];
    destruct (String.eqb_spec (UpdateEventRequest.Time req) "") as [_|NT]; simpl;
    try (specialize (D ND)); try (specialize (T NT));
    repeat match goal with
           | P : is_ok (time.Parse ?l ?v) = true |- _ =>
               destruct (time.Parse l v); [clear P | discriminate P]
           end;
    simpl; eauto.
Qed.

Lemma filter_map_key {A} (key : A -> Z) (k : Z) (f : A -> A) (l : list A) :
  (forall x, key (f x) = key x) ->
  filter (fun x => key x =? k) (map f l) = map f (filter (fun x => key x =? k) l).
Proof.
  intros K. induction l as [|x l IH]; simpl; [reflexivity|].
  rewrite K. destruct (key x =? k); simpl; congruence.
Qed.

(** [Repository.UpdateEvent] on a store that serves every round trip. *)
Lemma Repository_UpdateEvent_eq eventID req db ev rest cur :
  faults db = [] ->
  filter (fun e => Event.ID e =? eventID) (events db) = ev :: rest ->
  Repository.applyUpdates req ev = Ok cur ->
  Repository.UpdateEvent eventID req db =
    (Ok (Repository.setColumns cur ev),
     set_events
       (map (fun e => if Event.ID e =? eventID
                      then Repository.setColumns cur e else e)
            (events db))
       db).
Proof.
  intros F L A. unfold Repository.UpdateEvent, bind.
  rewrite GetEventByID_eq, (served_no_faults _ F), (trip_no_faults _ F), L.
  unfold lift. rewrite A.
  unfold onError, bind, write, read, queryRow. rewrite roundTrip_eq.
  rewrite (served_no_faults _ F), (trip_no_faults _ F).
  cbn [events set_events].
  rewrite (filter_map_key Event.ID eventID
             (fun e => if Event.ID e =? eventID then Repository.setColumns cur e else e)).
  - rewrite L. simpl.
    destruct (filter_head_In _ _ _ _ L) as [_ ->]. reflexivity.
  - intros x. destruct (Event.ID x =? eventID); reflexivity.
Qed.

Lemma Repository_DeleteEvent_eq eventID db ev rest :
  faults db = [] ->
  filter (fun e => Event.ID e =? eventID) (events db) = ev :: rest ->
  Repository.DeleteEvent eventID db =
    (Ok tt,
     set_invitations
       (filter (fun i => negb (Invitation.EventID i =? eventID)) (invitations db))
       (set_event_attendees
          (filter (fun a => negb (EventAttendee.EventID a =? eventID))
                  (event_attendees db))
          (set_events
             (filter (fun e => negb (Event.ID e =? eventID)) (events db)) db))).
Proof.
  intros F L. unfold Repository.DeleteEvent, bind, onError, write, read, ret.
  rewrite roundTrip_eq, (served_no_faults _ F), (trip_no_faults _ F), L.
  reflexivity.
Qed.

Lemma existsb_filter_negb {A} (f : A -> bool) l :
  existsb f (filter (fun x => negb (f x)) l) = false.
Proof.
  induction l as [|x l IH]; simpl; [reflexivity|].
  destruct (f x) eqn:E; simpl; [|rewrite E]; exact IH.
Qed.

End Ownership.

Section Updating.
Import pg sql event.
Context `{time.Pkg}.

(** The organizer's update on a store that serves every round trip: the
    patch is let through exactly when [patchPasses] holds, and what is
    refused is not refused for lack of authorization. *)
Lemma UpdateEvent_by_organizer eventID req db ev rest :
  0 < eventID ->
  faults db = [] ->
  filter (fun e => Event.ID e =? eventID) (events db) = ev :: rest ->
  (patchPasses (clock db) req
   /\ exists cur,
        Repository.applyUpdates req ev = Ok cur
        /\ Service.UpdateEvent eventID req (Event.OrganizerID ev) db
           = Repository.UpdateEvent eventID req db)
  \/ (~ patchPasses (clock db) req
      /\ exists e,
           Service.UpdateEvent eventID req (Event.OrganizerID ev) db = (Err e, db)
           /\ e <> New "you are not authorized to update this event").
Proof.
  intros P F L. unfold Service.UpdateEvent.
  replace (eventID <=? 0) with false by (symmetry; apply Z.leb_gt; exact P).
  unfold bind.
  rewrite GetEventByID_eq, (served_no_faults _ F), (trip_no_faults _ F), L.
  rewrite Z.eqb_refl. cbn [negb].
  unfold patchPasses.
  destruct (String.eqb_spec (UpdateEventRequest.Date req) "") as [ED|ND];
    destruct (String.eqb_spec (UpdateEventRequest.Time req) "") as [ET|NT];
    cbn [negb andb].
  - (* neither date nor time *)
    left. split; [repeat split; intros; try contradiction|].
    destruct (applyUpdates_total req ev) as [cur A]; try (intros; contradiction).
    exists cur; split; [exact A|reflexivity].
  - (* time only *)
    unfold bind, lift, Service.validateTimeFormat.
    destruct (time.Parse "15:04:05" (UpdateEventRequest.Time req)) eqn:PT.
    + left. split; [repeat split; intros; try contradiction; reflexivity|].
      destruct (applyUpdates_total req ev) as [cur A];
        try (intros; contradiction); [rewrite PT; reflexivity|].
      exists cur; split; [exact A|reflexivity].
    + right. split; [intros (_ & T & _); specialize (T NT); discriminate T|].
      eexists; split; [reflexivity|discriminate].
  - (* date only *)
    unfold bind, lift, Service.validateDateFormat.
    destruct (time.Parse "2006-01-02" (UpdateEventRequest.Date req)) eqn:PD.
    + left. split; [repeat split; intros; try contradiction; reflexivity|].
      destruct (applyUpdates_total req ev) as [cur A];
        try (intros; contradiction); [rewrite PD; reflexivity|].
      exists cur; split; [exact A|reflexivity].
    + right. split; [intros (D & _); specialize (D ND); discriminate D|].
      eexists; split; [reflexivity|discriminate].
  - (* both *)
    unfold bind, lift, Service.validateDateTime, Service.validateDateFormat,
      Service.validateTimeFormat, Service.validateFutureEvent.
    destruct (time.Parse "2006-01-02" (UpdateEventRequest.Date req)) eqn:PD;
      [|right; split; [intros (D & _); specialize (D ND); discriminate D|
                       eexists; split; [reflexivity|discriminate]]].
    destruct (time.Parse "15:04:05" (UpdateEventRequest.Time req)) eqn:PT;
      [|right; split; [intros (_ & T & _); specialize (T NT); discriminate T|
                       eexists; split; [reflexivity|discriminate]]].
    cbn [ok].
    destruct (time.Parse "2006-01-02 15:04:05" _) as [t|] eqn:PB;
      [|right; split; [intros (_ & _ & B); destruct (B ND NT) as (t & E & _);
                       discriminate E|
                       eexists; split; [reflexivity|discriminate]]].
    unfold bind, Service.Now, read, time.Before. cbn [clock].
    destruct (Z.ltb_spec t (clock db)) as [Lt|Ge].
    + right. split; [intros (_ & _ & B); destruct (B ND NT) as (t' & E & Le);
                     injection E as <-; lia|].
      eexists; split; [reflexivity|discriminate].
    + left. split; [repeat split; intros; try reflexivity; eauto|].
      destruct (applyUpdates_total req ev) as [cur A];
        [rewrite PD; reflexivity|rewrite PT; reflexivity|].
      exists cur; split; [exact A|reflexivity].
Qed.

End Updating.

Section Claim1.
Import pg sql event.
Context `{time.Pkg}.

(** C1. An event the store holds is updated and deleted by its organizer
    only: called by anyone else, [UpdateEvent] and [DeleteEvent] return
    "you are not authorized to update/delete this event" and leave the
    tables as they were; called by the organizer on a store that serves
    its round trips, [DeleteEvent] succeeds and the event is gone, and
    [UpdateEvent] never answers with the authorization error and succeeds
    for every patch whose date and time parse and, given together, lie
    after the current time, storing the event it returns. *)
Theorem only_the_organizer_updates_and_deletes
    db eventID ev db1 caller req :
  wf.holds db ->
  Repository.GetEventByID eventID db = (Ok ev, db1) ->
  (Event.OrganizerID ev <> caller ->
     Service.UpdateEvent eventID req caller db
     = (Err (New "you are not authorized to update this event"), db1)
     /\ Service.DeleteEvent eventID caller db
        = (Err (New "you are not authorized to delete this event"), db1)
     /\ same_tables db db1)
  /\ (Event.OrganizerID ev = caller ->
      faults db = [] ->
      (fst (Service.UpdateEvent eventID req caller db)
       <> Err (New "you are not authorized to update this event"))
      /\ (patchAccepted (clock db) req ->
          exists ev' db',
            Service.UpdateEvent eventID req caller db = (Ok ev', db')
            /\ In ev' (events db'))
      /\ (exists db',
            Service.DeleteEvent eventID caller db = (Ok tt, db')
            /\ hasEvent eventID db' = false)).
Proof.
  intros W G.
  destruct (GetEventByID_Ok _ _ _ _ G) as (S & -> & I & E & rest & L).
  assert (P : 0 < eventID) by (rewrite <- E; apply (wf_event_serial _ _ W I)).
  assert (P' : (eventID <=? 0) = false) by (apply Z.leb_gt; exact P).
  split.
  - intros N. apply Z.eqb_neq in N.
    unfold Service.UpdateEvent, Service.DeleteEvent, bind.
    rewrite P', G, N. repeat split.
  - intros <- F. split; [|split].
    + destruct (UpdateEvent_by_organizer _ req _ _ _ P F L)
        as [(_ & cur & A & ->) | (_ & e & -> & N)].
      * rewrite (Repository_UpdateEvent_eq _ _ _ _ _ _ F L A). discriminate.
      * simpl. congruence.
    + intros Acc. apply patchAccepted_passes in Acc.
      destruct (UpdateEvent_by_organizer _ req _ _ _ P F L)
        as [(_ & cur & A & ->) | (N & _)]; [|contradiction].
      rewrite (Repository_UpdateEvent_eq _ _ _ _ _ _ F L A).
      do 2 eexists; split; [reflexivity|].
      cbn [events set_events].
      apply in_map_iff. exists ev. split; [|exact I].
      rewrite E, Z.eqb_refl. reflexivity.
    + unfold Service.DeleteEvent, bind.
      rewrite P', G, Z.eqb_refl. cbn [negb].
      rewrite (trip_no_faults _ F), (Repository_DeleteEvent_eq _ _ _ _ F L).
      eexists; split; [reflexivity|].
      unfold hasEvent. cbn [events set_events set_event_attendees set_invitations].
      apply (existsb_filter_negb (fun e => Event.ID e =? eventID)).
Qed.

End Claim1.


Lemma only_the_organizer_updates_and_deletes_witness :
  event.Service.UpdateEvent 1 example.moveIt 2 example.db0
  = (Err (New "you are not authorized to update this event"), example.db0)
  /\ event.Service.DeleteEvent 1 2 example.db0
     = (Err (New "you are not authorized to delete this event"), example.db0)
  /\ (exists ev' db',
        event.Service.UpdateEvent 1 example.moveIt 1 example.db0 = (Ok ev', db')
        /\ In ev' (pg.events db'))
  /\ (exists db',
        event.Service.DeleteEvent 1 1 example.db0 = (Ok tt, db')
        /\ sql.hasEvent 1 db' = false).
Proof.
  assert (W : wf.holds example.db0) by reflexivity.
  assert (G : event.Repository.GetEventByID 1 example.db0 = (Ok example.party, example.db0))
    by reflexivity.
  destruct (only_the_organizer_updates_and_deletes _ _ _ _ 2 example.moveIt W G)
    as [Other _].
  destruct (only_the_organizer_updates_and_deletes _ _ _ _ 1 example.moveIt W G)
    as [_ Own].
  destruct (Other ltac:(discriminate)) as (U & D & _).
  destruct (Own eq_refl eq_refl) as (_ & U' & D').
  split; [exact U|]. split; [exact D|]. split; [|exact D'].
  apply U'. repeat split; intros N; try (exfalso; apply N; reflexivity).
Defined.

Section InvitationFacts.
Import pg sql invitation.

Lemma GetInvitationByID_eq invitationID db :
  Repository.GetInvitationByID invitationID db =
    (if served db then
       match filter (fun i => Invitation.ID i =? invitationID) (invitations db) with
       | r :: _ => Ok r
       | [] => Err (Wrap "failed to get invitation" (Pg ErrNoRows))
       end
     else Err (Wrap "failed to get invitation" (Pg ConnFailure)),
     trip db).
Proof.
  unfold Repository.GetInvitationByID, onError, bind, read, queryRow.
  rewrite roundTrip_eq.
  destruct (served db); [|reflexivity].
  change (invitations (trip db)) with (invitations db).
  destruct (filter _ (invitations db)); reflexivity.
Qed.

Lemma GetInvitationByID_Ok invitationID db inv db1 :
  Repository.GetInvitationByID invitationID db = (Ok inv, db1) ->
  served db = true /\ db1 = trip db
  /\ exists rest,
       filter (fun i => Invitation.ID i =? invitationID) (invitations db) = inv :: rest.
Proof.
  rewrite GetInvitationByID_eq. destruct (served db); [|discriminate].
  destruct (filter _ (invitations db)) as [|r rest] eqn:F; [discriminate|].
  intros E; injection E as -> <-. eauto.
Qed.

Lemma UpdateInvitationStatus_eq invitationID status db :
  Repository.UpdateInvitationStatus invitationID status db =
    if served db
    then (Ok tt,
          set_invitations
            (responded invitationID status (clock db) (invitations db)) (trip db))
    else (Err (Wrap "failed to update invitation status" (Pg ConnFailure)), trip db).
Proof.
  unfold Repository.UpdateInvitationStatus, onError, bind, read, write.
  rewrite roundTrip_eq. destruct (served db); reflexivity.
Qed.

Lemma filter_responded invitationID status at_ rows :
  filter (fun i => Invitation.ID i =? invitationID)
         (responded invitationID status at_ rows)
  = map (respond status at_)
        (filter (fun i => Invitation.ID i =? invitationID) rows).
Proof.
  induction rows as [|i rows IH]; simpl; [reflexivity|].
  destruct (Invitation.ID i =? invitationID) eqn:E; simpl.
  - rewrite E. simpl. f_equal. exact IH.
  - rewrite E. exact IH.
Qed.

Lemma validResponse_test status :
  negb (status =? "accepted")%string && negb (status =? "declined")%string = false
  <-> validResponse status.
Proof.
  unfold validResponse.
  destruct (String.eqb_spec status "accepted"), (String.eqb_spec status "declined");
    simpl; intuition congruence.
Qed.

Lemma validResponse_not_pending status : validResponse status -> status <> "pending".
Proof. intros [-> | ->]; discriminate. Qed.

(** [RespondToInvitation] once the invitation has been found. *)
Lemma RespondToInvitation_found invitationID status userEmail db inv db1 :
  Repository.GetInvitationByID invitationID db = (Ok inv, db1) ->
  Service.RespondToInvitation invitationID status userEmail db =
    if negb (status =? "accepted")%string && negb (status =? "declined")%string then
      (Err (New "invalid status: must be 'accepted' or 'declined'"), db)
    else if negb (Invitation.InviteeEmail inv =? userEmail)%string then
      (Err (New "you are not authorized to respond to this invitation"), db1)
    else if negb (Invitation.Status inv =? "pending")%string then
      (Err (New "invitation has already been responded to"), db1)
    else Repository.UpdateInvitationStatus invitationID status db1.
Proof.
  intros G. unfold Service.RespondToInvitation.
  destruct (negb (status =? "accepted")%string && negb (status =? "declined")%string);
    [reflexivity|].
  unfold bind, onError. rewrite G.
  destruct (negb (Invitation.InviteeEmail inv =? userEmail)%string); [reflexivity|].
  destruct (negb (Invitation.Status inv =? "pending")%string); [reflexivity|].
  destruct (Repository.UpdateInvitationStatus invitationID status db1) as [[[]|e] db2];
    [|reflexivity].
  destruct ((status =? "accepted")%string && _); reflexivity.
Qed.

(** A call never answers [Ok] without the invitation having been found. *)
Lemma RespondToInvitation_Ok_found invitationID status userEmail db db' :
  Service.RespondToInvitation invitationID status userEmail db = (Ok tt, db') ->
  exists inv, Repository.GetInvitationByID invitationID db = (Ok inv, trip db).
Proof.
  unfold Service.RespondToInvitation.
  destruct (negb (status =? "accepted")%string && negb (status =? "declined")%string);
    [discriminate|].
  unfold bind, onError.
  rewrite GetInvitationByID_eq.
  destruct (served db); [|discriminate].
  destruct (filter _ (invitations db)) as [|inv rest]; [discriminate|].
  eauto.
Qed.

End InvitationFacts.

Section Claim2.
Import pg sql invitation.

Lemma RespondToInvitation_again invitationID status at_ db inv rest status2 userEmail2 :
  validResponse status ->
  filter (fun i => Invitation.ID i =? invitationID) (invitations db) = inv :: rest ->
  forall db',
    invitations db' = responded invitationID status at_ (invitations db) ->
    exists e db2,
      Service.RespondToInvitation invitationID status2 userEmail2 db' = (Err e, db2)
      /\ same_tables db' db2
      /\ (served db' = true -> validResponse status2 ->
          userEmail2 = Invitation.InviteeEmail inv ->
          e = New "invitation has already been responded to").
Proof.
  intros V L db' R.
  destruct (served db') eqn:S.
  - assert (G : Repository.GetInvitationByID invitationID db'
                = (Ok (respond status at_ inv), trip db')).
    { rewrite GetInvitationByID_eq, S, R, filter_responded, L. reflexivity. }
    rewrite (RespondToInvitation_found _ _ _ _ _ _ G).
    destruct (negb (status2 =? "accepted")%string && negb (status2 =? "declined")%string)
      eqn:T.
    { do 2 eexists; split; [reflexivity|]. split; [apply same_tables_refl|].
      intros _ V2. apply validResponse_test in V2. congruence. }
    cbn [Invitation.InviteeEmail Invitation.Status respond].
    destruct (String.eqb_spec (Invitation.InviteeEmail inv) userEmail2) as [E|N];
      cbn [negb].
    + destruct (String.eqb_spec status "pending") as [P|_];
        [exfalso; exact (validResponse_not_pending _ V P)|].
      cbn [negb]. do 2 eexists; split; [reflexivity|].
      split; [apply same_tables_trip|]. reflexivity.
    + do 2 eexists; split; [reflexivity|]. split; [apply same_tables_trip|].
      intros _ _ E. congruence.
  - unfold Service.RespondToInvitation.
    destruct (negb (status2 =? "accepted")%string && negb (status2 =? "declined")%string).
    { do 2 eexists; split; [reflexivity|]. split; [apply same_tables_refl|].
      discriminate. }
    unfold bind, onError. rewrite GetInvitationByID_eq, S.
    do 2 eexists; split; [reflexivity|]. split; [apply same_tables_trip|].
    discriminate.
Qed.

(** C2. An invitation is answered once, and only while it is pending.
    For an invitation the store holds: while its status is not 'pending'
    [RespondToInvitation] fails whatever is asked, with "invitation has
    already been responded to" when the status asked for is valid and the
    caller is the invitee, and it changes no table; when it succeeds, the
    invitation was pending, the new status is 'accepted' or 'declined',
    the rows with that identifier got this status and the current time as
    responded-at, the other tables (the attendees among them) are as
    before, and every later call for the same invitation fails; and it
    does succeed for the invitee of a pending invitation when the store
    serves the update. *)
Theorem respond_only_while_pending invitationID status userEmail db inv db1 :
  Repository.GetInvitationByID invitationID db = (Ok inv, db1) ->
  (Invitation.Status inv <> "pending" ->
     (exists e db2,
        Service.RespondToInvitation invitationID status userEmail db = (Err e, db2)
        /\ same_tables db db2)
     /\ (validResponse status -> Invitation.InviteeEmail inv = userEmail ->
         Service.RespondToInvitation invitationID status userEmail db
         = (Err (New "invitation has already been responded to"), db1)))
  /\ (forall db',
        Service.RespondToInvitation invitationID status userEmail db = (Ok tt, db') ->
        Invitation.Status inv = "pending"
        /\ Invitation.InviteeEmail inv = userEmail
        /\ validResponse status
        /\ invitations db' = responded invitationID status (clock db) (invitations db)
        /\ In (respond status (clock db) inv) (invitations db')
        /\ users db' = users db
        /\ events db' = events db
        /\ event_attendees db' = event_attendees db
        /\ forall status2 userEmail2,
             exists e db2,
               Service.RespondToInvitation invitationID status2 userEmail2 db'
               = (Err e, db2)
               /\ same_tables db' db2
               /\ (served db' = true -> validResponse status2 ->
                   userEmail2 = userEmail ->
                   e = New "invitation has already been responded to"))
  /\ (Invitation.Status inv = "pending" ->
      Invitation.InviteeEmail inv = userEmail ->
      validResponse status ->
      served db1 = true ->
      exists db',
        Service.RespondToInvitation invitationID status userEmail db = (Ok tt, db')).
Proof.
  intros G. rewrite (RespondToInvitation_found _ status userEmail _ _ _ G).
  destruct (GetInvitationByID_Ok _ _ _ _ G) as (S & -> & rest & L).
  split; [|split].
  - intros NP. apply String.eqb_neq in NP. rewrite NP. cbn [negb]. split.
    + destruct (negb (status =? "accepted")%string && negb (status =? "declined")%string).
      { do 2 eexists; split; [reflexivity|apply same_tables_refl]. }
      destruct (negb (Invitation.InviteeEmail inv =? userEmail)%string);
        do 2 eexists; (split; [reflexivity|apply same_tables_trip]).
    + intros V E. apply validResponse_test in V. apply String.eqb_eq in E.
      rewrite V, E. reflexivity.
  - intros db'.
    destruct (negb (status =? "accepted")%string && negb (status =? "declined")%string)
      eqn:T; [discriminate|].
    apply validResponse_test in T.
    destruct (String.eqb_spec (Invitation.InviteeEmail inv) userEmail) as [E|_];
      cbn [negb]; [|discriminate].
    destruct (String.eqb_spec (Invitation.Status inv) "pending") as [P|_];
      cbn [negb]; [|discriminate].
    rewrite UpdateInvitationStatus_eq.
    destruct (served (trip db)); [|discriminate].
    intros R; injection R as <-.
    cbn [invitations users events event_attendees set_invitations trip set_faults clock].
    repeat (split; [solve [assumption | reflexivity]|]).
    split.
    { unfold responded. apply in_map_iff. exists inv.
      destruct (filter_head_In _ _ _ _ L) as [I K]. rewrite K. auto. }
    repeat (split; [reflexivity|]).
    intros status2 userEmail2. rewrite <- E.
    eapply RespondToInvitation_again; [exact T | exact L | reflexivity].
  - intros P E V S1.
    apply validResponse_test in V. apply String.eqb_eq in P, E.
    rewrite V, P, E. cbn [negb].
    rewrite UpdateInvitationStatus_eq, S1. eauto.
Qed.

End Claim2.

Lemma respond_only_while_pending_witness :
  exists db',
    invitation.Service.RespondToInvitation 1 "accepted" "bob@example.com" example.db1
    = (Ok tt, db')
    /\ pg.event_attendees db' = pg.event_attendees example.db1
    /\ exists db2,
         invitation.Service.RespondToInvitation 1 "declined" "bob@example.com" db'
         = (Err (New "invitation has already been responded to"), db2).
Proof.
  assert (G : invitation.Repository.GetInvitationByID 1 example.db1
              = (Ok example.invite, example.db1)) by reflexivity.
  destruct (respond_only_while_pending 1 "accepted" "bob@example.com" _ _ _ G)
    as (_ & Once & Served).
  destruct (Served eq_refl eq_refl (or_introl eq_refl) eq_refl) as [db' R].
  exists db'.
  destruct (Once db' R) as (_ & _ & _ & _ & _ & _ & _ & Same & Again).
  split; [exact R|]. split; [exact Same|].
  destruct (Again "declined" "bob@example.com") as (e & db2 & R2 & _ & Conflict).
  exists db2. rewrite R2. f_equal. f_equal.
  apply Conflict; [|right; reflexivity|reflexivity].
  vm_compute in R. injection R as <-. reflexivity.
Defined.

Section Patching.
Import pg sql event.
Context `{time.Pkg}.

(** What a successful [Repository.UpdateEvent] has done. *)
Lemma Repository_UpdateEvent_Ok eventID req db ev' db' :
  Repository.UpdateEvent eventID req db = (Ok ev', db') ->
  exists ev rest cur,
    filter (fun e => Event.ID e =? eventID) (events db) = ev :: rest
    /\ Repository.applyUpdates req ev = Ok cur
    /\ ev' = Repository.setColumns cur ev
    /\ events db'
       = map (fun e => if Event.ID e =? eventID
                       then Repository.setColumns cur e else e)
             (events db)
    /\ users db' = users db
    /\ event_attendees db' = event_attendees db
    /\ invitations db' = invitations db.
Proof.
  unfold Repository.UpdateEvent, bind.
  rewrite GetEventByID_eq.
  destruct (served db); [|discriminate].
  destruct (filter _ (events db)) as [|ev rest] eqn:L; [discriminate|].
  unfold lift.
  destruct (Repository.applyUpdates req ev) as [cur|] eqn:A; [|intros X; discriminate X].
  unfold onError, bind, write, read, queryRow. rewrite roundTrip_eq.
  destruct (served (trip db)); [|discriminate].
  cbn [events set_events trip set_faults].
  rewrite (filter_map_key Event.ID eventID
             (fun e => if Event.ID e =? eventID then Repository.setColumns cur e else e))
    by (intros x; destruct (Event.ID x =? eventID); reflexivity).
  rewrite L. simpl.
  destruct (filter_head_In _ _ _ _ L) as [_ ->].
  intros E; injection E as <- <-.
  exists ev, rest, cur. repeat split; solve [assumption | reflexivity].
Qed.

(** The checks of the service leave the store alone: a successful
    [Service.UpdateEvent] is a successful [Repository.UpdateEvent] on a
    store with the same tables and the same clock. *)
Lemma Service_UpdateEvent_Ok eventID req caller db ev' db' :
  Service.UpdateEvent eventID req caller db = (Ok ev', db') ->
  0 < eventID
  /\ exists ev,
       Repository.GetEventByID eventID db = (Ok ev, trip db)
       /\ Event.OrganizerID ev = caller
       /\ Repository.UpdateEvent eventID req (trip db) = (Ok ev', db').
Proof.
  unfold Service.UpdateEvent.
  destruct (Z.leb_spec eventID 0) as [_|P]; [discriminate|].
  unfold bind at 1.
  destruct (Repository.GetEventByID eventID db) as [[ev|] db1] eqn:G; [|discriminate].
  destruct (GetEventByID_Ok _ _ _ _ G) as (_ & -> & _).
  destruct (Z.eqb_spec (Event.OrganizerID ev) caller) as [O|_]; [|discriminate].
  cbn [negb]. intros R. split; [exact P|]. exists ev. repeat split; [exact O|].
  revert R. unfold bind.
  destruct (negb (UpdateEventRequest.Date req =? "")%string
            && negb (UpdateEventRequest.Time req =? "")%string).
  - unfold lift, Service.validateFutureEvent.
    destruct (Service.validateDateTime _ _); [|discriminate].
    destruct (time.Parse "2006-01-02 15:04:05" _); [|discriminate].
    unfold bind, Service.Now, read.
    destruct (time.Before _ _); [discriminate|]. exact (fun R => R).
  - destruct (negb (UpdateEventRequest.Date req =? "")%string).
    + unfold lift. destruct (Service.validateDateFormat _); [|discriminate].
      exact (fun R => R).
    + destruct (negb (UpdateEventRequest.Time req =? "")%string).
      * unfold lift. destruct (Service.validateTimeFormat _); [|discriminate].
        exact (fun R => R).
      * exact (fun R => R).
Qed.

Lemma distinct_only_one {A} (key : A -> Z) (l : list A) (x y : A) :
  wf.distinct Z.eqb (map key l) = true ->
  In x l -> In y l -> key y = key x -> y = x.
Proof.
  intros D Ix Iy K.
  assert (I : In y (filter (fun z => key z =? key x) l)).
  { apply filter_In. split; [exact Iy|]. apply Z.eqb_eq; exact K. }
  rewrite (distinct_filter_one key l x D Ix) in I.
  destruct I as [E|[]]. symmetry; exact E.
Qed.

(** C4. An update writes the fields of the patch that are not empty and
    no others. When [UpdateEvent] succeeds on a well-formed store, the
    event [ev] stored under the identifier is replaced by the event
    returned, every other row of every table is as before, and field by
    field the event returned has the value of the patch where the patch is
    not empty and the value of [ev] where it is empty: title, description
    and location as given, date and time as parsed. In particular a patch
    with only a location leaves title, description, date and time as they
    were. *)
Theorem update_writes_only_the_fields_given eventID req caller db ev' db' :
  wf.holds db ->
  Service.UpdateEvent eventID req caller db = (Ok ev', db') ->
  exists ev,
    In ev (events db) /\ Event.ID ev = eventID
    /\ events db' = map (fun e => if Event.ID e =? eventID then ev' else e) (events db)
    /\ users db' = users db
    /\ event_attendees db' = event_attendees db
    /\ invitations db' = invitations db
    /\ Event.ID ev' = Event.ID ev
    /\ Event.OrganizerID ev' = Event.OrganizerID ev
    /\ Event.CreatedAt ev' = Event.CreatedAt ev
    /\ Event.Title ev'
       = patched (UpdateEventRequest.Title req)
                 (UpdateEventRequest.Title req) (Event.Title ev)
    /\ Event.Description ev'
       = patched (UpdateEventRequest.Description req)
                 (UpdateEventRequest.Description req) (Event.Description ev)
    /\ Event.Location ev'
       = patched (UpdateEventRequest.Location req)
                 (UpdateEventRequest.Location req) (Event.Location ev)
    /\ (if (UpdateEventRequest.Date req =? "")%string
        then Event.Date ev' = Event.Date ev
        else time.Parse "2006-01-02" (UpdateEventRequest.Date req) = Ok (Event.Date ev'))
    /\ (if (UpdateEventRequest.Time req =? "")%string
        then Event.Time ev' = Event.Time ev
        else time.Parse "15:04:05" (UpdateEventRequest.Time req) = Ok (Event.Time ev'))
    /\ (UpdateEventRequest.Title req = "" -> UpdateEventRequest.Description req = ""
        -> UpdateEventRequest.Date req = "" -> UpdateEventRequest.Time req = ""
        -> Event.Title ev' = Event.Title ev
           /\ Event.Description ev' = Event.Description ev
           /\ Event.Date ev' = Event.Date ev
           /\ Event.Time ev' = Event.Time ev).
Proof.
  intros W R.
  destruct (Service_UpdateEvent_Ok _ _ _ _ _ _ R) as (_ & ev & G & _ & U).
  destruct (GetEventByID_Ok _ _ _ _ G) as (_ & _ & I & E & _).
  destruct (Repository_UpdateEvent_Ok _ _ _ _ _ U)
    as (ev0 & rest & cur & L & A & -> & Ev & Us & At & In_).
  change (events (trip db)) with (events db) in *.
  change (users (trip db)) with (users db) in *.
  change (event_attendees (trip db)) with (event_attendees db) in *.
  change (invitations (trip db)) with (invitations db) in *.
  assert (ev0 = ev) as ->.
  { destruct (filter_head_In _ _ _ _ L) as [I0 K0]. apply Z.eqb_eq in K0.
    apply (distinct_only_one Event.ID (events db) ev ev0 (wf_event_key _ W) I I0).
    congruence. }
  destruct (applyUpdates_Ok_inv _ _ _ A) as (Id & Org & Cr & Ti & De & Lo & Da & Tm).
  exists ev. split; [exact I|]. split; [exact E|]. split.
  { rewrite Ev. apply map_ext_in. intros e Ie.
    destruct (Z.eqb_spec (Event.ID e) eventID) as [K|_]; [|reflexivity].
    rewrite (distinct_only_one Event.ID (events db) ev e (wf_event_key _ W) I Ie);
      [reflexivity | congruence]. }
  repeat (split; [solve [assumption | reflexivity]|]).
  cbn [Repository.setColumns Event.ID Event.OrganizerID Event.CreatedAt Event.Title
         Event.Description Event.Location Event.Date Event.Time].
  repeat (split; [solve [assumption | reflexivity]|]).
  intros T0 D0 Da0 Tm0. unfold patched in *.
  rewrite T0 in Ti. rewrite D0 in De. rewrite Da0 in Da. rewrite Tm0 in Tm.
  simpl in Ti, De, Da, Tm. auto.
Qed.

End Patching.

Lemma update_writes_only_the_fields_given_witness :
  exists ev' db',
    event.Service.UpdateEvent 1 example.moveIt 1 example.db0 = (Ok ev', db')
    /\ pg.events db' = [ev']
    /\ Event.Location ev' = "Village green"
    /\ Event.Title ev' = "Party"
    /\ Event.Date ev' = Event.Date example.party
    /\ Event.Time ev' = Event.Time example.party.
Proof.
  destruct (event.Service.UpdateEvent 1 example.moveIt 1 example.db0) as [[ev'|e] db'] eqn:R;
    [|vm_compute in R; discriminate R].
  exists ev', db'. split; [reflexivity|].
  destruct (update_writes_only_the_fields_given 1 example.moveIt 1 example.db0 ev' db'
              eq_refl R)
    as (ev & I & _ & Ev & _ & _ & _ & _ & _ & _ & _ & _ & Lo & _ & _ & Only).
  destruct I as [<-|[]].
  destruct (Only eq_refl eq_refl eq_refl eq_refl) as (Ti & _ & Da & Tm).
  split; [rewrite Ev; reflexivity|].
  split; [exact Lo|]. split; [exact Ti|]. split; [exact Da|exact Tm].
Defined.

Section Claim5.
Import pg sql event.
Context `{time.Pkg}.

(** The organizer's update succeeds exactly for the patches accepted. *)
Lemma UpdateEvent_succeeds_iff eventID req db ev db1 :
  wf.holds db ->
  faults db = [] ->
  Repository.GetEventByID eventID db = (Ok ev, db1) ->
  (exists ev' db',
     Service.UpdateEvent eventID req (Event.OrganizerID ev) db = (Ok ev', db'))
  <-> patchPasses (clock db) req.
Proof.
  intros W F G.
  destruct (GetEventByID_Ok _ _ _ _ G) as (_ & _ & I & E & rest & L).
  assert (P : 0 < eventID) by (rewrite <- E; apply (wf_event_serial _ _ W I)).
  destruct (UpdateEvent_by_organizer _ req _ _ _ P F L)
    as [(Acc & cur & A & ->) | (N & e & -> & _)].
  - rewrite (Repository_UpdateEvent_eq _ _ _ _ _ _ F L A).
    split; [intros _; exact Acc | intros _; eauto].
  - split; [intros (ev' & db' & R); discriminate R | intros Acc; contradiction].
Qed.

(** The organizer's update with a date and a time that parse but lie
    before the current time. *)
Lemma UpdateEvent_in_the_past eventID req db ev db1 t :
  wf.holds db ->
  Repository.GetEventByID eventID db = (Ok ev, db1) ->
  UpdateEventRequest.Date req <> "" ->
  UpdateEventRequest.Time req <> "" ->
  is_ok (time.Parse "2006-01-02" (UpdateEventRequest.Date req)) = true ->
  is_ok (time.Parse "15:04:05" (UpdateEventRequest.Time req)) = true ->
  time.Parse "2006-01-02 15:04:05"
    (UpdateEventRequest.Date req ++ " " ++ UpdateEventRequest.Time req) = Ok t ->
  t < clock db ->
  Service.UpdateEvent eventID req (Event.OrganizerID ev) db
  = (Err (New "event date and time must be in the future"), db1).
Proof.
  intros W G ND NT PD PT PB Lt.
  destruct (GetEventByID_Ok _ _ _ _ G) as (_ & -> & I & E & _).
  assert (P : 0 < eventID) by (rewrite <- E; apply (wf_event_serial _ _ W I)).
  unfold Service.UpdateEvent.
  replace (eventID <=? 0) with false by (symmetry; apply Z.leb_gt; exact P).
  unfold bind at 1. rewrite G, Z.eqb_refl. cbn [negb].
  apply String.eqb_neq in ND, NT. rewrite ND, NT. cbn [negb andb].
  unfold bind, lift, Service.validateDateTime, Service.validateDateFormat,
    Service.validateTimeFormat, Service.validateFutureEvent.
  destruct (time.Parse "2006-01-02" (UpdateEventRequest.Date req)); [|discriminate PD].
  destruct (time.Parse "15:04:05" (UpdateEventRequest.Time req)); [|discriminate PT].
  cbn [ok]. rewrite PB.
  unfold bind, Service.Now, read, time.Before. cbn [clock trip set_faults].
  replace (t <? clock db) with true by (symmetry; apply Z.ltb_lt; exact Lt).
  reflexivity.
Qed.

(** C5, as amended. What the organizer's update checks of the date and
    time of a patch, on a well-formed store that serves its round trips.
    A date and a time given together must each parse under its layout, and
    their combination is checked against the clock as on create: before the
    current time the update is refused with "event date and time must be in
    the future", after it the update goes through. A date given alone must
    parse, wherever it lies, and so must a time given alone; a patch with
    neither goes through. *)
Theorem update_checks_date_and_time eventID req db ev db1 :
  wf.holds db ->
  faults db = [] ->
  Repository.GetEventByID eventID db = (Ok ev, db1) ->
  (UpdateEventRequest.Date req <> "" -> UpdateEventRequest.Time req <> "" ->
     ((exists ev' db',
         Service.UpdateEvent eventID req (Event.OrganizerID ev) db = (Ok ev', db'))
      -> is_ok (time.Parse "2006-01-02" (UpdateEventRequest.Date req)) = true
         /\ is_ok (time.Parse "15:04:05" (UpdateEventRequest.Time req)) = true)
     /\ (forall t,
           is_ok (time.Parse "2006-01-02" (UpdateEventRequest.Date req)) = true ->
           is_ok (time.Parse "15:04:05" (UpdateEventRequest.Time req)) = true ->
           time.Parse "2006-01-02 15:04:05"
             (UpdateEventRequest.Date req ++ " " ++ UpdateEventRequest.Time req) = Ok t ->
           (t < clock db ->
              Service.UpdateEvent eventID req (Event.OrganizerID ev) db
              = (Err (New "event date and time must be in the future"), db))
           /\ (clock db < t ->
               exists ev' db',
                 Service.UpdateEvent eventID req (Event.OrganizerID ev) db
                 = (Ok ev', db'))))
  /\ (UpdateEventRequest.Date req <> "" -> UpdateEventRequest.Time req = "" ->
        (exists ev' db',
           Service.UpdateEvent eventID req (Event.OrganizerID ev) db = (Ok ev', db'))
        <-> is_ok (time.Parse "2006-01-02" (UpdateEventRequest.Date req)) = true)
  /\ (UpdateEventRequest.Date req = "" -> UpdateEventRequest.Time req <> "" ->
        (exists ev' db',
           Service.UpdateEvent eventID req (Event.OrganizerID ev) db = (Ok ev', db'))
        <-> is_ok (time.Parse "15:04:05" (UpdateEventRequest.Time req)) = true)
  /\ (UpdateEventRequest.Date req = "" -> UpdateEventRequest.Time req = "" ->
        exists ev' db',
          Service.UpdateEvent eventID req (Event.OrganizerID ev) db = (Ok ev', db')).
Proof.
  intros W F G.
  pose proof (UpdateEvent_succeeds_iff eventID req db ev db1 W F G) as Iff.
  unfold patchPasses in Iff.
  split; [|split; [|split]].
  - intros ND NT. split.
    + rewrite Iff. intuition.
    + intros t PD PT PB. split.
      * intros Lt.
        rewrite (UpdateEvent_in_the_past eventID req db ev db1 t W G ND NT PD PT PB Lt).
        rewrite (GetEventByID_no_faults _ _ _ _ F G). reflexivity.
      * intros Gt. apply Iff.
        split; [intros _; exact PD|]. split; [intros _; exact PT|].
        intros _ _. exists t. split; [exact PB|lia].
  - intros ND ET. rewrite Iff. intuition.
  - intros ED NT. rewrite Iff. intuition.
  - intros ED ET. apply Iff. intuition.
Qed.

End Claim5.

Lemma update_checks_date_and_time_witness :
  exists ev' db',
    event.Service.UpdateEvent 1 example.dateOnly 1 example.db0 = (Ok ev', db').
Proof.
  destruct (update_checks_date_and_time 1 example.dateOnly example.db0 example.party
              example.db0 eq_refl eq_refl eq_refl)
    as (_ & DateAlone & _).
  apply DateAlone; [discriminate | reflexivity | reflexivity].
Defined.

(** C5, the claim as written fails: a date and a time that parse as a pair
    are refused by the organizer's update because together they lie in the
    past. *)
Lemma update_requires_future_counterexample :
  event.Service.validateDateTime "2020-01-01" "10:00:00" = ok
  /\ Event.OrganizerID example.party = 1
  /\ event.Service.UpdateEvent 1 example.backdate 1 example.db0
     = (Err (New "event date and time must be in the future"), example.db0).
Proof. repeat split. Qed.

(** C3. [CreateEvent] lets through an event whose date and time are the
    current instant: the check refuses what lies before now, not what is
    not after it. With the clock one nanosecond later the same request is
    refused. *)
Theorem CreateEvent_accepts_the_present_instant :
  time.Parse "2006-01-02 15:04:05" "2030-01-01 00:00:00" = Ok (pg.clock example.db0)
  /\ (exists ev db',
        event.Service.CreateEvent example.countdown 1 example.db0 = (Ok ev, db')
        /\ In ev (pg.events db'))
  /\ fst (event.Service.CreateEvent example.countdown 1
            (pg.mk (pg.users example.db0) (pg.events example.db0)
                   (pg.event_attendees example.db0) (pg.invitations example.db0)
                   2 1 1 0 (pg.clock example.db0 + 1) []))
     = Err (New "event date and time must be in the future").
Proof.
  split; [reflexivity|]. split; [|reflexivity].
  match eval vm_compute in (event.Service.CreateEvent example.countdown 1 example.db0) with
  | (Ok ?ev, ?db') => exists ev, db'; split; [vm_compute; reflexivity | simpl; auto]
  end.
Qed.

Section Attendance.
Import pg sql event.

(** The store after the round trip and the sequence step of an insert
    into [event_attendees]. *)
Lemma insertAttendee_eq user_id event_id role status db :
  insertAttendee user_id event_id role status db =
    if served db then
      let db1 := set_event_attendees_id_seq (event_attendees_id_seq db + 1) (trip db) in
      if negb (roleCheck role) then
        (Err (Pg (CheckViolation "event_attendees_role_check")), db1)
      else if negb (statusCheck status) then
        (Err (Pg (CheckViolation "event_attendees_status_check")), db1)
      else if hasAttendee user_id event_id db then
        (Err (Pg (UniqueViolation "event_attendees_user_id_event_id_key")), db1)
      else if negb (hasUser user_id db) then
        (Err (Pg (ForeignKeyViolation "event_attendees_user_id_fkey")), db1)
      else if negb (hasEvent event_id db) then
        (Err (Pg (ForeignKeyViolation "event_attendees_event_id_fkey")), db1)
      else
        (Ok tt,
         set_event_attendees
           (event_attendees db
            ++ [EventAttendee.mk (event_attendees_id_seq db + 1) user_id event_id
                                 role status (clock db)])%list
           db1)
    else (Err (Pg ConnFailure), trip db).
Proof.
  unfold insertAttendee, bind, nextval, now, read, write, constraint, ret, fail.
  rewrite roundTrip_eq.
  destruct (served db); [|reflexivity].
  cbn zeta.
  change (event_attendees_id_seq (trip db)) with (event_attendees_id_seq db).
  destruct (roleCheck role); [|reflexivity].
  destruct (statusCheck status); [|reflexivity].
  cbn [negb].
  change (hasAttendee user_id event_id
            (set_event_attendees_id_seq (event_attendees_id_seq db + 1) (trip db)))
    with (hasAttendee user_id event_id db).
  destruct (hasAttendee user_id event_id db); [reflexivity|].
  cbn [negb].
  change (hasUser user_id
            (set_event_attendees_id_seq (event_attendees_id_seq db + 1) (trip db)))
    with (hasUser user_id db).
  destruct (hasUser user_id db); [|reflexivity].
  change (hasEvent event_id
            (set_event_attendees_id_seq (event_attendees_id_seq db + 1) (trip db)))
    with (hasEvent event_id db).
  destruct (hasEvent event_id db); reflexivity.
Qed.

(** A successful insert has added one row, the one asked for, and nothing
    else. *)
Lemma insertAttendee_Ok user_id event_id role status db db' :
  insertAttendee user_id event_id role status db = (Ok tt, db') ->
  served db = true
  /\ hasAttendee user_id event_id db = false
  /\ hasUser user_id db = true
  /\ hasEvent event_id db = true
  /\ event_attendees db'
     = (event_attendees db
        ++ [EventAttendee.mk (event_attendees_id_seq db + 1) user_id event_id
                             role status (clock db)])%list
  /\ users db' = users db /\ events db' = events db
  /\ invitations db' = invitations db
  /\ faults db' = tl (faults db).
Proof.
  rewrite insertAttendee_eq.
  destruct (served db); [|discriminate]. cbn zeta.
  destruct (roleCheck role); [|discriminate].
  destruct (statusCheck status); [|discriminate]. cbn [negb].
  destruct (hasAttendee user_id event_id db); [discriminate|].
  destruct (hasUser user_id db); [|discriminate].
  destruct (hasEvent event_id db); [|discriminate]. cbn [negb].
  intros E; injection E as <-. repeat split.
Qed.

(** An insert that fails leaves the tables as they were. *)
Lemma insertAttendee_Err user_id event_id role status db e db' :
  insertAttendee user_id event_id role status db = (Err e, db') ->
  same_tables db db'.
Proof.
  rewrite insertAttendee_eq.
  destruct (served db); cbn zeta;
    repeat match goal with
           | |- context [if ?b then _ else _] => destruct b
           end;
    intros E; try discriminate E; injection E as _ <-; repeat split.
Qed.

Lemma hasAttendee_app user_id event_id rows a db :
  event_attendees db = (rows ++ [a])%list ->
  EventAttendee.UserID a = user_id -> EventAttendee.EventID a = event_id ->
  hasAttendee user_id event_id db = true.
Proof.
  intros R U E. unfold hasAttendee. rewrite R, existsb_app. simpl.
  rewrite U, E, !Z.eqb_refl. simpl. apply orb_true_r.
Qed.

End Attendance.

Section Claim6.
Import pg sql event.

Lemma JoinEvent_eq userID eventID db :
  0 < userID -> 0 < eventID ->
  Service.JoinEvent userID eventID db =
    match Repository.GetEventByID eventID db with
    | (Ok _, db1) =>
        match insertAttendee userID eventID "attendee" "going" db1 with
        | (Ok u, db2) => (Ok u, db2)
        | (Err e, db2) => (Err (Wrap "failed to join event" e), db2)
        end
    | (Err _, db1) => (Err (New "event not found"), db1)
    end.
Proof.
  intros PU PE. unfold Service.JoinEvent.
  replace (userID <=? 0) with false by (symmetry; apply Z.leb_gt; exact PU).
  replace (eventID <=? 0) with false by (symmetry; apply Z.leb_gt; exact PE).
  unfold bind, onError, Repository.JoinEvent.
  destruct (Repository.GetEventByID eventID db) as [[ev|e] db1]; reflexivity.
Qed.

Lemma JoinEvent_Ok_ids userID eventID db db' :
  Service.JoinEvent userID eventID db = (Ok tt, db') -> 0 < userID /\ 0 < eventID.
Proof.
  unfold Service.JoinEvent.
  destruct (Z.leb_spec userID 0); [discriminate|].
  destruct (Z.leb_spec eventID 0); [discriminate|]. auto.
Qed.

(** A join that fails leaves the tables as they were. *)
Lemma JoinEvent_Err userID eventID db e db' :
  Service.JoinEvent userID eventID db = (Err e, db') -> same_tables db db'.
Proof.
  unfold Service.JoinEvent, fail.
  destruct (Z.leb_spec userID 0);
    [intros E; injection E as _ <-; apply same_tables_refl|].
  destruct (Z.leb_spec eventID 0);
    [intros E; injection E as _ <-; apply same_tables_refl|].
  unfold Repository.JoinEvent, bind, onError. rewrite GetEventByID_eq.
  destruct (served db);
    [destruct (filter _ (events db))|];
    try (intros E; injection E as _ <-; apply same_tables_trip).
  destruct (insertAttendee userID eventID "attendee" "going" (trip db))
    as [[[]|e'] db2] eqn:I; [discriminate|].
  intros E; injection E as _ <-.
  apply (same_tables_trans _ _ _ (same_tables_trip db)).
  exact (insertAttendee_Err _ _ _ _ _ _ _ I).
Qed.

(** C6. Joining an event. When the event is absent [JoinEvent] fails and
    changes no table, with "event not found" for identifiers that are
    positive; when it succeeds it has added to [event_attendees] one row,
    for this user and this event, with role 'attendee' and status 'going',
    and nothing else has changed; a second [JoinEvent] of the same user
    for the same event then fails and changes no table, and on a store
    that serves its round trips the failure is the violation of the
    unique constraint on (user_id, event_id); and the first join does
    succeed for an existing user and event with no such row yet. *)
Theorem join_once userID eventID db :
  (hasEvent eventID db = false ->
     (exists e db1,
        Service.JoinEvent userID eventID db = (Err e, db1) /\ same_tables db db1)
     /\ (0 < userID -> 0 < eventID ->
         Service.JoinEvent userID eventID db = (Err (New "event not found"), trip db)))
  /\ (forall db',
        Service.JoinEvent userID eventID db = (Ok tt, db') ->
        (exists a,
           event_attendees db' = (event_attendees db ++ [a])%list
           /\ EventAttendee.UserID a = userID
           /\ EventAttendee.EventID a = eventID
           /\ EventAttendee.Role a = "attendee"
           /\ EventAttendee.Status a = "going")
        /\ users db' = users db
        /\ events db' = events db
        /\ invitations db' = invitations db
        /\ exists e db2,
             Service.JoinEvent userID eventID db' = (Err e, db2)
             /\ same_tables db' db2
             /\ (faults db' = [] ->
                 e = Wrap "failed to join event"
                       (Pg (UniqueViolation "event_attendees_user_id_event_id_key"))))
  /\ (0 < userID -> 0 < eventID ->
      hasEvent eventID db = true -> hasUser userID db = true ->
      hasAttendee userID eventID db = false ->
      faults db = [] ->
      exists db', Service.JoinEvent userID eventID db = (Ok tt, db')).
Proof.
  split; [|split].
  - intros A. apply existsb_filter_nil in A.
    assert (NF : 0 < userID -> 0 < eventID ->
                 Service.JoinEvent userID eventID db
                 = (Err (New "event not found"), trip db)).
    { intros PU PE. rewrite (JoinEvent_eq _ _ _ PU PE), GetEventByID_eq.
      unfold hasEvent in A. rewrite A. destruct (served db); reflexivity. }
    split; [|exact NF].
    destruct (Service.JoinEvent userID eventID db) as [[[]|e] db1] eqn:J.
    + destruct (JoinEvent_Ok_ids _ _ _ _ J) as [PU PE].
      discriminate (NF PU PE).
    + exists e, db1. split; [reflexivity|]. exact (JoinEvent_Err _ _ _ _ _ J).
  - intros db' J.
    destruct (JoinEvent_Ok_ids _ _ _ _ J) as [PU PE].
    rewrite (JoinEvent_eq _ _ _ PU PE) in J.
    destruct (Repository.GetEventByID eventID db) as [[ev|] db1] eqn:G; [|discriminate].
    destruct (GetEventByID_Ok _ _ _ _ G) as (_ & -> & _ & _ & rest & L).
    destruct (insertAttendee userID eventID "attendee" "going" (trip db))
      as [[[]|] db2] eqn:I; [|discriminate].
    injection J as ->.
    destruct (insertAttendee_Ok _ _ _ _ _ _ I) as (_ & _ & _ & _ & Rows & Us & Ev & In_ & _).
    change (event_attendees (trip db)) with (event_attendees db) in Rows.
    split; [eexists; split; [exact Rows|repeat split]|].
    repeat (split; [assumption|]).
    destruct (Service.JoinEvent userID eventID db') as [[[]|e] db2] eqn:J2.
    + (* a second success would have passed the unique index *)
      exfalso. rewrite (JoinEvent_eq _ _ _ PU PE) in J2.
      destruct (Repository.GetEventByID eventID db') as [[ev2|] db3] eqn:G2;
        [|discriminate].
      destruct (GetEventByID_Ok _ _ _ _ G2) as (_ & -> & _).
      destruct (insertAttendee userID eventID "attendee" "going" (trip db'))
        as [[[]|] db4] eqn:I2; [|discriminate].
      destruct (insertAttendee_Ok _ _ _ _ _ _ I2) as (_ & Fresh & _).
      rewrite (hasAttendee_app userID eventID _ _ (trip db') Rows eq_refl eq_refl) in Fresh.
      discriminate Fresh.
    + exists e, db2. split; [reflexivity|].
      split; [exact (JoinEvent_Err _ _ _ _ _ J2)|].
      intros F. rewrite (JoinEvent_eq _ _ _ PU PE), GetEventByID_eq in J2.
      rewrite (served_no_faults _ F), (trip_no_faults _ F), Ev in J2.
      change (events (trip db)) with (events db) in J2. rewrite L in J2.
      rewrite insertAttendee_eq, (served_no_faults _ F) in J2.
      cbn zeta in J2.
      change (roleCheck "attendee") with true in J2.
      change (statusCheck "going") with true in J2.
      cbn [negb] in J2.
      rewrite (hasAttendee_app userID eventID _ _ db' Rows eq_refl eq_refl) in J2.
      injection J2 as <- _. reflexivity.
  - intros PU PE HE HU HA F.
    rewrite (JoinEvent_eq _ _ _ PU PE), GetEventByID_eq.
    rewrite (served_no_faults _ F), (trip_no_faults _ F).
    destruct (filter _ (events db)) as [|ev rest] eqn:L.
    { apply existsb_filter_nil in L. unfold hasEvent in HE. congruence. }
    rewrite insertAttendee_eq, (served_no_faults _ F). cbn zeta.
    change (roleCheck "attendee") with true.
    change (statusCheck "going") with true.
    rewrite HA, HU, HE. cbn [negb]. eauto.
Qed.

End Claim6.

Lemma join_once_witness :
  event.Service.JoinEvent 2 7 example.db0
  = (Err (New "event not found"), example.db0)
  /\ exists db',
       event.Service.JoinEvent 2 1 example.db0 = (Ok tt, db')
       /\ (exists a,
             pg.event_attendees db' = (pg.event_attendees example.db0 ++ [a])%list
             /\ EventAttendee.Role a = "attendee"
             /\ EventAttendee.Status a = "going")
       /\ exists db2,
            event.Service.JoinEvent 2 1 db'
            = (Err (Wrap "failed to join event"
                      (Pg (UniqueViolation "event_attendees_user_id_event_id_key"))), db2).
Proof.
  split.
  - destruct (join_once 2 7 example.db0) as (Absent & _ & _).
    destruct (Absent eq_refl) as (_ & NotFound).
    apply NotFound; reflexivity.
  - destruct (join_once 2 1 example.db0) as (_ & Joined & First).
    destruct (First eq_refl eq_refl eq_refl eq_refl eq_refl eq_refl) as [db' J].
    exists db'. split; [exact J|].
    destruct (Joined db' J) as ((a & Rows & _ & _ & Ro & St) & _ & _ & _ & e & db2 & J2 & _ & U).
    split; [exists a; auto|].
    exists db2. rewrite J2, U; [reflexivity|].
    vm_compute in J. injection J as <-. reflexivity.
Defined.

Section Claim7.
Import pg sql event.

Lemma validRole_test role :
  negb (role =? "attendee")%string && negb (role =? "collaborator")%string
  && negb (role =? "organizer")%string = false
  <-> validRole role.
Proof.
  unfold validRole.
  destruct (String.eqb_spec role "attendee"), (String.eqb_spec role "collaborator"),
    (String.eqb_spec role "organizer"); simpl; intuition congruence.
Qed.

Lemma validRole_roleCheck role : validRole role -> roleCheck role = true.
Proof. intros [-> | [-> | ->]]; reflexivity. Qed.

(** [InviteUserToEvent] once the event has been found. *)
Lemma InviteUserToEvent_found eventID inviterID req db ev db1 :
  Repository.GetEventByID eventID db = (Ok ev, db1) ->
  Service.InviteUserToEvent eventID inviterID req db =
    if eventID <=? 0 then (Err (New "invalid event ID"), db)
    else if inviterID <=? 0 then (Err (New "invalid inviter ID"), db)
    else if AddAttendeeRequest.UserID req <=? 0 then (Err (New "invalid user ID"), db)
    else if negb (AddAttendeeRequest.Role req =? "attendee")%string
            && negb (AddAttendeeRequest.Role req =? "collaborator")%string
            && negb (AddAttendeeRequest.Role req =? "organizer")%string then
      (Err (New "invalid role: must be 'attendee', 'collaborator', or 'organizer'"), db)
    else if negb (Event.OrganizerID ev =? inviterID) then
      (Err (New "only the event creator can invite users to this event"), db1)
    else if AddAttendeeRequest.UserID req =? inviterID then
      (Err (New "you cannot invite yourself to the event"), db1)
    else
      match insertAttendee (AddAttendeeRequest.UserID req) eventID
                           (AddAttendeeRequest.Role req) "going" db1 with
      | (Ok u, db2) => (Ok u, db2)
      | (Err e, db2) => (Err (Wrap "failed to add user to event" e), db2)
      end.
Proof.
  intros G. unfold Service.InviteUserToEvent, fail.
  destruct (eventID <=? 0); [reflexivity|].
  destruct (inviterID <=? 0); [reflexivity|].
  destruct (AddAttendeeRequest.UserID req <=? 0); [reflexivity|].
  destruct (negb _ && negb _ && negb _); [reflexivity|].
  unfold Repository.AddAttendee, bind, onError. rewrite G.
  destruct (negb (Event.OrganizerID ev =? inviterID)); [reflexivity|].
  destruct (AddAttendeeRequest.UserID req =? inviterID); reflexivity.
Qed.

(** C7. Inviting a user to an event the store holds. Whenever the
    inviter is not the organizer, the role is none of 'attendee',
    'collaborator' and 'organizer', or the invitee is the inviter,
    [InviteUserToEvent] fails and changes no table; the failure is "only
    the event creator can invite users to this event" for a stranger
    whose request is otherwise in order, the role message for a bad role,
    and "you cannot invite yourself to the event" for the organizer
    inviting themselves. When it succeeds it has added to
    [event_attendees] one row for the invitee and the event, with the
    role asked for and status 'going', and has left [invitations] and the
    other tables alone. It does succeed for the organizer inviting
    another existing user who has no row for the event yet. *)
Theorem invite_adds_attendee_directly eventID inviterID req db ev db1 :
  wf.holds db ->
  Repository.GetEventByID eventID db = (Ok ev, db1) ->
  (Event.OrganizerID ev <> inviterID
   \/ ~ validRole (AddAttendeeRequest.Role req)
   \/ AddAttendeeRequest.UserID req = inviterID ->
     exists e db2,
       Service.InviteUserToEvent eventID inviterID req db = (Err e, db2)
       /\ same_tables db db2)
  /\ (0 < inviterID -> 0 < AddAttendeeRequest.UserID req ->
      (~ validRole (AddAttendeeRequest.Role req) ->
         Service.InviteUserToEvent eventID inviterID req db
         = (Err (New "invalid role: must be 'attendee', 'collaborator', or 'organizer'"),
            db))
      /\ (validRole (AddAttendeeRequest.Role req) ->
          Event.OrganizerID ev <> inviterID ->
          Service.InviteUserToEvent eventID inviterID req db
          = (Err (New "only the event creator can invite users to this event"), db1))
      /\ (validRole (AddAttendeeRequest.Role req) ->
          Event.OrganizerID ev = inviterID ->
          AddAttendeeRequest.UserID req = inviterID ->
          Service.InviteUserToEvent eventID inviterID req db
          = (Err (New "you cannot invite yourself to the event"), db1)))
  /\ (forall db',
        Service.InviteUserToEvent eventID inviterID req db = (Ok tt, db') ->
        (exists a,
           event_attendees db' = (event_attendees db ++ [a])%list
           /\ EventAttendee.UserID a = AddAttendeeRequest.UserID req
           /\ EventAttendee.EventID a = eventID
           /\ EventAttendee.Role a = AddAttendeeRequest.Role req
           /\ EventAttendee.Status a = "going")
        /\ invitations db' = invitations db
        /\ users db' = users db
        /\ events db' = events db)
  /\ (Event.OrganizerID ev = inviterID ->
      validRole (AddAttendeeRequest.Role req) ->
      AddAttendeeRequest.UserID req <> inviterID ->
      0 < inviterID ->
      hasUser (AddAttendeeRequest.UserID req) db = true ->
      hasAttendee (AddAttendeeRequest.UserID req) eventID db = false ->
      served db1 = true ->
      exists db',
        Service.InviteUserToEvent eventID inviterID req db = (Ok tt, db')).
Proof.
  intros W G.
  rewrite (InviteUserToEvent_found _ inviterID req _ _ _ G).
  destruct (GetEventByID_Ok _ _ _ _ G) as (_ & -> & I & E & rest & L).
  assert (P : 0 < eventID) by (rewrite <- E; apply (wf_event_serial _ _ W I)).
  replace (eventID <=? 0) with false by (symmetry; apply Z.leb_gt; exact P).
  split; [|split; [|split]].
  - intros Bad.
    destruct (inviterID <=? 0);
      [do 2 eexists; split; [reflexivity|apply same_tables_refl]|].
    destruct (AddAttendeeRequest.UserID req <=? 0);
      [do 2 eexists; split; [reflexivity|apply same_tables_refl]|].
    destruct (negb _ && negb _ && negb _) eqn:T;
      [do 2 eexists; split; [reflexivity|apply same_tables_refl]|].
    apply validRole_test in T.
    destruct (Z.eqb_spec (Event.OrganizerID ev) inviterID) as [O|_]; cbn [negb];
      [|do 2 eexists; split; [reflexivity|apply same_tables_trip]].
    destruct (Z.eqb_spec (AddAttendeeRequest.UserID req) inviterID) as [_|S];
      [do 2 eexists; split; [reflexivity|apply same_tables_trip]|].
    exfalso. intuition.
  - intros PI PU.
    replace (inviterID <=? 0) with false by (symmetry; apply Z.leb_gt; exact PI).
    replace (AddAttendeeRequest.UserID req <=? 0) with false
      by (symmetry; apply Z.leb_gt; exact PU).
    destruct (negb _ && negb _ && negb _) eqn:T.
    + repeat split; intros V; try reflexivity;
        apply validRole_test in V; congruence.
    + apply validRole_test in T. split; [intros N; contradiction|]. split.
      * intros _ N. apply Z.eqb_neq in N. rewrite N. reflexivity.
      * intros _ O S. apply Z.eqb_eq in O, S. rewrite O, S. reflexivity.
  - intros db'.
    destruct (inviterID <=? 0); [discriminate|].
    destruct (AddAttendeeRequest.UserID req <=? 0); [discriminate|].
    destruct (negb _ && negb _ && negb _); [discriminate|].
    destruct (negb (Event.OrganizerID ev =? inviterID)); [discriminate|].
    destruct (AddAttendeeRequest.UserID req =? inviterID); [discriminate|].
    destruct (insertAttendee _ _ _ _ (trip db)) as [[[]|] db2] eqn:A; [|discriminate].
    intros R; injection R as <-.
    destruct (insertAttendee_Ok _ _ _ _ _ _ A) as (_ & _ & _ & _ & Rows & Us & Ev & In_ & _).
    split; [eexists; split; [exact Rows|repeat split]|]. auto.
  - intros O V S PI HU HA S1.
    assert (PU : 0 < AddAttendeeRequest.UserID req).
    { apply hasUser_In in HU. destruct HU as (u & Iu & <-).
      apply (wf_users db W); exact Iu. }
    replace (inviterID <=? 0) with false by (symmetry; apply Z.leb_gt; exact PI).
    replace (AddAttendeeRequest.UserID req <=? 0) with false
      by (symmetry; apply Z.leb_gt; exact PU).
    apply validRole_test in V as T. rewrite T.
    apply Z.eqb_eq in O. apply Z.eqb_neq in S. rewrite O, S. cbn [negb].
    rewrite insertAttendee_eq, S1. cbn zeta.
    rewrite (validRole_roleCheck _ V).
    change (statusCheck "going") with true.
    change (hasAttendee (AddAttendeeRequest.UserID req) eventID (trip db))
      with (hasAttendee (AddAttendeeRequest.UserID req) eventID db).
    change (hasUser (AddAttendeeRequest.UserID req) (trip db))
      with (hasUser (AddAttendeeRequest.UserID req) db).
    rewrite HA, HU. cbn [negb].
    replace (hasEvent eventID (trip db)) with true; [cbn [negb]; eauto|].
    symmetry. apply hasEvent_In. exists ev. split; assumption.
Qed.

End Claim7.

Lemma invite_adds_attendee_directly_witness :
  event.Service.InviteUserToEvent 1 2 (AddAttendeeRequest.mk 3 "attendee") example.db2
  = (Err (New "only the event creator can invite users to this event"), example.db2)
  /\ event.Service.InviteUserToEvent 1 1 (AddAttendeeRequest.mk 2 "guest") example.db2
     = (Err (New "invalid role: must be 'attendee', 'collaborator', or 'organizer'"),
        example.db2)
  /\ event.Service.InviteUserToEvent 1 1 (AddAttendeeRequest.mk 1 "attendee") example.db2
     = (Err (New "you cannot invite yourself to the event"), example.db2)
  /\ exists db' a,
       event.Service.InviteUserToEvent 1 1 (AddAttendeeRequest.mk 2 "collaborator")
         example.db2 = (Ok tt, db')
       /\ pg.event_attendees db' = (pg.event_attendees example.db2 ++ [a])%list
       /\ EventAttendee.UserID a = 2
       /\ EventAttendee.Role a = "collaborator"
       /\ EventAttendee.Status a = "going"
       /\ pg.invitations db' = pg.invitations example.db2.
Proof.
  assert (W : wf.holds example.db2) by reflexivity.
  assert (G : event.Repository.GetEventByID 1 example.db2 = (Ok example.party, example.db2))
    by reflexivity.
  split; [|split; [|split]].
  - destruct (invite_adds_attendee_directly 1 2 (AddAttendeeRequest.mk 3 "attendee")
                example.db2 example.party example.db2 W G) as (_ & Guards & _).
    destruct (Guards eq_refl eq_refl) as (_ & Stranger & _).
    apply Stranger; [left; reflexivity | discriminate].
  - destruct (invite_adds_attendee_directly 1 1 (AddAttendeeRequest.mk 2 "guest")
                example.db2 example.party example.db2 W G) as (_ & Guards & _).
    destruct (Guards eq_refl eq_refl) as (Role & _).
    apply Role. intros [R | [R | R]]; discriminate R.
  - destruct (invite_adds_attendee_directly 1 1 (AddAttendeeRequest.mk 1 "attendee")
                example.db2 example.party example.db2 W G) as (_ & Guards & _).
    destruct (Guards eq_refl eq_refl) as (_ & _ & Self).
    apply Self; [left; reflexivity | reflexivity | reflexivity].
  - destruct (invite_adds_attendee_directly 1 1 (AddAttendeeRequest.mk 2 "collaborator")
                example.db2 example.party example.db2 W G) as (_ & _ & Added & Succeeds).
    destruct (Succeeds eq_refl (or_intror (or_introl eq_refl)) ltac:(discriminate)
                eq_refl eq_refl eq_refl eq_refl) as [db' R].
    destruct (Added db' R) as ((a & Rows & U & _ & Ro & St) & In_ & _).
    exists db', a. repeat split; assumption.
Defined.

Section Claim8.
Import pg sql event.
Context `{time.Pkg}.

Lemma Repository_CreateEvent_eq event db :
  Repository.CreateEvent event db =
    if served db then
      let db1 := set_events_id_seq (events_id_seq db + 1) (trip db) in
      if hasUser (Event.OrganizerID event) db then
        let row := Event.mk (events_id_seq db + 1) (Event.Title event)
                            (Event.Description event) (Event.Date event)
                            (Event.Time event) (Event.Location event)
                            (Event.OrganizerID event) (clock db) in
        (Ok row, set_events (events db ++ [row])%list db1)
      else
        (Err (Wrap "failed to create event"
                (Pg (ForeignKeyViolation "events_organizer_id_fkey"))), db1)
    else (Err (Wrap "failed to create event" (Pg ConnFailure)), trip db).
Proof.
  unfold Repository.CreateEvent, onError, bind, nextval, now, read, write,
    constraint, ret, fail.
  rewrite roundTrip_eq.
  destruct (served db); [|reflexivity].
  cbn zeta.
  change (hasUser (Event.OrganizerID event)
            (set_events_id_seq (events_id_seq (trip db) + 1) (trip db)))
    with (hasUser (Event.OrganizerID event) db).
  destruct (hasUser (Event.OrganizerID event) db); reflexivity.
Qed.

Lemma validateCreateRequest_ok req :
  Service.validateCreateRequest req = ok
  <-> CreateEventRequest.Title req <> ""
      /\ CreateEventRequest.Date req <> ""
      /\ CreateEventRequest.Time req <> ""
      /\ CreateEventRequest.Location req <> ""
      /\ (String.length (CreateEventRequest.Title req) <= 255)%nat
      /\ (String.length (CreateEventRequest.Description req) <= 1000)%nat.
Proof.
  unfold Service.validateCreateRequest.
  destruct (String.eqb_spec (CreateEventRequest.Title req) "");
    [split; [discriminate|tauto]|].
  destruct (String.eqb_spec (CreateEventRequest.Date req) "");
    [split; [discriminate|tauto]|].
  destruct (String.eqb_spec (CreateEventRequest.Time req) "");
    [split; [discriminate|tauto]|].
  destruct (String.eqb_spec (CreateEventRequest.Location req) "");
    [split; [discriminate|tauto]|].
  destruct (Nat.ltb_spec 255 (String.length (CreateEventRequest.Title req)));
    [split; [discriminate|lia]|].
  destruct (Nat.ltb_spec 1000 (String.length (CreateEventRequest.Description req)));
    [split; [discriminate|lia]|].
  split; [intros _; repeat split; assumption || lia | reflexivity].
Qed.

(** [CreateEvent] past its checks: the two inserts. *)
Lemma CreateEvent_eq req organizerID db eventDate eventTime :
  requestPassed (clock db) req eventDate eventTime ->
  Service.CreateEvent req organizerID db =
    match Repository.CreateEvent
            (Event.mk 0 (CreateEventRequest.Title req)
                      (CreateEventRequest.Description req) eventDate eventTime
                      (CreateEventRequest.Location req) organizerID time.zeroTime) db with
    | (Ok event, db1) =>
        match insertAttendee organizerID (Event.ID event) "organizer" "going" db1 with
        | (Ok _, db2) => (Ok event, db2)
        | (Err e, db2) =>
            (Err (Wrap "failed to add organizer as attendee"
                    (Wrap "failed to add organizer as attendee" e)), db2)
        end
    | (Err e, db1) => (Err e, db1)
    end.
Proof.
  intros (T & D & Tm & L & LT & LD & PD & PT & t & PB & Fut).
  unfold Service.CreateEvent, bind, lift.
  replace (Service.validateCreateRequest req) with ok
    by (symmetry; apply validateCreateRequest_ok; auto 10).
  unfold Service.validateDateTime, Service.validateDateFormat,
    Service.validateTimeFormat, Service.validateFutureEvent.
  rewrite PD, PT, PB. cbn [ok Service.wrapResult].
  unfold bind, Service.Now, read, time.Before, ret.
  replace (t <? clock db) with false by (symmetry; apply Z.ltb_ge; exact Fut).
  destruct (Repository.CreateEvent _ db) as [[event|e] db1]; [|reflexivity].
  unfold Repository.AddOrganizerAsAttendee, onError.
  destruct (insertAttendee organizerID (Event.ID event) "organizer" "going" db1)
    as [[[]|e] db2]; reflexivity.
Qed.

(** A request [CreateEvent] lets through has passed every check. *)
Lemma CreateEvent_Ok_checked req organizerID db ev db' :
  Service.CreateEvent req organizerID db = (Ok ev, db') ->
  exists eventDate eventTime, requestPassed (clock db) req eventDate eventTime.
Proof.
  unfold Service.CreateEvent, bind, lift.
  destruct (Service.validateCreateRequest req) as [[]|] eqn:V; [|discriminate].
  apply validateCreateRequest_ok in V.
  unfold Service.validateDateTime, Service.validateDateFormat,
    Service.validateTimeFormat, Service.validateFutureEvent.
  destruct (time.Parse "2006-01-02" (CreateEventRequest.Date req)) as [d|] eqn:PD;
    [|discriminate].
  destruct (time.Parse "15:04:05" (CreateEventRequest.Time req)) as [c|] eqn:PT;
    [|discriminate].
  cbn [ok].
  destruct (time.Parse "2006-01-02 15:04:05" _) as [t|] eqn:PB; [|discriminate].
  unfold bind, Service.Now, read, time.Before.
  destruct (Z.ltb_spec t (clock db)); [discriminate|].
  intros _. exists d, c. unfold requestPassed. intuition eauto.
Qed.

End Claim8.

Section Claim8b.
Import pg sql event.
Context `{time.Pkg}.

(** No attendee of a well-formed store refers to an event identifier that
    the sequence has yet to hand out. *)
Lemma wf_no_attendee_ahead db user_id :
  wf.holds db -> hasAttendee user_id (events_id_seq db + 1) db = false.
Proof.
  intros W. unfold hasAttendee. apply not_true_is_false. intros E.
  apply existsb_exists in E. destruct E as (a & I & K).
  apply andb_true_iff in K. destruct K as [_ K]. apply Z.eqb_eq in K.
  pose proof (wf_attendee_event _ _ W I) as HE.
  apply hasEvent_In in HE. destruct HE as (e & Ie & Ke).
  pose proof (wf_event_serial _ _ W Ie). lia.
Qed.

(** C8. Creating an event adds its organizer to the attendees. When
    [CreateEvent] succeeds, the event returned has been appended to
    [events], it carries the organizer and the title, description and
    location of the request, and one row has been appended to
    [event_attendees]: the organizer, this event, role 'organizer', status
    'going'; the users and the invitations are as before. It does succeed,
    on a well-formed store that serves its round trips, for every request
    with the required fields, within the lengths, with a date and a time
    that parse and lie after the current time, made by an existing user. *)
Theorem CreateEvent_adds_the_organizer req organizerID db :
  (forall ev db',
     Service.CreateEvent req organizerID db = (Ok ev, db') ->
     events db' = (events db ++ [ev])%list
     /\ Event.OrganizerID ev = organizerID
     /\ Event.Title ev = CreateEventRequest.Title req
     /\ Event.Description ev = CreateEventRequest.Description req
     /\ Event.Location ev = CreateEventRequest.Location req
     /\ (exists a,
           event_attendees db' = (event_attendees db ++ [a])%list
           /\ EventAttendee.UserID a = organizerID
           /\ EventAttendee.EventID a = Event.ID ev
           /\ EventAttendee.Role a = "organizer"
           /\ EventAttendee.Status a = "going")
     /\ users db' = users db
     /\ invitations db' = invitations db)
  /\ (forall eventDate eventTime,
        wf.holds db ->
        faults db = [] ->
        requestAccepted (clock db) req eventDate eventTime ->
        hasUser organizerID db = true ->
        exists ev db', Service.CreateEvent req organizerID db = (Ok ev, db')).
Proof.
  split.
  - intros ev db' R.
    destruct (CreateEvent_Ok_checked _ _ _ _ _ R) as (d & c & Acc).
    rewrite (CreateEvent_eq _ organizerID _ _ _ Acc), Repository_CreateEvent_eq in R.
    destruct (served db); [|discriminate]. cbn zeta in R.
    cbn [Event.OrganizerID] in R.
    destruct (hasUser organizerID db); [|discriminate].
    match type of R with
    | match insertAttendee ?u ?e ?r ?s ?d with _ => _ end = _ =>
        destruct (insertAttendee u e r s d) as [[[]|] db2] eqn:A; [|discriminate]
    end.
    injection R as <- <-.
    destruct (insertAttendee_Ok _ _ _ _ _ _ A) as (_ & _ & _ & _ & Rows & Us & Ev & In_ & _).
    cbn [events set_events set_events_id_seq trip set_faults event_attendees users
           invitations Event.ID] in *.
    repeat (split; [solve [assumption | reflexivity]|]).
    split; [eexists; split; [exact Rows|repeat split]|]. auto.
  - intros d c W F Acc HU. apply requestAccepted_passed in Acc.
    rewrite (CreateEvent_eq _ organizerID _ _ _ Acc), Repository_CreateEvent_eq.
    rewrite (served_no_faults _ F), (trip_no_faults _ F). cbn zeta.
    cbn [Event.OrganizerID]. rewrite HU.
    rewrite insertAttendee_eq.
    replace (served _) with true
      by (symmetry; apply served_no_faults; cbn; exact F).
    cbn zeta. change (roleCheck "organizer") with true.
    change (statusCheck "going") with true. cbn [negb Event.ID].
    match goal with
    | |- context [hasAttendee ?u ?e ?d] =>
        change (hasAttendee u e d) with (hasAttendee u e db)
    end.
    rewrite (wf_no_attendee_ahead db organizerID W).
    match goal with
    | |- context [hasUser ?u ?d] => change (hasUser u d) with (hasUser u db)
    end.
    rewrite HU. cbn [negb].
    match goal with
    | |- context [hasEvent ?e ?d] => replace (hasEvent e d) with true
    end.
    + cbn [negb]. eauto.
    + symmetry. unfold hasEvent. cbn [events set_events set_events_id_seq].
      rewrite existsb_app. simpl. rewrite Z.eqb_refl. apply orb_true_r.
Qed.

End Claim8b.

Lemma CreateEvent_adds_the_organizer_witness :
  exists ev db' a,
    event.Service.CreateEvent example.picnic 2 example.db0 = (Ok ev, db')
    /\ pg.events db' = (pg.events example.db0 ++ [ev])%list
    /\ pg.event_attendees db' = (pg.event_attendees example.db0 ++ [a])%list
    /\ EventAttendee.UserID a = 2
    /\ EventAttendee.EventID a = Event.ID ev
    /\ EventAttendee.Role a = "organizer"
    /\ EventAttendee.Status a = "going".
Proof.
  destruct (CreateEvent_adds_the_organizer example.picnic 2 example.db0)
    as (Added & Succeeds).
  destruct (time.Parse "2006-01-02" "2030-06-15") as [d|] eqn:PD;
    [|vm_compute in PD; discriminate PD].
  destruct (time.Parse "15:04:05" "12:30:00") as [c|] eqn:PT;
    [|vm_compute in PT; discriminate PT].
  destruct (Succeeds d c eq_refl eq_refl) as (ev & db' & R).
  - unfold requestAccepted.
    split; [discriminate|]. split; [discriminate|]. split; [discriminate|].
    split; [discriminate|].
    split; [apply Nat.leb_le; reflexivity|].
    split; [apply Nat.leb_le; reflexivity|].
    split; [exact PD|]. split; [exact PT|].
    eexists. split; [vm_compute; reflexivity|]. reflexivity.
  - reflexivity.
  - destruct (Added ev db' R) as (Ev & _ & _ & _ & _ & (a & Rows & U & E & Ro & St) & _).
    exists ev, db', a. repeat split; assumption.
Defined.

Section Claim9.
Import pg sql auth.
Context `{bcrypt.Pkg} `{jwt.Pkg} `{os.Env}.

(** C9. A login that fails for an unknown email and a login that fails
    for a wrong password are told the same thing. When no user has the
    email of the request, and when the user found has a password hash that
    [bcrypt] does not match with the password of the request, [Login]
    returns the error "invalid email or password", and in both cases the
    store it leaves is the one after the single lookup; so the two
    results are equal. *)
Theorem Login_failures_are_indistinguishable req db :
  ((forall u, In u (users db) -> User.Email u <> LoginRequest.Email req) ->
     Service.Login req db = (Err (New "invalid email or password"), trip db))
  /\ (forall u rest e,
        served db = true ->
        filter (fun u => (User.Email u =? LoginRequest.Email req)%string) (users db)
        = u :: rest ->
        bcrypt.CompareHashAndPassword (User.PasswordHash u) (LoginRequest.Password req)
        = Err e ->
        Service.Login req db = (Err (New "invalid email or password"), trip db))
  /\ (forall req' db' u rest e,
        (forall u, In u (users db) -> User.Email u <> LoginRequest.Email req) ->
        served db' = true ->
        filter (fun u => (User.Email u =? LoginRequest.Email req')%string) (users db')
        = u :: rest ->
        bcrypt.CompareHashAndPassword (User.PasswordHash u) (LoginRequest.Password req')
        = Err e ->
        fst (Service.Login req db) = fst (Service.Login req' db')).
Proof.
  assert (Unknown : forall req db,
            (forall u, In u (users db) -> User.Email u <> LoginRequest.Email req) ->
            Service.Login req db = (Err (New "invalid email or password"), trip db)).
  { clear req db. intros req db N.
    unfold Service.Login, bind, onError, read, queryRow.
    rewrite roundTrip_eq. destruct (served db); [|reflexivity].
    change (users (trip db)) with (users db).
    destruct (filter _ (users db)) as [|u rest] eqn:F; [reflexivity|].
    destruct (filter_head_In _ _ _ _ F) as [I E].
    apply String.eqb_eq in E. destruct (N u I E). }
  assert (Mismatch : forall req db u rest e,
            served db = true ->
            filter (fun u => (User.Email u =? LoginRequest.Email req)%string) (users db)
            = u :: rest ->
            bcrypt.CompareHashAndPassword (User.PasswordHash u)
                                          (LoginRequest.Password req) = Err e ->
            Service.Login req db = (Err (New "invalid email or password"), trip db)).
  { clear req db. intros req db u rest e S F C.
    unfold Service.Login, bind, onError, read, queryRow.
    rewrite roundTrip_eq, S.
    change (users (trip db)) with (users db). rewrite F.
    cbn [ret]. rewrite C. reflexivity. }
  split; [apply Unknown|]. split; [apply Mismatch|].
  intros req' db' u rest e N S F C.
  rewrite (Unknown req db N), (Mismatch req' db' u rest e S F C). reflexivity.
Qed.

End Claim9.

Lemma Login_failures_are_indistinguishable_witness :
  auth.Service.Login (LoginRequest.mk "eve@example.com" "wonderland") example.db0
  = (Err (New "invalid email or password"), example.db0)
  /\ auth.Service.Login (LoginRequest.mk "alice@example.com" "looking-glass") example.db0
     = (Err (New "invalid email or password"), example.db0)
  /\ is_ok (fst (auth.Service.Login (LoginRequest.mk "alice@example.com" "wonderland")
                   example.db0)) = true.
Proof.
  split; [|split].
  - destruct (Login_failures_are_indistinguishable
                (LoginRequest.mk "eve@example.com" "wonderland") example.db0)
      as (Unknown & _).
    apply Unknown. intros u [<- | [<- | []]]; discriminate.
  - destruct (Login_failures_are_indistinguishable
                (LoginRequest.mk "alice@example.com" "looking-glass") example.db0)
      as (_ & Mismatch & _).
    apply (Mismatch example.alice []
             (Lib "crypto/bcrypt: hashedPassword is not the hash of the given password"));
      reflexivity.
  - reflexivity.
Defined.

Section Claim10.
Import pg sql.
Context `{time.Pkg}.

Lemma collect_app {A} (rows : list A) (s : slice A) :
  fold_left append rows s
  = match rows with
    | [] => s
    | _ => Some (elems s ++ rows)%list
    end.
Proof.
  revert s. induction rows as [|x rows IH]; intros s; [reflexivity|].
  simpl. rewrite IH. destruct rows as [|y rows].
  - destruct s; reflexivity.
  - destruct s; simpl; [rewrite <- app_assoc|]; reflexivity.
Qed.

(** The loop over the rows yields nil exactly when there is no row, and
    otherwise the rows in their order. *)
Lemma collect_rows {A} (rows : list A) :
  collect rows = match rows with [] => None | _ => Some rows end.
Proof. unfold collect. rewrite collect_app. destruct rows; reflexivity. Qed.

Lemma orEmpty_not_nil {A} (s : slice A) : orEmpty s <> None.
Proof. destruct s; discriminate. Qed.

Lemma orEmpty_elems {A} (s : slice A) : elems (orEmpty s) = elems s.
Proof. destruct s; reflexivity. Qed.

(** [rows, err := repo(...); if err != nil { return nil, err };
     if rows == nil { rows = []T{} }; return rows, nil] *)
Lemma guarded_neverNil {A} (repo : M (slice A)) :
  neverNil (bind repo (fun rows => ret (orEmpty rows))).
Proof.
  intros db s db'. unfold bind, ret.
  destruct (repo db) as [[rows|e] db1]; [|discriminate].
  intros E; injection E as <- _. apply orEmpty_not_nil.
Qed.

Lemma guarded_emptyForNil {A} (repo : M (slice A)) :
  emptyForNil repo (bind repo (fun rows => ret (orEmpty rows))).
Proof. intros db db' R. unfold bind. rewrite R. reflexivity. Qed.

Lemma checked_neverNil {A} (bad : bool) (e : error) (m : M (slice A)) :
  neverNil m -> neverNil (if bad then fail e else m).
Proof. intros N. destruct bad; [intros db s db'; discriminate | exact N]. Qed.

(** C10. The lists the services return are never nil. Each of
    [GetAllEvents], [GetEventsByOrganizerID], [GetMyAttendingEvents],
    [GetEventAttendees], [GetMyOrganizedEvents], [GetMyInvitations] and
    [GetEventInvitations], when it succeeds, returns a slice that is not
    nil; and where its repository query yields the nil slice, which is
    what the query yields when it finds no row, the service returns the
    empty slice, for an identifier that passes the check of the
    service. *)
Theorem lists_are_never_nil :
  (neverNil event.Service.GetAllEvents
   /\ (forall id, neverNil (event.Service.GetEventsByOrganizerID id))
   /\ (forall id, neverNil (event.Service.GetMyAttendingEvents id))
   /\ (forall id, neverNil (event.Service.GetEventAttendees id))
   /\ (forall id, neverNil (event.Service.GetMyOrganizedEvents id))
   /\ (forall email, neverNil (invitation.Service.GetMyInvitations email))
   /\ (forall id, neverNil (invitation.Service.GetEventInvitations id)))
  /\ (emptyForNil event.Repository.GetAllEvents event.Service.GetAllEvents
      /\ (forall id, 0 < id ->
            emptyForNil (event.Repository.GetEventsByOrganizerID id)
                        (event.Service.GetEventsByOrganizerID id))
      /\ (forall id, 0 < id ->
            emptyForNil (event.Repository.GetEventsByAttendeeID id)
                        (event.Service.GetMyAttendingEvents id))
      /\ (forall id, 0 < id ->
            emptyForNil (event.Repository.GetEventAttendees id)
                        (event.Service.GetEventAttendees id))
      /\ (forall id, 0 < id ->
            emptyForNil (event.Repository.GetMyOrganizedEvents id)
                        (event.Service.GetMyOrganizedEvents id))
      /\ (forall email,
            emptyForNil (invitation.Repository.GetInvitationsByEmail email)
                        (invitation.Service.GetMyInvitations email))
      /\ (forall id,
            emptyForNil (invitation.Repository.GetInvitationsByEventID id)
                        (invitation.Service.GetEventInvitations id)))
  /\ (forall db,
        served db = true ->
        (events db = [] -> event.Repository.GetAllEvents db = (Ok None, trip db))
        /\ (forall id,
              filter (fun a => EventAttendee.EventID a =? id) (event_attendees db) = [] ->
              event.Repository.GetEventAttendees id db = (Ok None, trip db))
        /\ (forall email,
              filter (fun i => (Invitation.InviteeEmail i =? email)%string)
                     (invitations db) = [] ->
              invitation.Repository.GetInvitationsByEmail email db
              = (Ok None, trip db))).
Proof.
  split; [|split].
  - unfold event.Service.GetAllEvents, event.Service.GetEventsByOrganizerID,
      event.Service.GetMyAttendingEvents, event.Service.GetEventAttendees,
      event.Service.GetMyOrganizedEvents, invitation.Service.GetMyInvitations,
      invitation.Service.GetEventInvitations.
    repeat split; intros;
      try apply checked_neverNil; apply guarded_neverNil.
  - unfold event.Service.GetAllEvents, event.Service.GetEventsByOrganizerID,
      event.Service.GetMyAttendingEvents, event.Service.GetEventAttendees,
      event.Service.GetMyOrganizedEvents, invitation.Service.GetMyInvitations,
      invitation.Service.GetEventInvitations.
    split; [apply guarded_emptyForNil|].
    do 4 (split;
          [intros id P;
           replace (id <=? 0) with false by (symmetry; apply Z.leb_gt; exact P);
           apply guarded_emptyForNil|]).
    split; intros; apply guarded_emptyForNil.
  - intros db S. repeat split.
    + intros E. unfold event.Repository.GetAllEvents, onError, bind, read, ret.
      rewrite roundTrip_eq, S. change (events (trip db)) with (events db).
      rewrite E. reflexivity.
    + intros id E. unfold event.Repository.GetEventAttendees, onError, bind, read, ret.
      rewrite roundTrip_eq, S.
      change (event_attendees (trip db)) with (event_attendees db).
      rewrite E. reflexivity.
    + intros email E.
      unfold invitation.Repository.GetInvitationsByEmail, onError, bind, read, ret.
      rewrite roundTrip_eq, S. unfold invitation.Repository.joined.
      change (invitations (trip db)) with (invitations db).
      rewrite E. reflexivity.
Qed.

End Claim10.

Lemma lists_are_never_nil_witness :
  event.Service.GetEventAttendees 7 example.db0 = (Ok (Some []), example.db0)
  /\ event.Service.GetMyOrganizedEvents 2 example.db0 = (Ok (Some []), example.db0)
  /\ invitation.Service.GetMyInvitations "bob@example.com" example.db0
     = (Ok (Some []), example.db0)
  /\ exists rows,
       invitation.Service.GetMyInvitations "bob@example.com" example.db1
       = (Ok (Some rows), example.db1)
       /\ length rows = 1%nat.
Proof.
  destruct lists_are_never_nil as (Never & Empty & _).
  destruct Empty as (_ & _ & _ & Attendees & Organized & Invitations & _).
  split; [apply Attendees; reflexivity|].
  split; [apply Organized; reflexivity|].
  split; [apply Invitations; reflexivity|].
  destruct Never as (_ & _ & _ & _ & _ & Mine & _).
  destruct (invitation.Service.GetMyInvitations "bob@example.com" example.db1)
    as [[[rows|]|e] db'] eqn:R.
  - exists rows. vm_compute in R. injection R as <- <-. split; reflexivity.
  - destruct (Mine _ _ _ _ R eq_refl).
  - vm_compute in R. discriminate R.
Defined.

(** ** The store stays well formed *)

Section Invariant.
Import pg sql.

Lemma forallb_serial_mono {A} (key : A -> Z) (s s' : Z) (l : list A) :
  s <= s' ->
  forallb (fun x => wf.serial s (key x)) l = true ->
  forallb (fun x => wf.serial s' (key x)) l = true.
Proof.
  intros L. rewrite !forallb_forall. intros F x I. specialize (F x I).
  unfold wf.serial in *. rewrite andb_true_iff in *.
  destruct F as [P Q]. apply Z.leb_le in Q. split; [exact P|]. apply Z.leb_le. lia.
Qed.

Lemma distinct_snoc {A} (eqb : A -> A -> bool) (l : list A) (x : A) :
  wf.distinct eqb (l ++ [x])
  = wf.distinct eqb l && negb (existsb (fun y => eqb y x) l).
Proof.
  induction l as [|y l IH]; simpl; [reflexivity|].
  rewrite IH, existsb_app. simpl. rewrite orb_false_r.
  destruct (existsb (eqb y) l), (eqb y x), (wf.distinct eqb l),
    (existsb (fun y => eqb y x) l); reflexivity.
Qed.

Lemma serial_fresh {A} (key : A -> Z) (s : Z) (l : list A) :
  forallb (fun x => wf.serial s (key x)) l = true ->
  existsb (fun y => y =? s + 1) (map key l) = false.
Proof.
  intros F. apply not_true_is_false. intros E.
  apply existsb_exists in E. destruct E as (k & I & K).
  apply in_map_iff in I. destruct I as (x & <- & I).
  rewrite forallb_forall in F. specialize (F x I).
  unfold wf.serial in F. rewrite andb_true_iff in F.
  apply Z.eqb_eq in K. destruct F as [_ Q]. apply Z.leb_le in Q. lia.
Qed.

Lemma distinct_filter {A B} (eqb : B -> B -> bool) (key : A -> B) (p : A -> bool)
    (l : list A) :
  wf.distinct eqb (map key l) = true ->
  wf.distinct eqb (map key (filter p l)) = true.
Proof.
  induction l as [|x l IH]; simpl; [reflexivity|].
  rewrite andb_true_iff, negb_true_iff. intros [N D].
  destruct (p x); simpl; [|auto].
  rewrite (IH D), andb_true_r, negb_true_iff.
  apply not_true_is_false. intros E. apply existsb_exists in E.
  destruct E as (k & I & K). apply in_map_iff in I. destruct I as (y & <- & I).
  apply filter_In in I. destruct I as [I _].
  assert (existsb (eqb (key x)) (map key l) = true); [|congruence].
  apply existsb_exists. exists (key y). split; [apply in_map; exact I|exact K].
Qed.

Lemma map_key_ext {A B} (key : A -> B) (f : A -> A) (l : list A) :
  (forall x, key (f x) = key x) -> map key (map f l) = map key l.
Proof. intros K. rewrite map_map. apply map_ext. exact K. Qed.

Lemma forallb_map_keep {A} (p : A -> bool) (f : A -> A) (l : list A) :
  (forall x, In x l -> p x = true -> p (f x) = true) ->
  forallb p l = true -> forallb p (map f l) = true.
Proof.
  rewrite !forallb_forall. intros K F y I.
  apply in_map_iff in I. destruct I as (x & <- & I). auto.
Qed.

Lemma forallb_filter_keep {A} (p : A -> bool) (q : A -> bool) (l : list A) :
  forallb p l = true -> forallb p (filter q l) = true.
Proof.
  rewrite !forallb_forall. intros F x I. apply filter_In in I. apply F, I.
Qed.

(** The checks of one table read only what the table refers to. *)
Lemma users_ok_ext db db' :
  users db' = users db -> users_id_seq db' = users_id_seq db ->
  wf.users_ok db' = wf.users_ok db.
Proof. unfold wf.users_ok. intros -> ->. reflexivity. Qed.

Lemma events_ok_ext db db' :
  users db' = users db -> events db' = events db ->
  events_id_seq db' = events_id_seq db ->
  wf.events_ok db' = wf.events_ok db.
Proof. unfold wf.events_ok, hasUser. intros -> -> ->. reflexivity. Qed.

Lemma attendees_ok_ext db db' :
  users db' = users db -> events db' = events db ->
  event_attendees db' = event_attendees db ->
  event_attendees_id_seq db' = event_attendees_id_seq db ->
  wf.attendees_ok db' = wf.attendees_ok db.
Proof. unfold wf.attendees_ok, hasUser, hasEvent. intros -> -> -> ->. reflexivity. Qed.

Lemma invitations_ok_ext db db' :
  events db' = events db -> invitations db' = invitations db ->
  invitations_id_seq db' = invitations_id_seq db ->
  wf.invitations_ok db' = wf.invitations_ok db.
Proof. unfold wf.invitations_ok, hasEvent. intros -> -> ->. reflexivity. Qed.

(** A sequence that has moved on. *)
Lemma wf_nextval_users db :
  wf.holds db -> wf.holds (set_users_id_seq (users_id_seq db + 1) db).
Proof.
  intros W. pose proof (wf_users db W) as (S & _).
  apply wf_tables in W. destruct W as (U & E & A & V). apply wf_tables.
  split; [|split; [|split]]; try assumption.
  unfold wf.users_ok in *. cbn [users users_id_seq set_users_id_seq].
  rewrite !andb_true_iff in *. destruct U as (((_ & F) & D) & M).
  repeat split; try assumption; [apply Z.leb_le; lia|].
  apply (forallb_serial_mono User.ID (users_id_seq db)); [lia|exact F].
Qed.

Lemma wf_nextval_events db :
  wf.holds db -> wf.holds (set_events_id_seq (events_id_seq db + 1) db).
Proof.
  intros W. pose proof (wf_events db W) as (S & _).
  apply wf_tables in W. destruct W as (U & E & A & V). apply wf_tables.
  split; [|split; [|split]]; try assumption.
  unfold wf.events_ok in *. cbn [events events_id_seq set_events_id_seq].
  rewrite !andb_true_iff in *. destruct E as (((_ & F) & D) & R).
  repeat split; try assumption; [apply Z.leb_le; lia|].
  apply (forallb_serial_mono Event.ID (events_id_seq db)); [lia|exact F].
Qed.

Lemma wf_nextval_attendees db :
  wf.holds db ->
  wf.holds (set_event_attendees_id_seq (event_attendees_id_seq db + 1) db).
Proof.
  intros W. pose proof (wf_attendees db W) as (S & _).
  apply wf_tables in W. destruct W as (U & E & A & V). apply wf_tables.
  split; [|split; [|split]]; try assumption.
  unfold wf.attendees_ok in *.
  cbn [event_attendees event_attendees_id_seq set_event_attendees_id_seq].
  rewrite !andb_true_iff in *. destruct A as (((((_ & F) & D) & P) & R) & C).
  repeat split; try assumption; [apply Z.leb_le; lia|].
  apply (forallb_serial_mono EventAttendee.ID (event_attendees_id_seq db)); [lia|exact F].
Qed.

Lemma wf_nextval_invitations db :
  wf.holds db -> wf.holds (set_invitations_id_seq (invitations_id_seq db + 1) db).
Proof.
  intros W. pose proof (wf_invitations db W) as (S & _).
  apply wf_tables in W. destruct W as (U & E & A & V). apply wf_tables.
  split; [|split; [|split]]; try assumption.
  unfold wf.invitations_ok in *.
  cbn [invitations invitations_id_seq set_invitations_id_seq].
  rewrite !andb_true_iff in *. destruct V as (((_ & F) & D) & R).
  repeat split; try assumption; [apply Z.leb_le; lia|].
  apply (forallb_serial_mono Invitation.ID (invitations_id_seq db)); [lia|exact F].
Qed.

End Invariant.

Section Mutations.
Import pg sql.

Lemma existsb_map {A B} (f : B -> bool) (g : A -> B) (l : list A) :
  existsb f (map g l) = existsb (fun x => f (g x)) l.
Proof. induction l as [|x l IH]; simpl; [reflexivity|]. rewrite IH. reflexivity. Qed.

Lemma forallb_impl {A} (p q : A -> bool) (l : list A) :
  (forall x, In x l -> p x = true -> q x = true) ->
  forallb p l = true -> forallb q l = true.
Proof. rewrite !forallb_forall. intros K F x I. auto. Qed.

Lemma existsb_snoc_keep {A} (f : A -> bool) (l : list A) (x : A) :
  existsb f l = true -> existsb f (l ++ [x]) = true.
Proof. intros E. rewrite existsb_app, E. reflexivity. Qed.

(** A row added to [event_attendees] that passes the constraints. *)
Lemma wf_insert_attendee db user_id event_id role status created_at :
  wf.holds db ->
  roleCheck role = true -> statusCheck status = true ->
  hasAttendee user_id event_id db = false ->
  hasUser user_id db = true -> hasEvent event_id db = true ->
  wf.holds
    (set_event_attendees
       (event_attendees db
        ++ [EventAttendee.mk (event_attendees_id_seq db + 1) user_id event_id
                             role status created_at])%list
       (set_event_attendees_id_seq (event_attendees_id_seq db + 1) db)).
Proof.
  intros W R S N HU HE.
  pose proof (wf_nextval_attendees db W) as W1.
  apply wf_tables in W1. destruct W1 as (U & E & A & V).
  apply wf_tables in W. destruct W as (_ & _ & A0 & _).
  apply wf_tables. split; [exact U|]. split; [exact E|]. split; [|exact V].
  unfold wf.attendees_ok in *. unfold hasUser, hasEvent in *.
  cbn [users events event_attendees event_attendees_id_seq set_event_attendees
         set_event_attendees_id_seq] in *.
  rewrite !andb_true_iff in *.
  destruct A as (((((S1 & F1) & D) & P) & Rf) & C).
  destruct A0 as (((((S0 & F0) & _) & _) & _) & _).
  rewrite !forallb_app, !map_app. cbn [map forallb].
  rewrite !distinct_snoc, !andb_true_iff, !negb_true_iff.
  cbn [EventAttendee.ID EventAttendee.UserID EventAttendee.EventID EventAttendee.Role
         EventAttendee.Status].
  repeat split; try assumption; try reflexivity.
  - apply Z.leb_le in S0. unfold wf.serial.
    apply andb_true_iff. split; [apply Z.ltb_lt|apply Z.leb_le]; lia.
  - exact (serial_fresh EventAttendee.ID _ _ F0).
  - rewrite existsb_map. exact N.
Qed.

(** A row added to [events] whose organizer exists. *)
Lemma wf_insert_event db title description date time_ location organizer created_at :
  wf.holds db ->
  hasUser organizer db = true ->
  wf.holds
    (set_events
       (events db
        ++ [Event.mk (events_id_seq db + 1) title description date time_ location
                     organizer created_at])%list
       (set_events_id_seq (events_id_seq db + 1) db)).
Proof.
  intros W HU.
  pose proof (wf_nextval_events db W) as W1.
  apply wf_tables in W1. destruct W1 as (U & E & A & V).
  apply wf_tables in W. destruct W as (_ & E0 & _ & _).
  apply wf_tables. split; [exact U|]. split; [|split].
  - unfold wf.events_ok in *. unfold hasUser in *.
    cbn [users events events_id_seq set_events set_events_id_seq] in *.
    rewrite !andb_true_iff in *.
    destruct E as (((S1 & F1) & D) & Rf). destruct E0 as (((S0 & F0) & _) & _).
    rewrite !forallb_app, !map_app. cbn [map forallb].
    rewrite !distinct_snoc, !andb_true_iff, !negb_true_iff.
    cbn [Event.ID Event.OrganizerID].
    repeat split; try assumption; try reflexivity.
    + apply Z.leb_le in S0. unfold wf.serial.
      apply andb_true_iff. split; [apply Z.ltb_lt|apply Z.leb_le]; lia.
    + exact (serial_fresh Event.ID _ _ F0).
  - unfold wf.attendees_ok in *. unfold hasUser, hasEvent in *.
    cbn [users events event_attendees event_attendees_id_seq set_events
           set_events_id_seq] in *.
    rewrite !andb_true_iff in *.
    destruct A as (((((S1 & F1) & D) & P) & Rf) & C).
    repeat split; try assumption.
    revert Rf. apply forallb_impl. intros a _ K.
    apply andb_true_iff in K. destruct K as [K1 K2].
    rewrite K1. apply existsb_snoc_keep. exact K2.
  - unfold wf.invitations_ok in *. unfold hasEvent in *.
    cbn [events invitations invitations_id_seq set_events set_events_id_seq] in *.
    rewrite !andb_true_iff in *.
    destruct V as (((S1 & F1) & D) & Rf).
    repeat split; try assumption.
    revert Rf. apply forallb_impl. intros i _ K. apply existsb_snoc_keep. exact K.
Qed.

(** A row added to [users] with an email no user has. *)
Lemma wf_insert_user db email hash created_at :
  wf.holds db ->
  existsb (fun u => (User.Email u =? email)%string) (users db) = false ->
  wf.holds
    (set_users
       (users db ++ [User.mk (users_id_seq db + 1) email hash created_at])%list
       (set_users_id_seq (users_id_seq db + 1) db)).
Proof.
  intros W N.
  pose proof (wf_nextval_users db W) as W1.
  apply wf_tables in W1. destruct W1 as (U & E & A & V).
  apply wf_tables in W. destruct W as (U0 & _ & _ & _).
  apply wf_tables. split; [|split; [|split]].
  - unfold wf.users_ok in *.
    cbn [users users_id_seq set_users set_users_id_seq] in *.
    rewrite !andb_true_iff in *.
    destruct U as (((S1 & F1) & D) & M). destruct U0 as (((S0 & F0) & _) & _).
    rewrite !forallb_app, !map_app. cbn [map forallb].
    rewrite !distinct_snoc, !andb_true_iff, !negb_true_iff.
    cbn [User.ID User.Email].
    repeat split; try assumption; try reflexivity.
    + apply Z.leb_le in S0. unfold wf.serial.
      apply andb_true_iff. split; [apply Z.ltb_lt|apply Z.leb_le]; lia.
    + exact (serial_fresh User.ID _ _ F0).
    + rewrite existsb_map. exact N.
  - unfold wf.events_ok in *. unfold hasUser in *.
    cbn [users events events_id_seq set_users set_users_id_seq] in *.
    rewrite !andb_true_iff in *. destruct E as (((S1 & F1) & D) & Rf).
    repeat split; try assumption.
    revert Rf. apply forallb_impl. intros e _ K. apply existsb_snoc_keep. exact K.
  - unfold wf.attendees_ok in *. unfold hasUser, hasEvent in *.
    cbn [users events event_attendees event_attendees_id_seq set_users
           set_users_id_seq] in *.
    rewrite !andb_true_iff in *.
    destruct A as (((((S1 & F1) & D) & P) & Rf) & C).
    repeat split; try assumption.
    revert Rf. apply forallb_impl. intros a _ K.
    apply andb_true_iff in K. destruct K as [K1 K2].
    rewrite K2, andb_true_r. apply existsb_snoc_keep. exact K1.
  - exact V.
Qed.

(** A row added to [invitations] whose event exists. *)
Lemma wf_insert_invitation db event_id inviter email invitee role status message
    created_at responded_at :
  wf.holds db ->
  hasEvent event_id db = true ->
  wf.holds
    (set_invitations
       (invitations db
        ++ [Invitation.mk (invitations_id_seq db + 1) event_id inviter email invitee
                          role status message created_at responded_at])%list
       (set_invitations_id_seq (invitations_id_seq db + 1) db)).
Proof.
  intros W HE.
  pose proof (wf_nextval_invitations db W) as W1.
  apply wf_tables in W1. destruct W1 as (U & E & A & V).
  apply wf_tables in W. destruct W as (_ & _ & _ & V0).
  apply wf_tables. split; [exact U|]. split; [exact E|]. split; [exact A|].
  unfold wf.invitations_ok in *. unfold hasEvent in *.
  cbn [events invitations invitations_id_seq set_invitations set_invitations_id_seq] in *.
  rewrite !andb_true_iff in *.
  destruct V as (((S1 & F1) & D) & Rf). destruct V0 as (((S0 & F0) & _) & _).
  rewrite !forallb_app, !map_app. cbn [map forallb].
  rewrite !distinct_snoc, !andb_true_iff, !negb_true_iff.
  cbn [Invitation.ID Invitation.EventID].
  repeat split; try assumption; try reflexivity.
  - apply Z.leb_le in S0. unfold wf.serial.
    apply andb_true_iff. split; [apply Z.ltb_lt|apply Z.leb_le]; lia.
  - exact (serial_fresh Invitation.ID _ _ F0).
Qed.

End Mutations.

Section Rewrites.
Import pg sql.

Lemma existsb_map_key {A} (key : A -> Z) (f : A -> A) (k : Z) (l : list A) :
  (forall x, key (f x) = key x) ->
  existsb (fun x => key x =? k) (map f l) = existsb (fun x => key x =? k) l.
Proof.
  intros K. induction l as [|x l IH]; simpl; [reflexivity|].
  rewrite K, IH. reflexivity.
Qed.

Lemma existsb_filter_other {A} (key : A -> Z) (id k : Z) (l : list A) :
  k <> id ->
  existsb (fun x => key x =? k) (filter (fun x => negb (key x =? id)) l)
  = existsb (fun x => key x =? k) l.
Proof.
  intros N. induction l as [|x l IH]; simpl; [reflexivity|].
  destruct (Z.eqb_spec (key x) id) as [E|_]; simpl.
  - rewrite IH. destruct (Z.eqb_spec (key x) k); [congruence|reflexivity].
  - rewrite IH. reflexivity.
Qed.

(** The rows of [events] rewritten with their identifiers and organizers
    kept. *)
Lemma wf_map_events db f :
  (forall e, Event.ID (f e) = Event.ID e) ->
  (forall e, Event.OrganizerID (f e) = Event.OrganizerID e) ->
  wf.holds db -> wf.holds (set_events (map f (events db)) db).
Proof.
  intros KI KO W. apply wf_tables in W. destruct W as (U & E & A & V).
  apply wf_tables. split; [exact U|]. split; [|split].
  - unfold wf.events_ok in *. unfold hasUser in *.
    cbn [users events events_id_seq set_events] in *.
    rewrite !andb_true_iff in *. destruct E as (((S & F) & D) & R).
    rewrite (map_key_ext Event.ID f _ KI).
    repeat split; try assumption.
    + revert F. apply forallb_map_keep. intros e _. rewrite KI. auto.
    + revert R. apply forallb_map_keep. intros e _. rewrite KO. auto.
  - unfold wf.attendees_ok in *. unfold hasUser, hasEvent in *.
    cbn [users events event_attendees event_attendees_id_seq set_events] in *.
    rewrite !andb_true_iff in *.
    destruct A as (((((S & F) & D) & P) & R) & C).
    repeat split; try assumption.
    revert R. apply forallb_impl. intros a _.
    rewrite (existsb_map_key Event.ID f _ _ KI). auto.
  - unfold wf.invitations_ok in *. unfold hasEvent in *.
    cbn [events invitations invitations_id_seq set_events] in *.
    rewrite !andb_true_iff in *. destruct V as (((S & F) & D) & R).
    repeat split; try assumption.
    revert R. apply forallb_impl. intros i _.
    rewrite (existsb_map_key Event.ID f _ _ KI). auto.
Qed.

(** An event deleted together with the rows that reference it. *)
Lemma wf_delete_event db eventID :
  wf.holds db ->
  wf.holds
    (set_invitations
       (filter (fun i => negb (Invitation.EventID i =? eventID)) (invitations db))
       (set_event_attendees
          (filter (fun a => negb (EventAttendee.EventID a =? eventID))
                  (event_attendees db))
          (set_events
             (filter (fun e => negb (Event.ID e =? eventID)) (events db)) db))).
Proof.
  intros W. apply wf_tables in W. destruct W as (U & E & A & V).
  apply wf_tables. split; [exact U|]. split; [|split].
  - unfold wf.events_ok in *. unfold hasUser in *.
    cbn [users events events_id_seq set_events set_event_attendees set_invitations] in *.
    rewrite !andb_true_iff in *. destruct E as (((S & F) & D) & R).
    repeat split; try assumption.
    + apply forallb_filter_keep. exact F.
    + apply distinct_filter. exact D.
    + apply forallb_filter_keep. exact R.
  - unfold wf.attendees_ok in *. unfold hasUser, hasEvent in *.
    cbn [users events event_attendees event_attendees_id_seq set_events
           set_event_attendees set_invitations] in *.
    rewrite !andb_true_iff in *.
    destruct A as (((((S & F) & D) & P) & R) & C).
    repeat split; try assumption.
    + apply forallb_filter_keep. exact F.
    + apply distinct_filter. exact D.
    + apply distinct_filter. exact P.
    + rewrite forallb_forall in *. intros a I. apply filter_In in I.
      destruct I as [I K]. apply negb_true_iff, Z.eqb_neq in K.
      rewrite (existsb_filter_other Event.ID eventID _ _ K). apply R, I.
    + apply forallb_filter_keep. exact C.
  - unfold wf.invitations_ok in *. unfold hasEvent in *.
    cbn [events invitations invitations_id_seq set_events set_event_attendees
           set_invitations] in *.
    rewrite !andb_true_iff in *. destruct V as (((S & F) & D) & R).
    repeat split; try assumption.
    + apply forallb_filter_keep. exact F.
    + apply distinct_filter. exact D.
    + rewrite forallb_forall in *. intros i I. apply filter_In in I.
      destruct I as [I K]. apply negb_true_iff, Z.eqb_neq in K.
      rewrite (existsb_filter_other Event.ID eventID _ _ K). apply R, I.
Qed.

(** The rows of [event_attendees] rewritten with only their status
    changed, to statuses the check admits. *)
Lemma wf_map_attendees db f :
  (forall a, EventAttendee.ID (f a) = EventAttendee.ID a) ->
  (forall a, EventAttendee.UserID (f a) = EventAttendee.UserID a) ->
  (forall a, EventAttendee.EventID (f a) = EventAttendee.EventID a) ->
  (forall a, EventAttendee.Role (f a) = EventAttendee.Role a) ->
  (forall a, In a (event_attendees db) ->
             statusCheck (EventAttendee.Status a) = true ->
             statusCheck (EventAttendee.Status (f a)) = true) ->
  wf.holds db -> wf.holds (set_event_attendees (map f (event_attendees db)) db).
Proof.
  intros KI KU KE KR KS W. apply wf_tables in W. destruct W as (U & E & A & V).
  apply wf_tables. split; [exact U|]. split; [exact E|]. split; [|exact V].
  unfold wf.attendees_ok in *. unfold hasUser, hasEvent in *.
  cbn [users events event_attendees event_attendees_id_seq set_event_attendees] in *.
  rewrite !andb_true_iff in *.
  destruct A as (((((S & F) & D) & P) & R) & C).
  rewrite (map_key_ext EventAttendee.ID f _ KI).
  rewrite (map_key_ext (fun a => (EventAttendee.UserID a, EventAttendee.EventID a)) f)
    by (intros a; rewrite KU, KE; reflexivity).
  repeat split; try assumption.
  - revert F. apply forallb_map_keep. intros a _. rewrite KI. auto.
  - revert R. apply forallb_map_keep. intros a _. rewrite KU, KE. auto.
  - revert C. apply forallb_map_keep. intros a I. rewrite KR, !andb_true_iff.
    intros [Ro St]. split; [exact Ro|]. apply KS; assumption.
Qed.

(** The rows of [invitations] rewritten with their identifiers and events
    kept. *)
Lemma wf_map_invitations db f :
  (forall i, Invitation.ID (f i) = Invitation.ID i) ->
  (forall i, Invitation.EventID (f i) = Invitation.EventID i) ->
  wf.holds db -> wf.holds (set_invitations (map f (invitations db)) db).
Proof.
  intros KI KE W. apply wf_tables in W. destruct W as (U & E & A & V).
  apply wf_tables. split; [exact U|]. split; [exact E|]. split; [exact A|].
  unfold wf.invitations_ok in *. unfold hasEvent in *.
  cbn [events invitations invitations_id_seq set_invitations] in *.
  rewrite !andb_true_iff in *. destruct V as (((S & F) & D) & R).
  rewrite (map_key_ext Invitation.ID f _ KI).
  repeat split; try assumption.
  - revert F. apply forallb_map_keep. intros i _. rewrite KI. auto.
  - revert R. apply forallb_map_keep. intros i _. rewrite KE. auto.
Qed.

End Rewrites.

Section Preservation.
Import pg sql.

Lemma preserves_ret {A} (a : A) : preserves (ret a).
Proof. intros db r db' W E. injection E as _ <-. exact W. Qed.

Lemma preserves_fail {A} (e : error) : preserves (@fail A e).
Proof. intros db r db' W E. injection E as _ <-. exact W. Qed.

Lemma preserves_lift {A} (x : result A) : preserves (lift x).
Proof. intros db r db' W E. injection E as _ <-. exact W. Qed.

Lemma preserves_read {A} (f : DB -> A) : preserves (read f).
Proof. intros db r db' W E. injection E as _ <-. exact W. Qed.

Lemma preserves_roundTrip : preserves roundTrip.
Proof.
  intros db r db' W E. rewrite roundTrip_eq in E. injection E as _ <-. exact W.
Qed.

Lemma preserves_constraint holds e : preserves (constraint holds e).
Proof.
  intros db r db' W E. unfold constraint, ret, fail in E.
  destruct holds; injection E as _ <-; exact W.
Qed.

Lemma preserves_bind {A B} (m : M A) (k : A -> M B) :
  preserves m -> (forall a, preserves (k a)) -> preserves (bind m k).
Proof.
  intros Pm Pk db r db' W E. unfold bind in E.
  destruct (m db) as [[a|e] db1] eqn:R.
  - exact (Pk a db1 r db' (Pm db _ db1 W R) E).
  - injection E as _ <-. exact (Pm db _ db1 W R).
Qed.

Lemma preserves_onError {A} (f : error -> error) (m : M A) :
  preserves m -> preserves (onError f m).
Proof.
  intros Pm db r db' W E. unfold onError in E.
  destruct (m db) as [[a|e] db1] eqn:R; injection E as _ <-;
    exact (Pm db _ db1 W R).
Qed.

Lemma preserves_nextval_users : preserves (nextval users_id_seq set_users_id_seq).
Proof.
  intros db r db' W E. injection E as _ <-. apply wf_nextval_users, W.
Qed.

Lemma preserves_nextval_events : preserves (nextval events_id_seq set_events_id_seq).
Proof.
  intros db r db' W E. injection E as _ <-. apply wf_nextval_events, W.
Qed.

Lemma preserves_nextval_invitations :
  preserves (nextval invitations_id_seq set_invitations_id_seq).
Proof.
  intros db r db' W E. injection E as _ <-. apply wf_nextval_invitations, W.
Qed.

(** The statements that write. *)
Lemma preserves_insertAttendee user_id event_id role status :
  preserves (insertAttendee user_id event_id role status).
Proof.
  intros db r db' W E. rewrite insertAttendee_eq in E.
  destruct (served db); [|injection E as _ <-; exact W].
  cbn zeta in E.
  destruct (roleCheck role) eqn:R;
    [|injection E as _ <-; exact (wf_nextval_attendees db W)].
  destruct (statusCheck status) eqn:S;
    [|injection E as _ <-; exact (wf_nextval_attendees db W)].
  cbn [negb] in E.
  destruct (hasAttendee user_id event_id db) eqn:N;
    [injection E as _ <-; exact (wf_nextval_attendees db W)|].
  destruct (hasUser user_id db) eqn:HU;
    [|injection E as _ <-; exact (wf_nextval_attendees db W)].
  destruct (hasEvent event_id db) eqn:HE;
    [|injection E as _ <-; exact (wf_nextval_attendees db W)].
  injection E as _ <-.
  exact (wf_insert_attendee db user_id event_id role status (clock db) W R S N HU HE).
Qed.

Lemma preserves_CreateEvent event : preserves (event.Repository.CreateEvent event).
Proof.
  intros db r db' W E. rewrite Repository_CreateEvent_eq in E.
  destruct (served db); [|injection E as _ <-; exact W].
  cbn zeta in E.
  destruct (hasUser (Event.OrganizerID event) db) eqn:HU; injection E as _ <-.
  - exact (wf_insert_event db _ _ _ _ _ _ _ W HU).
  - exact (wf_nextval_events db W).
Qed.

Lemma preserves_setColumns eventID cur :
  preserves
    (write (fun db =>
              set_events
                (map (fun e => if Event.ID e =? eventID
                               then event.Repository.setColumns cur e else e)
                     (events db))
                db)).
Proof.
  intros db r db' W E. injection E as _ <-.
  apply wf_map_events; [| |exact W]; intros e;
    destruct (Event.ID e =? eventID); reflexivity.
Qed.

Lemma preserves_cascade eventID :
  preserves
    (write (fun db =>
              set_invitations
                (filter (fun i => negb (Invitation.EventID i =? eventID))
                        (invitations db))
                (set_event_attendees
                   (filter (fun a => negb (EventAttendee.EventID a =? eventID))
                           (event_attendees db))
                   (set_events
                      (filter (fun e => negb (Event.ID e =? eventID)) (events db))
                      db)))).
Proof.
  intros db r db' W E. injection E as _ <-. apply wf_delete_event, W.
Qed.

Lemma preserves_respond invitationID status at_ :
  preserves
    (write (fun db =>
              set_invitations
                (map (fun i => if Invitation.ID i =? invitationID
                               then invitation.respond status at_ i else i)
                     (invitations db))
                db)).
Proof.
  intros db r db' W E. injection E as _ <-.
  apply wf_map_invitations; [| |exact W]; intros i;
    destruct (Invitation.ID i =? invitationID); reflexivity.
Qed.

Lemma preserves_UpdateAttendanceStatus userID eventID status :
  preserves (event.Repository.UpdateAttendanceStatus userID eventID status).
Proof.
  intros db r db' W E.
  unfold event.Repository.UpdateAttendanceStatus, bind, onError, read, write,
    constraint, ret, fail in E.
  rewrite roundTrip_eq in E.
  destruct (served db); [|injection E as _ <-; exact W].
  change (event_attendees (trip db)) with (event_attendees db) in E.
  set (hit := fun a => (EventAttendee.UserID a =? userID)
                       && (EventAttendee.EventID a =? eventID)) in *.
  destruct (Nat.eqb (length (filter hit (event_attendees db))) 0
            || statusCheck status) eqn:C;
    [|injection E as _ <-; exact W].
  assert (W' : wf.holds
                 (set_event_attendees
                    (map (fun a =>
                            if hit a
                            then EventAttendee.mk (EventAttendee.ID a)
                                   (EventAttendee.UserID a) (EventAttendee.EventID a)
                                   (EventAttendee.Role a) status
                                   (EventAttendee.CreatedAt a)
                            else a)
                         (event_attendees db))
                    db)).
  { apply wf_map_attendees; try exact W;
      try (intros a; destruct (hit a); reflexivity).
    intros a I St. destruct (hit a) eqn:Ha; [|exact St].
    cbn [EventAttendee.Status].
    apply orb_true_iff in C. destruct C as [C|C]; [|exact C].
    apply Nat.eqb_eq in C.
    assert (In a (filter hit (event_attendees db))) as I'
      by (apply filter_In; split; assumption).
    destruct (filter hit (event_attendees db)); [destruct I'|discriminate C]. }
  destruct (Nat.eqb (length (filter hit (event_attendees db))) 0);
    injection E as _ <-; exact W'.
Qed.

End Preservation.

Section Services.
Import pg sql.
Context `{time.Pkg} `{bcrypt.Pkg} `{jwt.Pkg} `{os.Env} `{strings.Pkg}.

Lemma preserves_insertUser email hash :
  preserves
    (roundTrip ;;
     id <- nextval users_id_seq set_users_id_seq ;;
     created_at <- now ;;
     rows <- read users ;;
     constraint
       (negb (existsb (fun u => (User.Email u =? email)%string) rows))
       (UniqueViolation "users_email_key") ;;
     let u := User.mk id email hash created_at in
     write (fun db => set_users (users db ++ [u])%list db) ;;
     ret u).
Proof.
  intros db r db' W E.
  unfold bind, nextval, now, read, write, constraint, ret, fail in E.
  rewrite roundTrip_eq in E.
  destruct (served db); [|injection E as _ <-; exact W].
  cbn [users users_id_seq clock trip set_faults set_users_id_seq] in E.
  destruct (existsb (fun u => (User.Email u =? email)%string) (users db)) eqn:N;
    cbn [negb] in E; injection E as _ <-.
  - exact (wf_nextval_users db W).
  - exact (wf_insert_user db email hash (clock db) W N).
Qed.

Lemma preserves_SendInvitation invitation_ :
  preserves (invitation.Repository.SendInvitation invitation_).
Proof.
  intros db r db' W E.
  unfold invitation.Repository.SendInvitation, onError, bind, nextval, now, read,
    write, constraint, ret, fail in E.
  rewrite roundTrip_eq in E.
  destruct (served db); [|injection E as _ <-; exact W].
  cbn [invitations invitations_id_seq clock trip set_faults set_invitations_id_seq] in E.
  change (hasEvent (Invitation.EventID invitation_)
            (set_invitations_id_seq (invitations_id_seq db + 1) (trip db)))
    with (hasEvent (Invitation.EventID invitation_) db) in E.
  destruct (hasEvent (Invitation.EventID invitation_) db) eqn:HE;
    injection E as _ <-.
  - exact (wf_insert_invitation db _ _ _ _ _ _ _ _ _ W HE).
  - exact (wf_nextval_invitations db W).
Qed.

Lemma preserves_GetUserIDByEmail email :
  preserves (invitation.Repository.GetUserIDByEmail email).
Proof.
  intros db r db' W E.
  unfold invitation.Repository.GetUserIDByEmail, bind, read, queryRow, ret, fail in E.
  rewrite roundTrip_eq in E.
  destruct (served db);
    [destruct (filter _ (users (trip db)))|]; injection E as _ <-; exact W.
Qed.

Ltac preserve :=
  repeat first
    [ apply preserves_ret | apply preserves_fail | apply preserves_lift
    | apply preserves_read | apply preserves_roundTrip | apply preserves_constraint
    | apply preserves_insertAttendee | apply preserves_CreateEvent
    | apply preserves_setColumns | apply preserves_cascade | apply preserves_respond
    | apply preserves_UpdateAttendanceStatus | apply preserves_insertUser
    | apply preserves_SendInvitation | apply preserves_GetUserIDByEmail
    | apply preserves_onError
    | apply preserves_bind; [|intro]
    | match goal with
      | |- preserves (match ?x with _ => _ end) => destruct x
      | |- preserves (let _ := _ in _) => cbv zeta
      end ].

(** X1. The store stays well formed. The empty store is well formed, and every
    method of the three services, and the repository methods the invitation
    service has for sending, keep a well-formed store well formed, whether
    they succeed or fail. *)
Theorem well_formed_stores_stay_so :
  (forall now, wf.holds (pg.empty now))
  /\ (forall req organizerID, preserves (event.Service.CreateEvent req organizerID))
  /\ (forall eventID, preserves (event.Service.GetEventByID eventID))
  /\ preserves event.Service.GetAllEvents
  /\ (forall organizerID, preserves (event.Service.GetEventsByOrganizerID organizerID))
  /\ (forall eventID req organizerID,
        preserves (event.Service.UpdateEvent eventID req organizerID))
  /\ (forall eventID organizerID,
        preserves (event.Service.DeleteEvent eventID organizerID))
  /\ (forall userID eventID, preserves (event.Service.JoinEvent userID eventID))
  /\ (forall userID, preserves (event.Service.GetMyAttendingEvents userID))
  /\ (forall eventID inviterID req,
        preserves (event.Service.InviteUserToEvent eventID inviterID req))
  /\ (forall userID eventID status,
        preserves (event.Service.UpdateAttendanceStatus userID eventID status))
  /\ (forall eventID, preserves (event.Service.GetEventAttendees eventID))
  /\ (forall organizerID, preserves (event.Service.GetMyOrganizedEvents organizerID))
  /\ (forall email, preserves (invitation.Service.GetMyInvitations email))
  /\ (forall eventID, preserves (invitation.Service.GetEventInvitations eventID))
  /\ (forall invitationID status userEmail,
        preserves (invitation.Service.RespondToInvitation invitationID status userEmail))
  /\ (forall invitation_, preserves (invitation.Repository.SendInvitation invitation_))
  /\ (forall email, preserves (invitation.Repository.GetUserIDByEmail email))
  /\ (forall req, preserves (auth.Service.Register req))
  /\ (forall req, preserves (auth.Service.Login req))
  /\ (forall req inviterID, preserves (invitation.Service.SendInvitation req inviterID)).
Proof.
  split; [intros now; reflexivity|].
  repeat split; intros.
  - unfold event.Service.CreateEvent, event.Service.validateFutureEvent,
      event.Service.Now, event.Repository.AddOrganizerAsAttendee. preserve.
  - unfold event.Service.GetEventByID, event.Repository.GetEventByID, queryRow. preserve.
  - unfold event.Service.GetAllEvents, event.Repository.GetAllEvents. preserve.
  - unfold event.Service.GetEventsByOrganizerID, event.Repository.GetEventsByOrganizerID.
    preserve.
  - unfold event.Service.UpdateEvent, event.Repository.UpdateEvent,
      event.Repository.GetEventByID, event.Service.validateFutureEvent,
      event.Service.Now, queryRow. preserve.
  - unfold event.Service.DeleteEvent, event.Repository.DeleteEvent,
      event.Repository.GetEventByID, queryRow. preserve.
  - unfold event.Service.JoinEvent, event.Repository.JoinEvent,
      event.Repository.GetEventByID, queryRow. preserve.
  - unfold event.Service.GetMyAttendingEvents, event.Repository.GetEventsByAttendeeID.
    preserve.
  - unfold event.Service.InviteUserToEvent, event.Repository.AddAttendee,
      event.Repository.GetEventByID, queryRow. preserve.
  - unfold event.Service.UpdateAttendanceStatus. preserve.
  - unfold event.Service.GetEventAttendees, event.Repository.GetEventAttendees. preserve.
  - unfold event.Service.GetMyOrganizedEvents, event.Repository.GetMyOrganizedEvents.
    preserve.
  - unfold invitation.Service.GetMyInvitations, invitation.Repository.GetInvitationsByEmail.
    preserve.
  - unfold invitation.Service.GetEventInvitations,
      invitation.Repository.GetInvitationsByEventID. preserve.
  - unfold invitation.Service.RespondToInvitation,
      invitation.Repository.GetInvitationByID,
      invitation.Repository.UpdateInvitationStatus, queryRow. preserve.
  - preserve.
  - preserve.
  - unfold auth.Service.Register, auth.Service.generateToken, now. preserve.
  - unfold auth.Service.Login, auth.Service.generateToken, queryRow. preserve.
  - unfold invitation.Service.SendInvitation. preserve.
Qed.

End Services.

Lemma well_formed_stores_stay_so_witness :
  wf.holds (snd (event.Service.CreateEvent example.picnic 2 example.db0))
  /\ wf.holds (snd (event.Service.DeleteEvent 1 1 example.db1))
  /\ wf.holds (snd (auth.Service.Register
                      (RegisterRequest.mk "bob@example.com" "builder") example.db0)).
Proof.
  destruct well_formed_stores_stay_so
    as (_ & Create & _ & _ & _ & _ & Delete & _ & _ & _ & _ & _ & _ & _ & _ & _ & _
        & _ & Register & _).
  split; [|split].
  - exact (Create example.picnic 2 example.db0 _ _ eq_refl (surjective_pairing _)).
  - exact (Delete 1 1 example.db1 _ _ eq_refl (surjective_pairing _)).
  - exact (Register (RegisterRequest.mk "bob@example.com" "builder") example.db0
             _ _ eq_refl (surjective_pairing _)).
Defined.

(** ** Listings *)

Section Ordering.
Import pg sql.

Lemma insertDesc_perm {A} (key : A -> Z) (x : A) (l : list A) :
  Permutation (insertDesc key x l) (x :: l).
Proof.
  induction l as [|y l IH]; simpl; [reflexivity|].
  destruct (key y <=? key x); [reflexivity|].
  rewrite IH. apply perm_swap.
Qed.

Lemma orderByDesc_perm {A} (key : A -> Z) (rows : list A) :
  Permutation (orderByDesc key rows) rows.
Proof.
  induction rows as [|x rows IH]; simpl; [reflexivity|].
  rewrite insertDesc_perm. apply perm_skip, IH.
Qed.

Lemma insertDesc_descending {A} (key : A -> Z) (x : A) (l : list A) :
  descending key l -> descending key (insertDesc key x l).
Proof.
  unfold descending. induction l as [|y l IH]; simpl; intros S.
  - constructor; constructor.
  - destruct (Z.leb_spec (key y) (key x)) as [L|G].
    + constructor; [exact S|].
      apply StronglySorted_inv in S. destruct S as [_ F].
      constructor; [exact L|].
      rewrite Forall_forall in *. intros z I. specialize (F z I). lia.
    + apply StronglySorted_inv in S. destruct S as [S F].
      constructor; [apply IH, S|].
      rewrite Forall_forall in *. intros z I.
      apply (Permutation_in _ (insertDesc_perm key x l)) in I.
      destruct I as [<-|I]; [lia|apply F, I].
Qed.

Lemma orderByDesc_descending {A} (key : A -> Z) (rows : list A) :
  descending key (orderByDesc key rows).
Proof.
  induction rows as [|x rows IH]; simpl; [constructor|].
  apply insertDesc_descending, IH.
Qed.

Lemma elems_collect {A} (rows : list A) : elems (collect rows) = rows.
Proof. rewrite collect_rows. destruct rows; reflexivity. Qed.

End Ordering.

Section Listings.
Import pg sql event.

Lemma listed {A} (repo : M (slice A)) (rows : DB -> list A) (wrap : error -> error) :
  (forall db, repo db
              = if served db then (Ok (collect (rows db)), trip db)
                else (Err (wrap (Pg ConnFailure)), trip db)) ->
  forall db s db',
    bind repo (fun r => ret (orEmpty r)) db = (Ok s, db') ->
    served db = true /\ db' = trip db /\ s = Some (rows db).
Proof.
  intros R db s db'. unfold bind, ret. rewrite R.
  destruct (served db); [|discriminate].
  intros E; injection E as <- <-. repeat split.
  rewrite collect_rows. destruct (rows db); reflexivity.
Qed.

Lemma GetAllEvents_eq db :
  Repository.GetAllEvents db
  = if served db then (Ok (collect (orderByDesc Event.Date (events db))), trip db)
    else (Err (Wrap "failed to get events" (Pg ConnFailure)), trip db).
Proof.
  unfold Repository.GetAllEvents, onError, bind, read, ret. rewrite roundTrip_eq.
  destruct (served db); reflexivity.
Qed.

Lemma GetEventsByOrganizerID_eq organizerID db :
  Repository.GetEventsByOrganizerID organizerID db
  = if served db
    then (Ok (collect (orderByDesc Event.Date
                (filter (fun e => Event.OrganizerID e =? organizerID) (events db)))),
          trip db)
    else (Err (Wrap "failed to get organizer events" (Pg ConnFailure)), trip db).
Proof.
  unfold Repository.GetEventsByOrganizerID, onError, bind, read, ret.
  rewrite roundTrip_eq. destruct (served db); reflexivity.
Qed.

Lemma GetMyOrganizedEvents_eq organizerID db :
  Repository.GetMyOrganizedEvents organizerID db
  = if served db
    then (Ok (collect (orderByDesc Event.Date
                (filter (fun e => Event.OrganizerID e =? organizerID) (events db)))),
          trip db)
    else (Err (Wrap "failed to get organized events" (Pg ConnFailure)), trip db).
Proof.
  unfold Repository.GetMyOrganizedEvents, onError, bind, read, ret.
  rewrite roundTrip_eq. destruct (served db); reflexivity.
Qed.

Lemma GetEventAttendees_eq eventID db :
  Repository.GetEventAttendees eventID db
  = if served db
    then (Ok (collect (orderByDesc EventAttendee.CreatedAt
                (filter (fun a => EventAttendee.EventID a =? eventID)
                        (event_attendees db)))),
          trip db)
    else (Err (Wrap "failed to get event attendees" (Pg ConnFailure)), trip db).
Proof.
  unfold Repository.GetEventAttendees, onError, bind, read, ret.
  rewrite roundTrip_eq. destruct (served db); reflexivity.
Qed.

(** X2. The event listings are complete and ordered. [GetAllEvents], when
    it succeeds, returns every stored event exactly once, latest date
    first; [GetEventsByOrganizerID] and [GetMyOrganizedEvents] return in
    that order exactly the events of the organizer asked for; none of them
    changes a table. *)
Theorem event_listings_are_complete_and_ordered db :
  (forall s db',
     Service.GetAllEvents db = (Ok s, db') ->
     Permutation (elems s) (events db)
     /\ descending Event.Date (elems s)
     /\ same_tables db db')
  /\ (forall organizerID s db',
        Service.GetEventsByOrganizerID organizerID db = (Ok s, db')
        \/ Service.GetMyOrganizedEvents organizerID db = (Ok s, db') ->
        Permutation (elems s)
          (filter (fun e => Event.OrganizerID e =? organizerID) (events db))
        /\ (forall e, In e (elems s)
                      <-> In e (events db) /\ Event.OrganizerID e = organizerID)
        /\ descending Event.Date (elems s)
        /\ same_tables db db').
Proof.
  split.
  - intros s db' R.
    destruct (listed _ _ _ GetAllEvents_eq db s db' R) as (_ & -> & ->).
    cbn [elems]. split; [apply orderByDesc_perm|].
    split; [apply orderByDesc_descending|apply same_tables_trip].
  - intros organizerID s db' R.
    assert (E : db' = trip db
                /\ s = Some (orderByDesc Event.Date
                               (filter (fun e => Event.OrganizerID e =? organizerID)
                                       (events db)))).
    { destruct R as [R|R]; revert R.
      - unfold Service.GetEventsByOrganizerID.
        destruct (Z.leb_spec organizerID 0) as [|P]; [discriminate|].
        intros R.
        destruct (listed _ _ _ (GetEventsByOrganizerID_eq organizerID) db s db' R)
          as (_ & -> & ->). split; reflexivity.
      - unfold Service.GetMyOrganizedEvents.
        destruct (Z.leb_spec organizerID 0) as [|P]; [discriminate|].
        intros R.
        destruct (listed _ _ _ (GetMyOrganizedEvents_eq organizerID) db s db' R)
          as (_ & -> & ->). split; reflexivity. }
    destruct E as (-> & ->).
    cbn [elems]. split; [apply orderByDesc_perm|]. split.
    { intros e. split.
      - intros I. apply (Permutation_in _ (orderByDesc_perm _ _)) in I.
        apply filter_In in I. destruct I as [I K]. apply Z.eqb_eq in K. auto.
      - intros [I K]. apply (Permutation_in _ (Permutation_sym (orderByDesc_perm _ _))).
        apply filter_In. split; [exact I|]. apply Z.eqb_eq; exact K. }
    split; [apply orderByDesc_descending|apply same_tables_trip].
Qed.

(** X3. The attendees of an event are listed completely and in order.
    [GetEventAttendees], when it succeeds, returns exactly the rows of
    [event_attendees] for the event, each once, latest created first, and
    changes no table. *)
Theorem attendee_listing_is_complete_and_ordered eventID db s db' :
  Service.GetEventAttendees eventID db = (Ok s, db') ->
  Permutation (elems s)
    (filter (fun a => EventAttendee.EventID a =? eventID) (event_attendees db))
  /\ (forall a, In a (elems s)
                <-> In a (event_attendees db) /\ EventAttendee.EventID a = eventID)
  /\ descending EventAttendee.CreatedAt (elems s)
  /\ same_tables db db'.
Proof.
  unfold Service.GetEventAttendees.
  destruct (Z.leb_spec eventID 0) as [|P]; [discriminate|].
  intros R.
  destruct (listed _ _ _ (GetEventAttendees_eq eventID) db s db' R) as (S & -> & ->).
  cbn [elems]. split; [apply orderByDesc_perm|]. split.
  { intros a. split.
    - intros I. apply (Permutation_in _ (orderByDesc_perm _ _)) in I.
      apply filter_In in I. destruct I as [I K]. apply Z.eqb_eq in K. auto.
    - intros [I K]. apply (Permutation_in _ (Permutation_sym (orderByDesc_perm _ _))).
      apply filter_In. split; [exact I|]. apply Z.eqb_eq; exact K. }
  split; [apply orderByDesc_descending|apply same_tables_trip].
Qed.

End Listings.

Lemma event_listings_are_complete_and_ordered_witness :
  exists s,
    event.Service.GetAllEvents example.db0 = (Ok s, example.db0)
    /\ Permutation (elems s) (pg.events example.db0)
    /\ event.Service.GetMyOrganizedEvents 1 example.db0 = (Ok s, example.db0)
    /\ forall e, In e (elems s) -> Event.OrganizerID e = 1.
Proof.
  destruct (event_listings_are_complete_and_ordered example.db0) as (All & Mine).
  exists (Some [example.party]).
  assert (R : event.Service.GetAllEvents example.db0
              = (Ok (Some [example.party]), example.db0)) by reflexivity.
  split; [exact R|]. split; [apply (All _ _ R)|].
  assert (R' : event.Service.GetMyOrganizedEvents 1 example.db0
               = (Ok (Some [example.party]), example.db0)) by reflexivity.
  split; [exact R'|].
  intros e I. destruct (Mine 1 _ _ (or_intror R')) as (_ & Members & _).
  apply Members. exact I.
Defined.

Lemma attendee_listing_is_complete_and_ordered_witness :
  exists s,
    event.Service.GetEventAttendees 1 example.db0 = (Ok s, example.db0)
    /\ Permutation (elems s) (pg.event_attendees example.db0).
Proof.
  exists (Some (pg.event_attendees example.db0)).
  assert (R : event.Service.GetEventAttendees 1 example.db0
              = (Ok (Some (pg.event_attendees example.db0)), example.db0))
    by reflexivity.
  split; [exact R|].
  exact (proj1 (attendee_listing_is_complete_and_ordered 1 example.db0 _ _ R)).
Defined.

(** ** Reading back what was written *)

Section Created.
Import pg sql event.
Context `{time.Pkg}.

(** What a successful [CreateEvent] has done, in full. *)
Lemma CreateEvent_Ok_inv req organizerID db ev db' :
  Service.CreateEvent req organizerID db = (Ok ev, db') ->
  exists eventDate eventTime,
    requestPassed (clock db) req eventDate eventTime
    /\ served db = true
    /\ hasUser organizerID db = true
    /\ ev = Event.mk (events_id_seq db + 1) (CreateEventRequest.Title req)
                     (CreateEventRequest.Description req) eventDate eventTime
                     (CreateEventRequest.Location req) organizerID (clock db)
    /\ events db' = (events db ++ [ev])%list
    /\ event_attendees db'
       = (event_attendees db
          ++ [EventAttendee.mk (event_attendees_id_seq db + 1) organizerID
                               (events_id_seq db + 1) "organizer" "going" (clock db)])%list
    /\ users db' = users db
    /\ invitations db' = invitations db
    /\ clock db' = clock db
    /\ faults db' = tl (tl (faults db)).
Proof.
  intros R.
  destruct (CreateEvent_Ok_checked _ _ _ _ _ R) as (d & c & Acc).
  exists d, c. split; [exact Acc|].
  rewrite (CreateEvent_eq _ organizerID _ _ _ Acc), Repository_CreateEvent_eq in R.
  destruct (served db); [|discriminate]. cbn zeta in R.
  cbn [Event.OrganizerID Event.Title Event.Description Event.Date Event.Time
         Event.Location] in R.
  destruct (hasUser organizerID db); [|discriminate].
  match type of R with
  | match insertAttendee ?u ?e ?r ?s ?d with _ => _ end = _ =>
      destruct (insertAttendee u e r s d) as [[[]|] db2] eqn:A; [|discriminate]
  end.
  injection R as <- <-.
  rewrite insertAttendee_eq in A.
  match type of A with
  | (if ?b then _ else _) = _ => destruct b; [|discriminate A]
  end.
  cbn zeta in A.
  change (roleCheck "organizer") with true in A.
  change (statusCheck "going") with true in A. cbn [negb] in A.
  repeat match type of A with
         | (if ?b then _ else _) = _ => destruct b; try discriminate A
         end.
  cbn [negb] in A.
  repeat match type of A with
         | (if ?b then _ else _) = _ => destruct b; try discriminate A
         end.
  injection A as <-. cbn. repeat split.
Qed.

End Created.

Section ReadBack.
Import pg sql event.
Context `{time.Pkg}.



Lemma GetEventAttendees_Ok eventID db s db' :
  Service.GetEventAttendees eventID db = (Ok s, db') ->
  0 < eventID /\ served db = true /\ db' = trip db
  /\ s = Some (orderByDesc EventAttendee.CreatedAt
                 (filter (fun a => EventAttendee.EventID a =? eventID)
                         (event_attendees db))).
Proof.
  unfold Service.GetEventAttendees.
  destruct (Z.leb_spec eventID 0) as [|P]; [discriminate|].
  unfold bind, ret. rewrite GetEventAttendees_eq.
  destruct (served db); [|discriminate].
  intros E; injection E as <- <-. repeat split; [exact P|].
  rewrite collect_rows. destruct (orderByDesc _ _); reflexivity.
Qed.



End ReadBack.


Section Attending.
Import pg sql event.

Lemma GetEventsByAttendeeID_eq userID db :
  Repository.GetEventsByAttendeeID userID db
  = if served db
    then (Ok (collect
                (orderByDesc (fun r => Event.Date (EventWithAttendeeInfo.Event r))
                   (flat_map
                      (fun e =>
                         map (fun ea => EventWithAttendeeInfo.mk e
                                          (EventAttendee.Role ea)
                                          (EventAttendee.Status ea))
                             (filter (fun ea =>
                                        (Event.ID e =? EventAttendee.EventID ea)
                                        && (EventAttendee.UserID ea =? userID))
                                     (event_attendees db)))
                      (events db)))),
          trip db)
    else (Err (Wrap "failed to get attendee events" (Pg ConnFailure)), trip db).
Proof.
  unfold Repository.GetEventsByAttendeeID, onError, bind, read, ret.
  rewrite roundTrip_eq. destruct (served db); reflexivity.
Qed.

(** The rows of the join of [events] with the attendance rows of a user. *)
Lemma attending_rows userID (es : list Event.t) (eas : list EventAttendee.t) r :
  In r (flat_map
          (fun e =>
             map (fun ea => EventWithAttendeeInfo.mk e (EventAttendee.Role ea)
                                                     (EventAttendee.Status ea))
                 (filter (fun ea => (Event.ID e =? EventAttendee.EventID ea)
                                    && (EventAttendee.UserID ea =? userID))
                         eas))
          es)
  <-> exists ea,
        In (EventWithAttendeeInfo.Event r) es /\ In ea eas
        /\ EventAttendee.EventID ea = Event.ID (EventWithAttendeeInfo.Event r)
        /\ EventAttendee.UserID ea = userID
        /\ EventWithAttendeeInfo.Role r = EventAttendee.Role ea
        /\ EventWithAttendeeInfo.Status r = EventAttendee.Status ea.
Proof.
  rewrite in_flat_map. split.
  - intros (e & Ie & I). apply in_map_iff in I. destruct I as (ea & <- & I).
    apply filter_In in I. destruct I as [Ia K].
    apply andb_true_iff in K. destruct K as [K1 K2].
    apply Z.eqb_eq in K1, K2. exists ea. cbn.
    repeat split; try assumption; try reflexivity. symmetry; exact K1.
  - intros (ea & Ie & Ia & K1 & K2 & Ro & St).
    exists (EventWithAttendeeInfo.Event r). split; [exact Ie|].
    apply in_map_iff. exists ea. split.
    + destruct r as [e ro st]. cbn in *. congruence.
    + apply filter_In. split; [exact Ia|].
      rewrite K1, K2, !Z.eqb_refl. reflexivity.
Qed.

(** X5. The events a user attends are listed completely and in order.
    [GetMyAttendingEvents], when it succeeds, returns an entry exactly for
    every stored event paired with a row of [event_attendees] of that user
    for that event, carrying the role and status of that row, latest date
    first; it changes no table. *)
Theorem attended_events_are_complete_and_ordered userID db s db' :
  Service.GetMyAttendingEvents userID db = (Ok s, db') ->
  (forall r,
     In r (elems s)
     <-> exists ea,
           In (EventWithAttendeeInfo.Event r) (events db)
           /\ In ea (event_attendees db)
           /\ EventAttendee.EventID ea = Event.ID (EventWithAttendeeInfo.Event r)
           /\ EventAttendee.UserID ea = userID
           /\ EventWithAttendeeInfo.Role r = EventAttendee.Role ea
           /\ EventWithAttendeeInfo.Status r = EventAttendee.Status ea)
  /\ descending (fun r => Event.Date (EventWithAttendeeInfo.Event r)) (elems s)
  /\ same_tables db db'.
Proof.
  unfold Service.GetMyAttendingEvents.
  destruct (Z.leb_spec userID 0) as [|P]; [discriminate|].
  intros R.
  destruct (listed _ _ _ (GetEventsByAttendeeID_eq userID) db s db' R) as (S & -> & ->).
  cbn [elems]. split.
  { intros r. rewrite <- attending_rows. split; intros I.
    - exact (Permutation_in _ (orderByDesc_perm _ _) I).
    - exact (Permutation_in _ (Permutation_sym (orderByDesc_perm _ _)) I). }
  split; [apply orderByDesc_descending|apply same_tables_trip].
Qed.

End Attending.

Lemma attended_events_are_complete_and_ordered_witness :
  exists s,
    event.Service.GetMyAttendingEvents 1 example.db0 = (Ok s, example.db0)
    /\ In (EventWithAttendeeInfo.mk example.party "organizer" "going") (elems s).
Proof.
  destruct (event.Service.GetMyAttendingEvents 1 example.db0) as [[s|e] db'] eqn:R;
    [|vm_compute in R; discriminate R].
  assert (db' = example.db0) as -> by (vm_compute in R; injection R as _ <-; reflexivity).
  exists s. split; [reflexivity|].
  destruct (attended_events_are_complete_and_ordered 1 example.db0 s example.db0 R)
    as (Rows & _).
  apply Rows. exists (EventAttendee.mk 1 1 1 "organizer" "going" 0).
  cbn. intuition.
Defined.

Section Participants.
Import pg sql event.

Lemma JoinEvent_Ok_inv userID eventID db db' :
  Service.JoinEvent userID eventID db = (Ok tt, db') ->
  0 < userID /\ 0 < eventID
  /\ hasEvent eventID db = true
  /\ hasUser userID db = true
  /\ hasAttendee userID eventID db = false
  /\ event_attendees db'
     = (event_attendees db
        ++ [EventAttendee.mk (event_attendees_id_seq db + 1) userID eventID
                             "attendee" "going" (clock db)])%list
  /\ users db' = users db /\ events db' = events db
  /\ invitations db' = invitations db.
Proof.
  intros J. destruct (JoinEvent_Ok_ids _ _ _ _ J) as [PU PE].
  rewrite (JoinEvent_eq _ _ _ PU PE) in J.
  destruct (Repository.GetEventByID eventID db) as [[ev|] db1] eqn:G; [|discriminate].
  destruct (GetEventByID_Ok _ _ _ _ G) as (_ & -> & _).
  destruct (insertAttendee userID eventID "attendee" "going" (trip db))
    as [[[]|] db2] eqn:I; [|discriminate].
  injection J as ->.
  destruct (insertAttendee_Ok _ _ _ _ _ _ I) as (_ & HA & HU & HE & Rows & Us & Ev & In_ & _).
  repeat split; assumption.
Qed.

Lemma InviteUserToEvent_Ok_inv eventID inviterID req db db' :
  Service.InviteUserToEvent eventID inviterID req db = (Ok tt, db') ->
  0 < eventID
  /\ AddAttendeeRequest.UserID req <> inviterID
  /\ hasEvent eventID db = true
  /\ event_attendees db'
     = (event_attendees db
        ++ [EventAttendee.mk (event_attendees_id_seq db + 1)
              (AddAttendeeRequest.UserID req) eventID (AddAttendeeRequest.Role req)
              "going" (clock db)])%list
  /\ users db' = users db /\ events db' = events db
  /\ invitations db' = invitations db.
Proof.
  unfold Service.InviteUserToEvent, fail.
  destruct (Z.leb_spec eventID 0) as [|P]; [discriminate|].
  destruct (inviterID <=? 0); [discriminate|].
  destruct (AddAttendeeRequest.UserID req <=? 0); [discriminate|].
  destruct (negb _ && negb _ && negb _); [discriminate|].
  unfold Repository.AddAttendee, bind, onError.
  destruct (Repository.GetEventByID eventID db) as [[ev|] db1] eqn:G; [|discriminate].
  destruct (GetEventByID_Ok _ _ _ _ G) as (_ & -> & _).
  destruct (negb (Event.OrganizerID ev =? inviterID)); [discriminate|].
  destruct (Z.eqb_spec (AddAttendeeRequest.UserID req) inviterID) as [|N];
    [discriminate|].
  destruct (insertAttendee _ _ _ _ (trip db)) as [[[]|] db2] eqn:I; [|discriminate].
  intros E; injection E as <-.
  destruct (insertAttendee_Ok _ _ _ _ _ _ I) as (_ & _ & _ & HE & Rows & Us & Ev & In_ & _).
  repeat split; assumption.
Qed.

(** A row appended to [event_attendees] shows in both listings. *)
Lemma appended_attendee_is_listed db db' a :
  event_attendees db' = (event_attendees db ++ [a])%list ->
  events db' = events db ->
  hasEvent (EventAttendee.EventID a) db = true ->
  (forall s db2,
     Service.GetEventAttendees (EventAttendee.EventID a) db' = (Ok s, db2) ->
     In a (elems s))
  /\ (forall s db2,
        Service.GetMyAttendingEvents (EventAttendee.UserID a) db' = (Ok s, db2) ->
        exists r,
          In r (elems s)
          /\ Event.ID (EventWithAttendeeInfo.Event r) = EventAttendee.EventID a
          /\ EventWithAttendeeInfo.Role r = EventAttendee.Role a
          /\ EventWithAttendeeInfo.Status r = EventAttendee.Status a).
Proof.
  intros Rows Ev HE. split.
  - intros s db2 R. destruct (GetEventAttendees_Ok _ _ _ _ R) as (_ & _ & _ & ->).
    cbn [elems].
    apply (Permutation_in _ (Permutation_sym (orderByDesc_perm _ _))).
    apply filter_In. split; [|apply Z.eqb_refl].
    rewrite Rows. apply in_or_app. right. left. reflexivity.
  - intros s db2. unfold Service.GetMyAttendingEvents.
    destruct (Z.leb_spec (EventAttendee.UserID a) 0) as [|P]; [discriminate|].
    intros R.
    destruct (listed _ _ _ (GetEventsByAttendeeID_eq _) db' s db2 R) as (_ & _ & ->).
    cbn [elems].
    apply hasEvent_In in HE. destruct HE as (e & Ie & Ke).
    exists (EventWithAttendeeInfo.mk e (EventAttendee.Role a) (EventAttendee.Status a)).
    split; [|repeat split; exact Ke].
    apply (Permutation_in _ (Permutation_sym (orderByDesc_perm _ _))).
    apply attending_rows. exists a. cbn.
    rewrite Ev, Rows. repeat split; try reflexivity; [exact Ie| |symmetry; exact Ke].
    apply in_or_app. right. left. reflexivity.
Qed.

(** X6. Whoever joins or is invited shows up in the listings. After a
    successful [JoinEvent], every successful [GetEventAttendees] of the event
    lists a row for the user with role 'attendee' and status 'going', and
    every successful [GetMyAttendingEvents] of the user lists the event with
    that role and status. After a successful [InviteUserToEvent] the same
    holds for the invitee, with the role of the request. *)
Theorem participants_are_listed db :
  (forall userID eventID db',
     Service.JoinEvent userID eventID db = (Ok tt, db') ->
     (forall s db2,
        Service.GetEventAttendees eventID db' = (Ok s, db2) ->
        exists a,
          In a (elems s) /\ EventAttendee.UserID a = userID
          /\ EventAttendee.Role a = "attendee" /\ EventAttendee.Status a = "going")
     /\ (forall s db2,
           Service.GetMyAttendingEvents userID db' = (Ok s, db2) ->
           exists r,
             In r (elems s)
             /\ Event.ID (EventWithAttendeeInfo.Event r) = eventID
             /\ EventWithAttendeeInfo.Role r = "attendee"
             /\ EventWithAttendeeInfo.Status r = "going"))
  /\ (forall eventID inviterID req db',
        Service.InviteUserToEvent eventID inviterID req db = (Ok tt, db') ->
        (forall s db2,
           Service.GetEventAttendees eventID db' = (Ok s, db2) ->
           exists a,
             In a (elems s)
             /\ EventAttendee.UserID a = AddAttendeeRequest.UserID req
             /\ EventAttendee.Role a = AddAttendeeRequest.Role req
             /\ EventAttendee.Status a = "going")
        /\ (forall s db2,
              Service.GetMyAttendingEvents (AddAttendeeRequest.UserID req) db'
              = (Ok s, db2) ->
              exists r,
                In r (elems s)
                /\ Event.ID (EventWithAttendeeInfo.Event r) = eventID
                /\ EventWithAttendeeInfo.Role r = AddAttendeeRequest.Role req
                /\ EventWithAttendeeInfo.Status r = "going")).
Proof.
  split.
  - intros userID eventID db' J.
    destruct (JoinEvent_Ok_inv _ _ _ _ J) as (_ & _ & HE & _ & _ & Rows & _ & Ev & _).
    destruct (appended_attendee_is_listed db db' _ Rows Ev HE) as [A B].
    split.
    + intros s db2 R. eexists. split; [exact (A s db2 R)|repeat split].
    + intros s db2 R. exact (B s db2 R).
  - intros eventID inviterID req db' J.
    destruct (InviteUserToEvent_Ok_inv _ _ _ _ _ J) as (_ & _ & HE & Rows & _ & Ev & _).
    destruct (appended_attendee_is_listed db db' _ Rows Ev HE) as [A B].
    split.
    + intros s db2 R. eexists. split; [exact (A s db2 R)|repeat split].
    + intros s db2 R. exact (B s db2 R).
Qed.

End Participants.

Lemma participants_are_listed_witness :
  exists db' s a,
    event.Service.JoinEvent 2 1 example.db0 = (Ok tt, db')
    /\ event.Service.GetEventAttendees 1 db' = (Ok s, db')
    /\ In a (elems s) /\ EventAttendee.UserID a = 2
    /\ EventAttendee.Role a = "attendee".
Proof.
  destruct (event.Service.JoinEvent 2 1 example.db0) as [[[]|e] db'] eqn:J;
    [|vm_compute in J; discriminate J].
  destruct (event.Service.GetEventAttendees 1 db') as [[s|e] db2] eqn:R.
  - destruct (participants_are_listed example.db0) as (Joined & _).
    destruct (Joined 2 1 db' J) as (Listed & _).
    destruct (Listed s db2 R) as (a & I & U & Ro & _).
    exists db', s, a. split; [reflexivity|]. split; [|auto].
    rewrite R. f_equal.
    vm_compute in J. injection J as <-. vm_compute in R. injection R as _ <-.
    reflexivity.
  - vm_compute in J. injection J as <-. vm_compute in R. discriminate R.
Defined.

(** ** Deleting an event *)

Section Deleting.
Import pg sql event.

(** The store with the event and the rows that reference it removed. *)
Lemma DeleteEvent_cases eventID caller db r db' :
  Service.DeleteEvent eventID caller db = (r, db') ->
  (r = Ok tt
   /\ 0 < eventID
   /\ (exists ev rest,
         filter (fun e => Event.ID e =? eventID) (events db) = ev :: rest
         /\ Event.OrganizerID ev = caller)
   /\ events db' = filter (fun e => negb (Event.ID e =? eventID)) (events db)
   /\ event_attendees db'
      = filter (fun a => negb (EventAttendee.EventID a =? eventID)) (event_attendees db)
   /\ invitations db'
      = filter (fun i => negb (Invitation.EventID i =? eventID)) (invitations db)
   /\ users db' = users db)
  \/ (exists e, r = Err e /\ same_tables db db' /\ e <> New "event not found").
Proof.
  unfold Service.DeleteEvent, fail.
  destruct (Z.leb_spec eventID 0) as [|P].
  { intros E; injection E as <- <-. right. eexists. split; [reflexivity|].
    split; [apply same_tables_refl|discriminate]. }
  unfold bind. rewrite GetEventByID_eq.
  destruct (served db).
  2:{ intros E; injection E as <- <-. right. eexists. split; [reflexivity|].
      split; [apply same_tables_trip|discriminate]. }
  destruct (filter _ (events db)) as [|ev rest] eqn:L.
  { intros E; injection E as <- <-. right. eexists. split; [reflexivity|].
    split; [apply same_tables_trip|discriminate]. }
  destruct (Z.eqb_spec (Event.OrganizerID ev) caller) as [O|_]; cbn [negb].
  2:{ intros E; injection E as <- <-. right. eexists. split; [reflexivity|].
      split; [apply same_tables_trip|discriminate]. }
  unfold Repository.DeleteEvent, bind, onError, read, write, ret, fail.
  rewrite roundTrip_eq.
  destruct (served (trip db)).
  2:{ intros E; injection E as <- <-. right. eexists. split; [reflexivity|].
      split; [repeat split|discriminate]. }
  change (events (trip (trip db))) with (events db). rewrite L.
  cbn [length Nat.eqb].
  intros E; injection E as <- <-. left.
  split; [reflexivity|]. split; [exact P|]. split; [eauto|]. repeat split.
Qed.

(** X7. Deleting an event takes its attendance rows with it and no other
    event or attendance row. When [DeleteEvent] succeeds, the caller was the
    organizer of a stored event; afterwards [events] and [event_attendees]
    hold exactly the rows they held that do not belong to the event,
    [users] is as before, and a further [DeleteEvent] of the same
    identifier fails. When [DeleteEvent] fails no table has changed, and
    the failure is never the repository's "event not found": that branch
    cannot be reached through the service. *)
Theorem delete_takes_the_dependents_along eventID caller db :
  (forall db',
     Service.DeleteEvent eventID caller db = (Ok tt, db') ->
     (exists ev, In ev (events db) /\ Event.ID ev = eventID
                 /\ Event.OrganizerID ev = caller)
     /\ (forall e, In e (events db') <-> In e (events db) /\ Event.ID e <> eventID)
     /\ (forall a, In a (event_attendees db')
                   <-> In a (event_attendees db) /\ EventAttendee.EventID a <> eventID)
     /\ users db' = users db
     /\ forall caller2,
          exists e db2,
            Service.DeleteEvent eventID caller2 db' = (Err e, db2)
            /\ same_tables db' db2)
  /\ (forall e db',
        Service.DeleteEvent eventID caller db = (Err e, db') ->
        same_tables db db' /\ e <> New "event not found").
Proof.
  assert (Keep : forall {A} (key : A -> Z) (l : list A) x,
             In x (filter (fun y => negb (key y =? eventID)) l)
             <-> In x l /\ key x <> eventID).
  { intros A key l x. rewrite filter_In, negb_true_iff, Z.eqb_neq. tauto. }
  split.
  - intros db' R.
    destruct (DeleteEvent_cases _ _ _ _ _ R)
      as [(_ & P & (ev & rest & L & O) & Ev & At & In_ & Us) | (e & E & _)];
      [|discriminate E].
    split.
    { exists ev. destruct (filter_head_In _ _ _ _ L) as [I K].
      apply Z.eqb_eq in K. auto. }
    rewrite Ev, At.
    split; [intros e; apply (Keep _ Event.ID)|].
    split; [intros a; apply (Keep _ EventAttendee.EventID)|].
    split; [exact Us|].
    intros caller2.
    destruct (Service.DeleteEvent eventID caller2 db') as [[[]|e] db2] eqn:R2.
    + exfalso.
      destruct (DeleteEvent_cases _ _ _ _ _ R2)
        as [(_ & _ & (ev2 & rest2 & L2 & _) & _) | (e & E & _)]; [|discriminate E].
      destruct (filter_head_In _ _ _ _ L2) as [I2 K2].
      rewrite Ev in I2. apply filter_In in I2. destruct I2 as [_ N].
      rewrite K2 in N. discriminate N.
    + destruct (DeleteEvent_cases _ _ _ _ _ R2)
        as [(E & _) | (e' & E & S & _)]; [discriminate E|].
      exists e, db2. split; [reflexivity|exact S].
  - intros e db' R.
    destruct (DeleteEvent_cases _ _ _ _ _ R) as [(E & _) | (e' & E & S & N)];
      [discriminate E|].
    injection E as ->. auto.
Qed.

End Deleting.

Lemma delete_takes_the_dependents_along_witness :
  exists db',
    event.Service.DeleteEvent 1 1 example.db0 = (Ok tt, db')
    /\ pg.events db' = [] /\ pg.event_attendees db' = []
    /\ pg.users db' = pg.users example.db0.
Proof.
  destruct (event.Service.DeleteEvent 1 1 example.db0) as [[[]|e] db'] eqn:R;
    [|vm_compute in R; discriminate R].
  exists db'. split; [reflexivity|].
  destruct (delete_takes_the_dependents_along 1 1 example.db0) as (Gone & _).
  destruct (Gone db' R) as (_ & _ & _ & Us & _).
  vm_compute in R. injection R as <-. repeat split.
Defined.

(** ** Attendance status *)

Section StatusChange.
Import pg sql event.

Lemma validStatus_test status :
  existsb (String.eqb status) ["going"; "maybe"; "not_going"] = true
  <-> validStatus status.
Proof.
  unfold validStatus. cbn [existsb].
  destruct (String.eqb_spec status "going"), (String.eqb_spec status "maybe"),
    (String.eqb_spec status "not_going"); simpl; intuition congruence.
Qed.

Lemma validStatus_statusCheck status : validStatus status -> statusCheck status = true.
Proof. intros [-> | [-> | ->]]; reflexivity. Qed.

Lemma UpdateAttendanceStatus_eq userID eventID status db :
  0 < userID -> 0 < eventID -> validStatus status ->
  Service.UpdateAttendanceStatus userID eventID status db
  = if served db then
      if existsb (fun a => (EventAttendee.UserID a =? userID)
                           && (EventAttendee.EventID a =? eventID))
                 (event_attendees db)
      then (Ok tt,
            set_event_attendees
              (withStatus userID eventID status (event_attendees db)) (trip db))
      else (Err (New "attendance record not found"),
            set_event_attendees
              (withStatus userID eventID status (event_attendees db)) (trip db))
    else (Err (Wrap "failed to update attendance status" (Pg ConnFailure)), trip db).
Proof.
  intros PU PE V. unfold Service.UpdateAttendanceStatus.
  replace (userID <=? 0) with false by (symmetry; apply Z.leb_gt; exact PU).
  replace (eventID <=? 0) with false by (symmetry; apply Z.leb_gt; exact PE).
  cbv zeta. rewrite (proj2 (validStatus_test status) V). cbn [negb].
  unfold Repository.UpdateAttendanceStatus, bind, onError, read, write, constraint,
    ret, fail.
  rewrite roundTrip_eq. destruct (served db); [|reflexivity].
  change (event_attendees (trip db)) with (event_attendees db).
  rewrite (validStatus_statusCheck _ V), orb_true_r.
  destruct (existsb _ (event_attendees db)) eqn:X.
  - destruct (filter _ (event_attendees db)) eqn:F.
    + apply existsb_filter_nil in F. congruence.
    + reflexivity.
  - apply existsb_filter_nil in X. rewrite X. reflexivity.
Qed.

Lemma withStatus_nothing userID eventID status rows :
  existsb (fun a => (EventAttendee.UserID a =? userID)
                    && (EventAttendee.EventID a =? eventID)) rows = false ->
  withStatus userID eventID status rows = rows.
Proof.
  unfold withStatus. induction rows as [|a rows IH]; simpl; [reflexivity|].
  rewrite orb_false_iff. intros [-> X]. rewrite (IH X). reflexivity.
Qed.

(** X8. Changing an attendance status changes that status and nothing
    else. For positive identifiers: a status other than 'going', 'maybe'
    and 'not_going' is refused before the store is touched; for a valid
    status, when the user has no attendance row for the event the call
    fails with "attendance record not found" and every table stays as it
    was; when the user has one the call succeeds on a store that serves the
    round trip, and afterwards the rows of that user for that event carry
    the new status, with identifier, role and creation time as before, all
    other rows are untouched, and so are the other tables. *)
Theorem attendance_status_changes_alone userID eventID status db :
  0 < userID -> 0 < eventID ->
  (~ validStatus status ->
     Service.UpdateAttendanceStatus userID eventID status db
     = (Err (New "invalid status: must be 'going', 'maybe', or 'not_going'"), db))
  /\ (validStatus status -> served db = true ->
      (hasAttendee userID eventID db = false ->
         exists db',
           Service.UpdateAttendanceStatus userID eventID status db
           = (Err (New "attendance record not found"), db')
           /\ same_tables db db')
      /\ (hasAttendee userID eventID db = true ->
          exists db',
            Service.UpdateAttendanceStatus userID eventID status db = (Ok tt, db')
            /\ event_attendees db'
               = withStatus userID eventID status (event_attendees db)
            /\ users db' = users db /\ events db' = events db
            /\ invitations db' = invitations db))
  /\ (forall db',
        Service.UpdateAttendanceStatus userID eventID status db = (Ok tt, db') ->
        validStatus status
        /\ hasAttendee userID eventID db = true
        /\ (forall a,
              In a (event_attendees db) ->
              (EventAttendee.UserID a <> userID \/ EventAttendee.EventID a <> eventID) ->
              In a (event_attendees db'))
        /\ (forall a',
              In a' (event_attendees db') ->
              EventAttendee.UserID a' = userID -> EventAttendee.EventID a' = eventID ->
              EventAttendee.Status a' = status
              /\ exists a,
                   In a (event_attendees db)
                   /\ EventAttendee.ID a' = EventAttendee.ID a
                   /\ EventAttendee.Role a' = EventAttendee.Role a
                   /\ EventAttendee.CreatedAt a' = EventAttendee.CreatedAt a)).
Proof.
  intros PU PE. split; [|split].
  - intros N. unfold Service.UpdateAttendanceStatus.
    replace (userID <=? 0) with false by (symmetry; apply Z.leb_gt; exact PU).
    replace (eventID <=? 0) with false by (symmetry; apply Z.leb_gt; exact PE).
    cbv zeta.
    destruct (existsb (String.eqb status) _) eqn:T; [|reflexivity].
    apply validStatus_test in T. contradiction.
  - intros V S. rewrite (UpdateAttendanceStatus_eq _ _ _ _ PU PE V), S.
    unfold hasAttendee. split; intros X; rewrite X.
    + eexists. split; [reflexivity|].
      rewrite (withStatus_nothing _ _ _ _ X). repeat split.
    + eexists. split; [reflexivity|]. repeat split.
  - intros db' R.
    assert (V : validStatus status).
    { revert R. unfold Service.UpdateAttendanceStatus.
      replace (userID <=? 0) with false by (symmetry; apply Z.leb_gt; exact PU).
      replace (eventID <=? 0) with false by (symmetry; apply Z.leb_gt; exact PE).
      cbv zeta.
      destruct (existsb (String.eqb status) _) eqn:T; [|discriminate].
      intros _. apply validStatus_test, T. }
    rewrite (UpdateAttendanceStatus_eq _ _ _ _ PU PE V) in R.
    destruct (served db); [|discriminate R].
    unfold hasAttendee.
    destruct (existsb _ (event_attendees db)) eqn:X; [|discriminate R].
    injection R as <-. cbn [event_attendees set_event_attendees].
    split; [exact V|]. split; [reflexivity|]. unfold withStatus. split.
    + intros a I N. apply in_map_iff. exists a. split; [|exact I].
      destruct (Z.eqb_spec (EventAttendee.UserID a) userID),
        (Z.eqb_spec (EventAttendee.EventID a) eventID); cbn [andb];
        try reflexivity. tauto.
    + intros a' I U E. apply in_map_iff in I. destruct I as (a & <- & I).
      destruct ((EventAttendee.UserID a =? userID)
                && (EventAttendee.EventID a =? eventID)) eqn:Hit.
      * cbn. split; [reflexivity|]. exists a. auto.
      * rewrite U, E, !Z.eqb_refl in Hit. discriminate Hit.
Qed.

End StatusChange.

Lemma attendance_status_changes_alone_witness :
  exists db' a,
    event.Service.UpdateAttendanceStatus 1 1 "maybe" example.db0 = (Ok tt, db')
    /\ pg.event_attendees db' = [a]
    /\ EventAttendee.Status a = "maybe"
    /\ EventAttendee.Role a = "organizer"
    /\ event.Service.UpdateAttendanceStatus 2 1 "maybe" example.db0
       = (Err (New "attendance record not found"), example.db0).
Proof.
  destruct (attendance_status_changes_alone 1 1 "maybe" example.db0
              ltac:(reflexivity) ltac:(reflexivity)) as (_ & Valid & _).
  destruct (Valid (or_intror (or_introl eq_refl)) eq_refl) as (_ & Has).
  destruct (Has eq_refl) as (db' & R & Rows & _).
  exists db'. eexists. split; [exact R|]. split; [rewrite Rows; reflexivity|].
  split; [reflexivity|]. split; [reflexivity|].
  destruct (attendance_status_changes_alone 2 1 "maybe" example.db0
              ltac:(reflexivity) ltac:(reflexivity)) as (_ & Valid2 & _).
  destruct (Valid2 (or_intror (or_introl eq_refl)) eq_refl) as (Missing & _).
  destruct (Missing eq_refl) as (db2 & R2 & _).
  rewrite R2. f_equal. vm_compute in R2. injection R2 as <-. reflexivity.
Defined.

(** ** Calls that fail *)

Section Halfway.
Import pg sql event.
Context `{time.Pkg}.

(** A request either fails a check, with the store as it was, or has
    passed them all. *)
Lemma CreateEvent_checks req organizerID db :
  (exists e, Service.CreateEvent req organizerID db = (Err e, db))
  \/ exists eventDate eventTime, requestPassed (clock db) req eventDate eventTime.
Proof.
  unfold Service.CreateEvent, bind, lift.
  destruct (Service.validateCreateRequest req) as [[]|e] eqn:V;
    [|left; exists e; reflexivity].
  apply validateCreateRequest_ok in V.
  unfold Service.validateDateTime, Service.validateDateFormat,
    Service.validateTimeFormat, Service.validateFutureEvent.
  destruct (time.Parse "2006-01-02" (CreateEventRequest.Date req)) as [d|] eqn:PD;
    [|left; eexists; reflexivity].
  destruct (time.Parse "15:04:05" (CreateEventRequest.Time req)) as [c|] eqn:PT;
    [|left; eexists; reflexivity].
  cbn [ok].
  destruct (time.Parse "2006-01-02 15:04:05" _) as [t|] eqn:PB;
    [|left; eexists; reflexivity].
  unfold bind, Service.Now, read, time.Before, fail.
  destruct (Z.ltb_spec t (clock db)); [left; eexists; reflexivity|].
  right. exists d, c. unfold requestPassed. intuition eauto.
Qed.

(** X9. [CreateEvent] is two inserts without a transaction. Whenever it
    fails, either no table has changed, or the event has been stored
    without the organizer's attendance row, and the error is the failure
    of the second insert under the message "failed to add organizer as
    attendee", which the service and the repository each put in front.
    The second case occurs: for a request that passes the checks, made by
    an existing user, when the store serves the first insert and not the
    second. *)
Theorem CreateEvent_can_stop_halfway req organizerID db :
  (forall e db',
     Service.CreateEvent req organizerID db = (Err e, db') ->
     same_tables db db'
     \/ exists row cause,
          e = Wrap "failed to add organizer as attendee"
                (Wrap "failed to add organizer as attendee" cause)
          /\ events db' = (events db ++ [row])%list
          /\ Event.ID row = events_id_seq db + 1
          /\ Event.OrganizerID row = organizerID
          /\ Event.Title row = CreateEventRequest.Title req
          /\ event_attendees db' = event_attendees db
          /\ users db' = users db
          /\ invitations db' = invitations db)
  /\ (forall eventDate eventTime,
        requestPassed (clock db) req eventDate eventTime ->
        hasUser organizerID db = true ->
        served db = true -> served (trip db) = false ->
        exists row db',
          Service.CreateEvent req organizerID db
          = (Err (Wrap "failed to add organizer as attendee"
                    (Wrap "failed to add organizer as attendee" (Pg ConnFailure))),
             db')
          /\ events db' = (events db ++ [row])%list
          /\ Event.OrganizerID row = organizerID
          /\ event_attendees db' = event_attendees db).
Proof.
  split.
  - intros e db' R.
    destruct (CreateEvent_checks req organizerID db) as [(e0 & F) | (d & c & Acc)].
    { rewrite F in R. injection R as _ <-. left. apply same_tables_refl. }
    rewrite (CreateEvent_eq _ organizerID _ _ _ Acc), Repository_CreateEvent_eq in R.
    destruct (served db).
    2:{ injection R as _ <-. left. apply same_tables_trip. }
    cbn zeta in R.
    cbn [Event.OrganizerID Event.Title Event.Description Event.Date Event.Time
           Event.Location] in R.
    destruct (hasUser organizerID db).
    2:{ injection R as _ <-. left. repeat split. }
    match type of R with
    | match insertAttendee ?u ?e ?r ?s ?d with _ => _ end = _ =>
        destruct (insertAttendee u e r s d) as [[[]|cause] db2] eqn:A;
          [discriminate R|]
    end.
    injection R as <- <-. right.
    destruct (insertAttendee_Err _ _ _ _ _ _ _ A) as (U & E & At & I).
    eexists. exists cause. split; [reflexivity|].
    rewrite <- E, <- At, <- U, <- I. cbn. repeat split.
  - intros d c Acc HU S1 S2.
    rewrite (CreateEvent_eq _ organizerID _ _ _ Acc), Repository_CreateEvent_eq, S1.
    cbn zeta.
    cbn [Event.OrganizerID Event.Title Event.Description Event.Date Event.Time
           Event.Location].
    rewrite HU, insertAttendee_eq.
    match goal with
    | |- context [if served ?d then _ else _] =>
        change (served d) with (served (trip db))
    end.
    rewrite S2. eexists. eexists. split; [reflexivity|]. cbn. repeat split.
Qed.

End Halfway.

Lemma CreateEvent_can_stop_halfway_witness :
  exists row db',
    event.Service.CreateEvent example.picnic 1
      (pg.set_faults [false; true] example.db0)
    = (Err (Wrap "failed to add organizer as attendee"
              (Wrap "failed to add organizer as attendee" (Pg ConnFailure))), db')
    /\ pg.events db' = [example.party; row]
    /\ Event.ID row = 2
    /\ pg.event_attendees db' = pg.event_attendees example.db0.
Proof.
  destruct (CreateEvent_can_stop_halfway example.picnic 1
              (pg.set_faults [false; true] example.db0)) as (_ & Stops).
  destruct (Stops 1907712000000000000 (-62167219200000000000 + 45000000000000))
    as (row & db' & R & Ev & _ & At).
  - unfold requestPassed. cbn.
    repeat (split; [first [discriminate | lia | reflexivity]|]).
    eexists. split; [vm_compute; reflexivity|]. vm_compute. discriminate.
  - reflexivity.
  - reflexivity.
  - reflexivity.
  - exists row, db'. split; [exact R|]. split; [exact Ev|]. split; [|exact At].
    vm_compute in R. injection R as <-. vm_compute in Ev.
    injection Ev as <-. reflexivity.
Defined.

Section Failures.
Import pg sql event.
Context `{time.Pkg}.

(** The checks on a patch read the clock and nothing else. *)
Lemma validateFutureEvent_pure date timeStr db :
  exists r, Service.validateFutureEvent date timeStr db = (r, db).
Proof.
  unfold Service.validateFutureEvent, bind, Service.Now, read, fail, ret.
  destruct (time.Parse _ _); [|eexists; reflexivity].
  destruct (time.Before _ _); eexists; reflexivity.
Qed.

Lemma Repository_UpdateEvent_Err eventID req db e db' :
  Repository.UpdateEvent eventID req db = (Err e, db') -> same_tables db db'.
Proof.
  unfold Repository.UpdateEvent, bind. rewrite GetEventByID_eq.
  destruct (served db).
  2:{ intros E; injection E as _ <-. apply same_tables_trip. }
  destruct (filter _ (events db)) as [|ev rest] eqn:L.
  { intros E; injection E as _ <-. apply same_tables_trip. }
  unfold lift.
  destruct (Repository.applyUpdates req ev) as [cur|].
  2:{ intros E; injection E as _ <-. apply same_tables_trip. }
  unfold onError, bind, write, read, queryRow. rewrite roundTrip_eq.
  destruct (served (trip db)).
  2:{ intros E; injection E as _ <-. repeat split. }
  cbn [events set_events].
  rewrite (filter_map_key Event.ID eventID
             (fun e => if Event.ID e =? eventID then Repository.setColumns cur e else e)).
  - change (events (trip (trip db))) with (events db). rewrite L. discriminate.
  - intros x. destruct (Event.ID x =? eventID); reflexivity.
Qed.

Lemma Service_UpdateEvent_Err eventID req caller db e db' :
  Service.UpdateEvent eventID req caller db = (Err e, db') -> same_tables db db'.
Proof.
  unfold Service.UpdateEvent, fail.
  destruct (eventID <=? 0).
  { intros E; injection E as _ <-. apply same_tables_refl. }
  unfold bind at 1. rewrite GetEventByID_eq.
  destruct (served db).
  2:{ intros E; injection E as _ <-. apply same_tables_trip. }
  destruct (filter _ (events db)) as [|ev rest].
  { intros E; injection E as _ <-. apply same_tables_trip. }
  destruct (negb (Event.OrganizerID ev =? caller)).
  { intros E; injection E as _ <-. apply same_tables_trip. }
  unfold bind at 1.
  match goal with
  | |- (match ?v (trip db) with _ => _ end) = _ -> _ =>
      assert (P : exists r, v (trip db) = (r, trip db))
  end.
  { destruct (negb _ && negb _).
    - unfold bind, lift.
      destruct (Service.validateDateTime _ _); [|eexists; reflexivity].
      apply validateFutureEvent_pure.
    - destruct (negb _); [eexists; reflexivity|].
      destruct (negb _); eexists; reflexivity. }
  destruct P as (r & ->). destruct r.
  - intros R. apply Repository_UpdateEvent_Err in R.
    eapply same_tables_trans; [apply same_tables_trip|exact R].
  - intros E; injection E as _ <-. apply same_tables_trip.
Qed.

Lemma Service_JoinEvent_Err userID eventID db e db' :
  Service.JoinEvent userID eventID db = (Err e, db') -> same_tables db db'.
Proof.
  unfold Service.JoinEvent, fail.
  destruct (userID <=? 0).
  { intros E; injection E as _ <-. apply same_tables_refl. }
  destruct (eventID <=? 0).
  { intros E; injection E as _ <-. apply same_tables_refl. }
  unfold bind, onError. rewrite GetEventByID_eq.
  destruct (served db).
  2:{ intros E; injection E as _ <-. apply same_tables_trip. }
  destruct (filter _ (events db)).
  { intros E; injection E as _ <-. apply same_tables_trip. }
  unfold Repository.JoinEvent, onError.
  destruct (insertAttendee _ _ _ _ (trip db)) as [[[]|c] db2] eqn:I; [discriminate|].
  intros E; injection E as _ <-.
  eapply same_tables_trans; [apply same_tables_trip|].
  eapply insertAttendee_Err; exact I.
Qed.

Lemma Service_InviteUserToEvent_Err eventID inviterID req db e db' :
  Service.InviteUserToEvent eventID inviterID req db = (Err e, db') ->
  same_tables db db'.
Proof.
  unfold Service.InviteUserToEvent, fail.
  destruct (eventID <=? 0).
  { intros E; injection E as _ <-. apply same_tables_refl. }
  destruct (inviterID <=? 0).
  { intros E; injection E as _ <-. apply same_tables_refl. }
  destruct (AddAttendeeRequest.UserID req <=? 0).
  { intros E; injection E as _ <-. apply same_tables_refl. }
  destruct (negb _ && negb _ && negb _).
  { intros E; injection E as _ <-. apply same_tables_refl. }
  unfold bind, onError. rewrite GetEventByID_eq.
  destruct (served db).
  2:{ intros E; injection E as _ <-. apply same_tables_trip. }
  destruct (filter _ (events db)) as [|ev rest].
  { intros E; injection E as _ <-. apply same_tables_trip. }
  destruct (negb (Event.OrganizerID ev =? inviterID)).
  { intros E; injection E as _ <-. apply same_tables_trip. }
  destruct (AddAttendeeRequest.UserID req =? inviterID).
  { intros E; injection E as _ <-. apply same_tables_trip. }
  unfold Repository.AddAttendee, onError.
  destruct (insertAttendee _ _ _ _ (trip db)) as [[[]|c] db2] eqn:I; [discriminate|].
  intros E; injection E as _ <-.
  eapply same_tables_trans; [apply same_tables_trip|].
  eapply insertAttendee_Err; exact I.
Qed.

Lemma Service_UpdateAttendanceStatus_Err userID eventID status db e db' :
  Service.UpdateAttendanceStatus userID eventID status db = (Err e, db') ->
  same_tables db db'.
Proof.
  destruct (Z.leb_spec userID 0) as [|PU].
  { unfold Service.UpdateAttendanceStatus, fail.
    replace (userID <=? 0) with true by (symmetry; apply Z.leb_le; assumption).
    intros E; injection E as _ <-. apply same_tables_refl. }
  destruct (Z.leb_spec eventID 0) as [|PE].
  { unfold Service.UpdateAttendanceStatus, fail.
    replace (userID <=? 0) with false by (symmetry; apply Z.leb_gt; assumption).
    replace (eventID <=? 0) with true by (symmetry; apply Z.leb_le; assumption).
    intros E; injection E as _ <-. apply same_tables_refl. }
  destruct (existsb (String.eqb status) ["going"; "maybe"; "not_going"]) eqn:T.
  - apply validStatus_test in T.
    rewrite (UpdateAttendanceStatus_eq _ _ _ _ PU PE T).
    destruct (served db).
    2:{ intros E; injection E as _ <-. apply same_tables_trip. }
    destruct (existsb _ (event_attendees db)) eqn:X; [discriminate|].
    intros E; injection E as _ <-.
    rewrite (withStatus_nothing _ _ _ _ X). repeat split.
  - unfold Service.UpdateAttendanceStatus, fail.
    replace (userID <=? 0) with false by (symmetry; apply Z.leb_gt; assumption).
    replace (eventID <=? 0) with false by (symmetry; apply Z.leb_gt; assumption).
    cbv zeta. rewrite T. cbn [negb].
    intros E; injection E as _ <-. apply same_tables_refl.
Qed.

(** X10. Apart from [CreateEvent], a call of the event service that
    returns an error has changed no table: this holds for
    [UpdateEvent], [JoinEvent], [InviteUserToEvent] and
    [UpdateAttendanceStatus], whatever the arguments, the store and the
    round trips that fail. *)
Theorem a_failed_call_changes_no_table db e db' :
  (forall eventID req caller,
     Service.UpdateEvent eventID req caller db = (Err e, db') -> same_tables db db')
  /\ (forall userID eventID,
        Service.JoinEvent userID eventID db = (Err e, db') -> same_tables db db')
  /\ (forall eventID inviterID req,
        Service.InviteUserToEvent eventID inviterID req db = (Err e, db') ->
        same_tables db db')
  /\ (forall userID eventID status,
        Service.UpdateAttendanceStatus userID eventID status db = (Err e, db') ->
        same_tables db db').
Proof.
  split; [|split; [|split]]; intros.
  - eapply Service_UpdateEvent_Err; eassumption.
  - eapply Service_JoinEvent_Err; eassumption.
  - eapply Service_InviteUserToEvent_Err; eassumption.
  - eapply Service_UpdateAttendanceStatus_Err; eassumption.
Qed.

End Failures.

Lemma a_failed_call_changes_no_table_witness :
  pg.same_tables example.db0
    (snd (event.Service.UpdateEvent 1 example.backdate 1 example.db0))
  /\ pg.same_tables example.db0
       (snd (event.Service.JoinEvent 1 1 example.db0))
  /\ pg.same_tables example.db0
       (snd (event.Service.InviteUserToEvent 1 1
               (AddAttendeeRequest.mk 7 "attendee") example.db0))
  /\ pg.same_tables example.db0
       (snd (event.Service.UpdateAttendanceStatus 2 1 "going" example.db0)).
Proof.
  split; [|split; [|split]].
  - destruct (event.Service.UpdateEvent 1 example.backdate 1 example.db0)
      as [r d] eqn:R.
    assert (E : exists e, r = Err e)
      by (vm_compute in R; injection R as <- _; eexists; reflexivity).
    destruct E as (e & ->).
    exact (proj1 (a_failed_call_changes_no_table example.db0 e d) _ _ _ R).
  - destruct (event.Service.JoinEvent 1 1 example.db0) as [r d] eqn:R.
    assert (E : exists e, r = Err e)
      by (vm_compute in R; injection R as <- _; eexists; reflexivity).
    destruct E as (e & ->).
    exact (proj1 (proj2 (a_failed_call_changes_no_table example.db0 e d)) _ _ R).
  - destruct (event.Service.InviteUserToEvent 1 1
                (AddAttendeeRequest.mk 7 "attendee") example.db0) as [r d] eqn:R.
    assert (E : exists e, r = Err e)
      by (vm_compute in R; injection R as <- _; eexists; reflexivity).
    destruct E as (e & ->).
    exact (proj1 (proj2 (proj2 (a_failed_call_changes_no_table example.db0 e d)))
             _ _ _ R).
  - destruct (event.Service.UpdateAttendanceStatus 2 1 "going" example.db0)
      as [r d] eqn:R.
    assert (E : exists e, r = Err e)
      by (vm_compute in R; injection R as <- _; eexists; reflexivity).
    destruct E as (e & ->).
    exact (proj2 (proj2 (proj2 (a_failed_call_changes_no_table example.db0 e d)))
             _ _ _ R).
Defined.

(** ** Accounts *)

Section Accounts.
Import pg sql auth.
Context `{bcrypt.Pkg} `{jwt.Pkg} `{os.Env}.

(** [Register] in one step. *)
Lemma Register_eq req db :
  Service.Register req db =
    match bcrypt.GenerateFromPassword (RegisterRequest.Password req) with
    | Err e => (Err (Wrap "failed to hash password" e), db)
    | Ok hashedPassword =>
        if served db then
          let db1 := set_users_id_seq (users_id_seq db + 1) (trip db) in
          if existsb (fun u => (User.Email u =? RegisterRequest.Email req)%string)
                     (users db)
          then (Err (Wrap "failed to create user"
                       (Pg (UniqueViolation "users_email_key"))), db1)
          else
            let u := User.mk (users_id_seq db + 1) (RegisterRequest.Email req)
                             hashedPassword (clock db) in
            let db2 := set_users (users db ++ [u])%list db1 in
            match jwt.SignedString (users_id_seq db + 1)
                    ((clock db + 7 * 24 * 3600 * 1000000000) / 1000000000)
                    (if (os.Getenv "JWT_SECRET" =? "")%string
                     then "your-secret-key" else os.Getenv "JWT_SECRET") with
            | Ok token => (Ok (AuthResponse.mk token), db2)
            | Err e => (Err (Wrap "failed to generate token" e), db2)
            end
        else (Err (Wrap "failed to create user" (Pg ConnFailure)), trip db)
    end.
Proof.
  unfold Service.Register, bind at 1, lift.
  destruct (bcrypt.GenerateFromPassword _) as [h|e]; [|reflexivity].
  cbn [event.Service.wrapResult].
  unfold bind at 1, onError at 1, bind at 1. rewrite roundTrip_eq.
  destruct (served db); [|reflexivity].
  unfold Service.generateToken, bind, nextval, now, read, write, constraint, ret,
    fail, onError, lift.
  cbn zeta.
  change (users (set_users_id_seq (users_id_seq (trip db) + 1) (trip db)))
    with (users db).
  destruct (existsb _ (users db)); [reflexivity|]. cbn [negb].
  cbn [clock set_users set_users_id_seq trip set_faults users_id_seq User.ID].
  destruct (jwt.SignedString _ _ _); reflexivity.
Qed.

(** [Login] in one step. *)
Lemma Login_eq req db :
  Service.Login req db =
    if served db then
      match filter (fun u => (User.Email u =? LoginRequest.Email req)%string)
                   (users db) with
      | [] => (Err (New "invalid email or password"), trip db)
      | u :: _ =>
          match bcrypt.CompareHashAndPassword (User.PasswordHash u)
                                              (LoginRequest.Password req) with
          | Err _ => (Err (New "invalid email or password"), trip db)
          | Ok _ =>
              match jwt.SignedString (User.ID u)
                      ((clock db + 7 * 24 * 3600 * 1000000000) / 1000000000)
                      (if (os.Getenv "JWT_SECRET" =? "")%string
                       then "your-secret-key" else os.Getenv "JWT_SECRET") with
              | Ok token => (Ok (AuthResponse.mk token), trip db)
              | Err e => (Err (Wrap "failed to generate token" e), trip db)
              end
          end
      end
    else (Err (New "invalid email or password"), trip db).
Proof.
  unfold Service.Login, bind at 1, onError at 1, bind, read, queryRow.
  rewrite roundTrip_eq. destruct (served db); [|reflexivity].
  change (users (trip db)) with (users db).
  destruct (filter _ (users db)) as [|u rest]; [reflexivity|].
  cbn [ret fail].
  destruct (bcrypt.CompareHashAndPassword _ _); [|reflexivity].
  unfold Service.generateToken, onError, ret, bind, read, lift.
  change (clock (trip db)) with (clock db).
  destruct (jwt.SignedString _ _ _); reflexivity.
Qed.


(** X12. A registration that fails has stored nothing, unless it is the
    token that failed. Whenever [Register] returns an error, either no
    table has changed, or the user has been stored all the same and the
    error is that of signing the token under "failed to generate token".
    When [bcrypt] hashes the password and the store serves the insert, an
    email that a stored user already has is refused with the violation of
    [users_email_key] under "failed to create user". *)
Theorem a_failed_registration req db :
  (forall e db',
     Service.Register req db = (Err e, db') ->
     same_tables db db'
     \/ exists cause u,
          e = Wrap "failed to generate token" cause
          /\ users db' = (users db ++ [u])%list
          /\ User.Email u = RegisterRequest.Email req
          /\ events db' = events db
          /\ event_attendees db' = event_attendees db
          /\ invitations db' = invitations db)
  /\ (forall u hash,
        In u (users db) -> User.Email u = RegisterRequest.Email req ->
        bcrypt.GenerateFromPassword (RegisterRequest.Password req) = Ok hash ->
        served db = true ->
        exists db',
          Service.Register req db
          = (Err (Wrap "failed to create user"
                    (Pg (UniqueViolation "users_email_key"))), db')
          /\ same_tables db db').
Proof.
  split.
  - intros e db'. rewrite Register_eq.
    destruct (bcrypt.GenerateFromPassword _).
    2:{ intros E; injection E as _ <-. left. apply same_tables_refl. }
    destruct (served db).
    2:{ intros E; injection E as _ <-. left. apply same_tables_trip. }
    cbn zeta. destruct (existsb _ (users db)).
    { intros E; injection E as _ <-. left. repeat split. }
    destruct (jwt.SignedString _ _ _) as [|cause]; [discriminate|].
    intros E; injection E as <- <-. right.
    exists cause. eexists. split; [reflexivity|]. split; [reflexivity|].
    repeat split.
  - intros u h I E G S. rewrite Register_eq, G, S. cbn zeta.
    replace (existsb _ (users db)) with true.
    + eexists. split; [reflexivity|]. repeat split.
    + symmetry. apply existsb_exists. exists u.
      split; [exact I|apply String.eqb_eq; exact E].
Qed.

(** X13. Nobody logs in without the password. [Login] makes one round
    trip and changes nothing else in the store, whatever it returns; and
    when it succeeds, the first stored user with the email of the request
    has a hash that [bcrypt] matches with the password of the request, and
    the response carries the token signed for that user's identifier,
    with an expiry seven days after the clock, in whole seconds. *)
Theorem no_login_without_the_password req db r db' :
  Service.Login req db = (r, db') ->
  db' = trip db
  /\ forall resp,
       r = Ok resp ->
       served db = true
       /\ exists u rest,
            filter (fun u => (User.Email u =? LoginRequest.Email req)%string)
                   (users db) = u :: rest
            /\ In u (users db)
            /\ User.Email u = LoginRequest.Email req
            /\ bcrypt.CompareHashAndPassword (User.PasswordHash u)
                                             (LoginRequest.Password req) = Ok tt
            /\ jwt.SignedString (User.ID u)
                 ((clock db + 604800000000000) / 1000000000)
                 (if (os.Getenv "JWT_SECRET" =? "")%string
                  then "your-secret-key" else os.Getenv "JWT_SECRET")
               = Ok (AuthResponse.Token resp).
Proof.
  rewrite Login_eq.
  destruct (served db).
  2:{ intros E; injection E as <- <-. split; [reflexivity|discriminate]. }
  destruct (filter _ (users db)) as [|u rest] eqn:F.
  { intros E; injection E as <- <-. split; [reflexivity|discriminate]. }
  destruct (bcrypt.CompareHashAndPassword _ _) as [[]|] eqn:C.
  2:{ intros E; injection E as <- <-. split; [reflexivity|discriminate]. }
  destruct (jwt.SignedString _ _ _) as [token|] eqn:T.
  2:{ intros E; injection E as <- <-. split; [reflexivity|discriminate]. }
  intros E; injection E as <- <-. split; [reflexivity|].
  intros resp E; injection E as <-. split; [reflexivity|].
  exists u, rest. destruct (filter_head_In _ _ _ _ F) as [I K].
  apply String.eqb_eq in K. repeat split; try assumption.
Qed.

End Accounts.


Lemma a_failed_registration_witness :
  exists db',
    auth.Service.Register (RegisterRequest.mk "bob@example.com" "hunter2") example.db0
    = (Err (Wrap "failed to create user" (Pg (UniqueViolation "users_email_key"))), db')
    /\ pg.same_tables example.db0 db'.
Proof.
  destruct (a_failed_registration
              (RegisterRequest.mk "bob@example.com" "hunter2") example.db0)
    as (_ & Taken).
  apply (Taken example.bob (standin.hashOf "hunter2")).
  - right. left. reflexivity.
  - reflexivity.
  - reflexivity.
  - reflexivity.
Defined.

Lemma no_login_without_the_password_witness :
  exists resp,
    fst (auth.Service.Login (LoginRequest.mk "alice@example.com" "wonderland")
           example.db0) = Ok resp
    /\ bcrypt.CompareHashAndPassword (User.PasswordHash example.alice) "wonderland"
       = Ok tt.
Proof.
  destruct (auth.Service.Login (LoginRequest.mk "alice@example.com" "wonderland")
              example.db0) as [r db'] eqn:L.
  assert (E : exists resp, r = Ok resp)
    by (vm_compute in L; injection L as <- _; eexists; reflexivity).
  destruct E as (resp & ->).
  destruct (no_login_without_the_password _ _ _ _ L) as (_ & Found).
  destruct (Found resp eq_refl) as (_ & u & rest & F & _ & _ & C & _).
  exists resp. split; [reflexivity|].
  cbn in F. injection F as <- _. exact C.
Defined.

(** ** Looking a user up *)

Section Lookup.
Import pg sql invitation.

(** X14. Looking a user up by email never fails. [GetUserIDByEmail]
    returns no error on any store and makes one round trip; it returns an
    identifier only when the store served the query, and then that of the
    first stored user with the email; it returns none when no stored user
    has the email, and also whenever the store did not serve the query:
    a failure of the store is reported as an unknown email. *)
Theorem lookup_by_email_never_fails email db :
  exists r,
    Repository.GetUserIDByEmail email db = (Ok r, trip db)
    /\ (forall id,
          r = Some id ->
          served db = true
          /\ exists u rest,
               filter (fun u => (User.Email u =? email)%string) (users db) = u :: rest
               /\ In u (users db) /\ User.Email u = email /\ User.ID u = id)
    /\ (r = None <->
        served db = false \/ forall u, In u (users db) -> User.Email u <> email).
Proof.
  unfold Repository.GetUserIDByEmail, bind, read, queryRow.
  rewrite roundTrip_eq. destruct (served db).
  - change (users (trip db)) with (users db).
    destruct (filter _ (users db)) as [|u rest] eqn:F.
    + exists None. split; [reflexivity|]. split; [discriminate|].
      split; [|reflexivity]. intros _. right. intros u I E.
      assert (In u (filter (fun u => (User.Email u =? email)%string) (users db)))
        by (apply filter_In; split; [exact I|apply String.eqb_eq; exact E]).
      rewrite F in *. contradiction.
    + destruct (filter_head_In _ _ _ _ F) as [I K]. apply String.eqb_eq in K.
      exists (Some (User.ID u)). split; [reflexivity|]. split.
      * intros id E; injection E as <-. split; [reflexivity|].
        exists u, rest. auto.
      * split; [discriminate|]. intros [D | N]; [discriminate D|].
        destruct (N u I K).
  - exists None. split; [reflexivity|]. split; [discriminate|].
    split; [|reflexivity]. intros _. left. reflexivity.
Qed.

End Lookup.

(** ** Regular expressions *)

Section Expressions.
Import regexp.

Lemma nullable_matches r : nullable r = true <-> matches r "".
Proof.
  split.
  - induction r; simpl; intros N; try discriminate.
    + constructor.
    + apply andb_true_iff in N as [N1 N2].
      change "" with ("" ++ ""). constructor; auto.
    + apply orb_true_iff in N as [N|N]; [apply matches_left|apply matches_right]; auto.
    + constructor.
  - intros M. remember "" as s eqn:E. revert E.
    induction M; intros E; simpl; try reflexivity.
    + discriminate.
    + destruct u; [|discriminate]. simpl in E. subst v.
      rewrite IHM1, IHM2; reflexivity.
    + rewrite IHM by assumption. reflexivity.
    + rewrite IHM by assumption. apply orb_true_r.
Qed.

Lemma matches_star_head r c s :
  matches (Star r) (String c s) ->
  exists u v, s = u ++ v /\ matches r (String c u) /\ matches (Star r) v.
Proof.
  intros M. remember (Star r) as q eqn:Q. remember (String c s) as w eqn:W.
  revert c s W. induction M; intros c0 s0 W; try discriminate.
  injection Q as ->. destruct u as [|a u].
  - simpl in W. apply IHM2; [reflexivity|exact W].
  - simpl in W. injection W as -> <-. exists u, v. auto.
Qed.

Lemma matches_concat_inv r s w :
  matches (Concat r s) w -> exists u v, w = u ++ v /\ matches r u /\ matches s v.
Proof. intros M. inversion M; subst. eauto. Qed.

Lemma matches_alternate_inv r s w :
  matches (Alternate r s) w -> matches r w \/ matches s w.
Proof. intros M. inversion M; subst; auto. Qed.

Lemma matches_concat_head r s c w :
  matches (Concat r s) (String c w) ->
  (matches r "" /\ matches s (String c w))
  \/ exists u v, w = u ++ v /\ matches r (String c u) /\ matches s v.
Proof.
  intros M. apply matches_concat_inv in M as (u & v & E & M1 & M2).
  destruct u as [|a u]; simpl in E.
  - subst v. left. auto.
  - injection E as <- ->. right. eauto.
Qed.

Lemma derive_matches c r s : matches (derive c r) s <-> matches r (String c s).
Proof.
  revert s. induction r; intros w; simpl.
  - split; intros M; inversion M.
  - split; intros M; inversion M.
  - destruct (inRanges c ranges) eqn:I.
    + split; intros M; inversion M; subst.
      * constructor; exact I.
      * constructor.
    + split; intros M; inversion M; subst. congruence.
  - destruct (nullable r1) eqn:N.
    + split; intros M.
      * apply matches_alternate_inv in M as [M | M].
        -- apply matches_concat_inv in M as (u & v & -> & M1 & M2).
           change (String c (u ++ v)) with (String c u ++ v).
           constructor; [apply IHr1|]; assumption.
        -- change (String c w) with ("" ++ String c w).
           constructor; [apply nullable_matches; exact N|apply IHr2; exact M].
      * apply matches_concat_head in M as [(M1 & M2) | (u & v & -> & M1 & M2)].
        -- apply matches_right, IHr2, M2.
        -- apply matches_left. constructor; [apply IHr1|]; assumption.
    + split; intros M.
      * apply matches_concat_inv in M as (u & v & -> & M1 & M2).
        change (String c (u ++ v)) with (String c u ++ v).
        constructor; [apply IHr1|]; assumption.
      * apply matches_concat_head in M as [(M1 & M2) | (u & v & -> & M1 & M2)].
        -- apply nullable_matches in M1. congruence.
        -- constructor; [apply IHr1|]; assumption.
  - split; intros M; inversion M; subst.
    + apply matches_left, IHr1; assumption.
    + apply matches_right, IHr2; assumption.
    + apply matches_left, IHr1; assumption.
    + apply matches_right, IHr2; assumption.
  - split; intros M.
    + apply matches_concat_inv in M as (u & v & -> & M1 & M2).
      change (String c (u ++ v)) with (String c u ++ v).
      constructor; [apply IHr|]; assumption.
    + apply matches_star_head in M as (u & v & -> & M1 & M2).
      constructor; [apply IHr|]; assumption.
Qed.

(** The matcher decides the expression. *)
Lemma MatchString_matches r s : MatchString r s = true <-> matches r s.
Proof.
  revert r. induction s as [|c s IH]; intros r; simpl.
  - apply nullable_matches.
  - rewrite IH. apply derive_matches.
Qed.

Lemma matches_class_inv ranges w :
  matches (CharClass ranges) w -> exists c, w = String c "" /\ inRanges c ranges = true.
Proof. intros M. inversion M; subst. eauto. Qed.

Lemma matches_star_class ranges s :
  matches (Star (CharClass ranges)) s <-> allIn ranges s = true.
Proof.
  split.
  - intros M. remember (Star (CharClass ranges)) as q eqn:Q.
    induction M; try discriminate; [reflexivity|].
    injection Q as ->. apply matches_class_inv in M1 as (c & -> & I). simpl.
    rewrite IHM2 by reflexivity. rewrite I. reflexivity.
  - induction s as [|c s IH]; simpl; intros A; [constructor|].
    apply andb_true_iff in A as [I A].
    change (String c s) with (String c "" ++ s).
    constructor; [constructor; exact I|auto].
Qed.

Lemma matches_plus_class ranges s :
  matches (Plus (CharClass ranges)) s <-> s <> "" /\ allIn ranges s = true.
Proof.
  unfold Plus. split.
  - intros M. apply matches_concat_inv in M as (u & v & -> & M1 & M2).
    apply matches_class_inv in M1 as (c & -> & I).
    split; [discriminate|]. simpl.
    apply matches_star_class in M2. rewrite M2, I. reflexivity.
  - intros [N A]. destruct s as [|c s]; [congruence|]. simpl in A.
    apply andb_true_iff in A as [I A].
    change (String c s) with (String c "" ++ s).
    constructor; [constructor; exact I|apply matches_star_class; exact A].
Qed.

Lemma matches_repeat_class n ranges s :
  matches (Repeat n (CharClass ranges)) s
  <-> (n <= String.length s)%nat /\ allIn ranges s = true.
Proof.
  revert s. induction n as [|n IH]; intros s; simpl.
  - rewrite matches_star_class. split; [intros A; split; [lia|exact A]|tauto].
  - split.
    + intros M. apply matches_concat_inv in M as (u & v & -> & M1 & M2).
      apply matches_class_inv in M1 as (c & -> & I).
      apply IH in M2 as [L A]. simpl.
      split; [lia|]. rewrite A, I. reflexivity.
    + intros [L A]. destruct s as [|c s]; [simpl in L; lia|]. simpl in L, A.
      apply andb_true_iff in A as [I A].
      change (String c s) with (String c "" ++ s).
      constructor; [constructor; exact I|apply IH; split; [lia|exact A]].
Qed.

Lemma matches_literal c s : matches (Literal c) s <-> s = String c "".
Proof.
  unfold Literal. split.
  - intros M. apply matches_class_inv in M as (c0 & -> & I). simpl in I.
    rewrite orb_false_r in I. apply andb_true_iff in I as [A B].
    apply N.leb_le in A, B.
    assert (E : N_of_ascii c = N_of_ascii c0) by lia.
    apply (f_equal ascii_of_N) in E. rewrite !ascii_N_embedding in E.
    subst. reflexivity.
  - intros ->. constructor. simpl. rewrite N.leb_refl. reflexivity.
Qed.

End Expressions.

(** ** Email addresses *)

Section Addresses.
Import regexp invitation.
Context `{strings.Pkg}.

Lemma append_assoc (a b c : string) : (a ++ b) ++ c = a ++ b ++ c.
Proof. induction a as [|x a IH]; simpl; [reflexivity|rewrite IH; reflexivity]. Qed.

Lemma occurrences_app c (a b : string) :
  occurrences c (a ++ b) = (occurrences c a + occurrences c b)%nat.
Proof. induction a as [|x a IH]; simpl; [reflexivity|rewrite IH; lia]. Qed.

Lemma occurrences_outside c ranges s :
  inRanges c ranges = false -> allIn ranges s = true -> occurrences c s = O.
Proof.
  intros N. induction s as [|a s IH]; simpl; [reflexivity|].
  intros A. apply andb_true_iff in A as [I A].
  destruct (Ascii.eqb_spec a c) as [->|]; [congruence|]. simpl. auto.
Qed.

Lemma emailRegex_matches s : matches Service.emailRegex s <-> emailShape s.
Proof.
  unfold Service.emailRegex, emailShape. split.
  - intros M.
    apply matches_concat_inv in M as (l & w1 & -> & Ml & M).
    apply matches_concat_inv in M as (a & w2 & -> & Ma & M).
    apply matches_concat_inv in M as (d & w3 & -> & Md & M).
    apply matches_concat_inv in M as (p & t & -> & Mp & Mt).
    apply matches_literal in Ma, Mp. subst a p.
    apply matches_plus_class in Ml as [Nl Al], Md as [Nd Ad].
    apply matches_repeat_class in Mt as [Lt At].
    exists l, d, t. repeat split; assumption.
  - intros (l & d & t & -> & Nl & Al & Nd & Ad & Lt & At).
    constructor; [apply matches_plus_class; auto|].
    change ("@" ++ d ++ "." ++ t) with (String "@" "" ++ d ++ "." ++ t).
    constructor; [apply matches_literal; reflexivity|].
    constructor; [apply matches_plus_class; auto|].
    change ("." ++ t) with (String "." "" ++ t).
    constructor; [apply matches_literal; reflexivity|].
    apply matches_repeat_class. auto.
Qed.

(** X15. What [isValidEmail] accepts. An email is valid exactly when,
    with the white space around it trimmed, it is at most 254 bytes long
    and has the form local@domain.tld: a local part that is not empty,
    of letters, digits and the characters . _ % + -, a domain that is
    not empty, of letters, digits, dots and hyphens, then a dot and two
    or more letters. Such an address has exactly one at sign, and none
    of its bytes is outside ASCII or a space. *)
Theorem valid_emails email :
  (Service.isValidEmail email = true
   <-> (String.length (strings.TrimSpace email) <= 254)%nat
       /\ emailShape (strings.TrimSpace email))
  /\ (Service.isValidEmail email = true ->
      occurrences "@" (strings.TrimSpace email) = 1%nat
      /\ occurrences " " (strings.TrimSpace email) = O
      /\ allIn [("!", "~")]%char (strings.TrimSpace email) = true).
Proof.
  assert (Valid : Service.isValidEmail email = true
                  <-> (String.length (strings.TrimSpace email) <= 254)%nat
                      /\ emailShape (strings.TrimSpace email)).
  { unfold Service.isValidEmail. cbv zeta.
    destruct (Nat.ltb_spec 254 (String.length (strings.TrimSpace email))).
    - split; [discriminate|]. intros [L _]. lia.
    - rewrite MatchString_matches, emailRegex_matches. split; [|tauto].
      intros S. split; [lia|exact S]. }
  split; [exact Valid|].
  intros V. apply Valid in V as (_ & l & d & t & -> & _ & Al & _ & Ad & _ & At).
  split; [|split].
  - rewrite !occurrences_app.
    rewrite (occurrences_outside "@" Service.localPart _ eq_refl Al),
      (occurrences_outside "@" Service.domainPart _ eq_refl Ad),
      (occurrences_outside "@" Service.letters _ eq_refl At). reflexivity.
  - rewrite !occurrences_app.
    rewrite (occurrences_outside " " Service.localPart _ eq_refl Al),
      (occurrences_outside " " Service.domainPart _ eq_refl Ad),
      (occurrences_outside " " Service.letters _ eq_refl At). reflexivity.
  - assert (App : forall a b, allIn [("!", "~")]%char a = true ->
                              allIn [("!", "~")]%char b = true ->
                              allIn [("!", "~")]%char (a ++ b) = true).
    { intros a b A B. induction a as [|x a IH]; simpl in *; [exact B|].
      apply andb_true_iff in A as [I A]. rewrite I. simpl. auto. }
    assert (Sub : forall ranges s,
              (forall c, inRanges c ranges = true ->
                         inRanges c [("!", "~")]%char = true) ->
              allIn ranges s = true -> allIn [("!", "~")]%char s = true).
    { intros ranges s R. induction s as [|x s IH]; simpl; [reflexivity|].
      intros A. apply andb_true_iff in A as [I A].
      change (inRanges x [("!", "~")]%char && allIn [("!", "~")]%char s = true).
      rewrite (R _ I), (IH A). reflexivity. }
    assert (Printable : forall ranges,
              forallb (fun range =>
                         (33 <=? N_of_ascii (fst range))%N
                         && (N_of_ascii (snd range) <=? 126)%N) ranges = true ->
              forall c, inRanges c ranges = true ->
                        inRanges c [("!", "~")]%char = true).
    { intros ranges F c I. unfold inRanges in *.
      apply existsb_exists in I as (range & In_ & I).
      rewrite forallb_forall in F. specialize (F _ In_).
      apply andb_true_iff in F as [F1 F2], I as [I1 I2].
      apply N.leb_le in F1, F2, I1, I2. simpl.
      rewrite orb_false_r. apply andb_true_iff.
      split; apply N.leb_le; simpl; lia. }
    apply App; [exact (Sub _ _ (Printable Service.localPart eq_refl) Al)|].
    apply (App "@"); [reflexivity|].
    apply App; [exact (Sub _ _ (Printable Service.domainPart eq_refl) Ad)|].
    apply (App "."); [reflexivity|].
    exact (Sub _ _ (Printable Service.letters eq_refl) At).
Qed.

End Addresses.

Lemma valid_emails_witness :
  emailShape "bob@example.com"
  /\ invitation.Service.isValidEmail " bob@example.com " = true
  /\ invitation.Service.isValidEmail "bob@localhost" = false
  /\ invitation.Service.isValidEmail "bob@example.c" = false
  /\ invitation.Service.isValidEmail "bob@@example.com" = false.
Proof.
  split.
  - exact (proj2 (proj1 (proj1 (valid_emails "bob@example.com")) eq_refl)).
  - repeat split; reflexivity.
Defined.

(** ** Sending an invitation *)

Section Sending.
Import pg sql invitation.
Context `{strings.Pkg}.

Lemma validateSendInvitationRequest_ok req :
  Service.validateSendInvitationRequest req = ok
  <-> 0 < SendInvitationRequest.EventID req
      /\ SendInvitationRequest.InviteeEmail req <> ""
      /\ Service.isValidEmail (SendInvitationRequest.InviteeEmail req) = true
      /\ (SendInvitationRequest.Role req = "attendee"
          \/ SendInvitationRequest.Role req = "collaborator")
      /\ (String.length (SendInvitationRequest.Message req) <= 500)%nat.
Proof.
  unfold Service.validateSendInvitationRequest.
  destruct (Z.leb_spec (SendInvitationRequest.EventID req) 0);
    [split; [discriminate|lia]|].
  destruct (String.eqb_spec (SendInvitationRequest.InviteeEmail req) "");
    [split; [discriminate|tauto]|].
  destruct (Service.isValidEmail _); cbn [negb];
    [|split; [discriminate|intros (_ & _ & D & _); discriminate D]].
  destruct (String.eqb_spec (SendInvitationRequest.Role req) "attendee"),
    (String.eqb_spec (SendInvitationRequest.Role req) "collaborator");
    cbn [negb andb];
    try (destruct (Nat.ltb_spec 500 (String.length (SendInvitationRequest.Message req)));
         [split; [discriminate|lia]|split; [intros _; repeat split; auto|reflexivity]]).
  split; [discriminate|]. intros (_ & _ & _ & [R|R] & _); contradiction.
Qed.

Lemma Repository_SendInvitation_Ok invitation db inv db' :
  Repository.SendInvitation invitation db = (Ok inv, db') ->
  served db = true
  /\ inv = Invitation.mk (invitations_id_seq db + 1) (Invitation.EventID invitation)
             (Invitation.InviterID invitation) (Invitation.InviteeEmail invitation)
             (Invitation.InviteeID invitation) (Invitation.Role invitation)
             (Invitation.Status invitation) (Invitation.Message invitation)
             (clock db) (Invitation.RespondedAt invitation)
  /\ (exists row,
        invitations db' = (invitations db ++ [row])%list
        /\ Invitation.ID row = invitations_id_seq db + 1
        /\ Invitation.EventID row = Invitation.EventID invitation
        /\ Invitation.InviterID row = Invitation.InviterID invitation
        /\ Invitation.InviteeEmail row = Invitation.InviteeEmail invitation
        /\ Invitation.InviteeID row = Invitation.InviteeID invitation
        /\ Invitation.Role row = Invitation.Role invitation
        /\ Invitation.Message row = Invitation.Message invitation
        /\ Invitation.CreatedAt row = clock db)
  /\ users db' = users db /\ events db' = events db
  /\ event_attendees db' = event_attendees db.
Proof.
  unfold Repository.SendInvitation, onError, bind, nextval, now, read, write,
    constraint, ret, fail.
  rewrite roundTrip_eq. destruct (served db); [|discriminate].
  cbn zeta.
  destruct (hasEvent _ _); [|discriminate].
  intros E; injection E as <- <-. split; [reflexivity|]. split; [reflexivity|].
  split; [|repeat split].
  eexists. split; [reflexivity|]. cbn. repeat split.
Qed.

(** The insert does not look at the inviter. *)
Lemma Repository_SendInvitation_inviter invitation inviter2 db inv db' :
  Repository.SendInvitation invitation db = (Ok inv, db') ->
  exists inv2 db2,
    Repository.SendInvitation
      (Invitation.mk (Invitation.ID invitation) (Invitation.EventID invitation)
         inviter2 (Invitation.InviteeEmail invitation)
         (Invitation.InviteeID invitation) (Invitation.Role invitation)
         (Invitation.Status invitation) (Invitation.Message invitation)
         (Invitation.CreatedAt invitation) (Invitation.RespondedAt invitation)) db
    = (Ok inv2, db2)
    /\ Invitation.InviterID inv2 = inviter2.
Proof.
  unfold Repository.SendInvitation, onError, bind, nextval, now, read, write,
    constraint, ret, fail.
  rewrite roundTrip_eq. destruct (served db); [|discriminate].
  cbn zeta. cbn [Invitation.EventID].
  destruct (hasEvent _ _); [|discriminate].
  intros _. eexists. eexists. split; [reflexivity|]. reflexivity.
Qed.

Lemma lookup_found email db :
  exists r,
    Repository.GetUserIDByEmail email db = (Ok r, trip db)
    /\ forall id,
         r = Some id ->
         exists u, In u (users db) /\ User.Email u = email /\ User.ID u = id.
Proof.
  unfold Repository.GetUserIDByEmail, bind, read, queryRow.
  rewrite roundTrip_eq. destruct (served db).
  - change (users (trip db)) with (users db).
    destruct (filter _ (users db)) as [|u rest] eqn:F.
    + exists None. split; [reflexivity|discriminate].
    + destruct (filter_head_In _ _ _ _ F) as [I K]. apply String.eqb_eq in K.
      exists (Some (User.ID u)). split; [reflexivity|].
      intros id E; injection E as <-. exists u. auto.
  - exists None. split; [reflexivity|discriminate].
Qed.

(** X16. An invitation is stored as it was given. When [SendInvitation]
    succeeds, the request has passed the checks (a positive event
    identifier, a valid email, the role 'attendee' or 'collaborator', a
    message of at most 500 bytes); the invitation returned is pending and
    not responded to, and carries the inviter, the event, the role, the
    message and the email of the request, the email byte for byte as it
    was given although it was validated with its white space trimmed; it
    names an invitee only if a stored user has exactly that email; one
    row with these values has been appended to [invitations], and no
    other table has changed, so the invitee is not yet an attendee. The
    inviter is not compared with the organizer of the event: the same
    request succeeds for every user. *)
Theorem an_invitation_is_stored_as_given req inviterID db inv db' :
  Service.SendInvitation req inviterID db = (Ok inv, db') ->
  (0 < SendInvitationRequest.EventID req
   /\ Service.isValidEmail (SendInvitationRequest.InviteeEmail req) = true
   /\ (SendInvitationRequest.Role req = "attendee"
       \/ SendInvitationRequest.Role req = "collaborator")
   /\ (String.length (SendInvitationRequest.Message req) <= 500)%nat)
  /\ (Invitation.EventID inv = SendInvitationRequest.EventID req
      /\ Invitation.InviterID inv = inviterID
      /\ Invitation.InviteeEmail inv = SendInvitationRequest.InviteeEmail req
      /\ Invitation.Role inv = SendInvitationRequest.Role req
      /\ Invitation.Message inv = SendInvitationRequest.Message req
      /\ Invitation.Status inv = "pending"
      /\ Invitation.RespondedAt inv = None)
  /\ (forall id,
        Invitation.InviteeID inv = Some id ->
        exists u, In u (users db)
                  /\ User.Email u = SendInvitationRequest.InviteeEmail req
                  /\ User.ID u = id)
  /\ (exists row,
        invitations db' = (invitations db ++ [row])%list
        /\ Invitation.ID row = Invitation.ID inv
        /\ Invitation.EventID row = Invitation.EventID inv
        /\ Invitation.InviterID row = inviterID
        /\ Invitation.InviteeEmail row = SendInvitationRequest.InviteeEmail req
        /\ Invitation.InviteeID row = Invitation.InviteeID inv
        /\ Invitation.Role row = Invitation.Role inv
        /\ Invitation.Message row = Invitation.Message inv
        /\ Invitation.CreatedAt row = Invitation.CreatedAt inv)
  /\ users db' = users db /\ events db' = events db
  /\ event_attendees db' = event_attendees db
  /\ (forall inviter2,
        hasUser inviter2 db = true ->
        exists inv2 db2,
          Service.SendInvitation req inviter2 db = (Ok inv2, db2)
          /\ Invitation.InviterID inv2 = inviter2).
Proof.
  unfold Service.SendInvitation, bind at 1, lift.
  destruct (Service.validateSendInvitationRequest req) as [[]|] eqn:V;
    [|discriminate].
  destruct (proj1 (validateSendInvitationRequest_ok req) V)
    as (PE & _ & VE & R & LM).
  unfold bind, onError.
  destruct (lookup_found (SendInvitationRequest.InviteeEmail req) db)
    as (r & G & Found).
  rewrite G. intros S.
  destruct (Repository_SendInvitation_Ok _ _ _ _ S)
    as (_ & -> & (row & Rows & K) & Us & Es & As).
  cbn [Invitation.EventID Invitation.InviterID Invitation.InviteeEmail
         Invitation.InviteeID Invitation.Role Invitation.Status
         Invitation.Message Invitation.RespondedAt Invitation.ID
         Invitation.CreatedAt] in *.
  change (users (trip db)) with (users db) in Us.
  change (events (trip db)) with (events db) in Es.
  change (event_attendees (trip db)) with (event_attendees db) in As.
  change (invitations (trip db)) with (invitations db) in Rows.
  split; [auto|]. split; [repeat split|]. split; [exact Found|].
  split; [exists row; tauto|].
  split; [exact Us|]. split; [exact Es|]. split; [exact As|].
  intros inviter2 _.
  destruct (Repository_SendInvitation_inviter _ inviter2 _ _ _ S)
    as (inv2 & db2 & S2 & I2).
  exists inv2, db2. split; [|exact I2].
  exact S2.
Qed.

End Sending.

Lemma an_invitation_is_stored_as_given_witness :
  exists inv db',
    invitation.Service.SendInvitation
      (SendInvitationRequest.mk 1 " bob@example.com " "attendee" "Join us") 2
      example.db0
    = (Ok inv, db')
    /\ Invitation.InviteeEmail inv = " bob@example.com "
    /\ Invitation.InviteeID inv = None
    /\ Invitation.InviterID inv = 2
    /\ pg.event_attendees db' = pg.event_attendees example.db0
    /\ length (pg.invitations db') = 1%nat.
Proof.
  destruct (invitation.Service.SendInvitation
              (SendInvitationRequest.mk 1 " bob@example.com " "attendee" "Join us") 2
              example.db0) as [r db'] eqn:S.
  assert (E : exists inv, r = Ok inv)
    by (vm_compute in S; injection S as <- _; eexists; reflexivity).
  destruct E as (inv & ->).
  destruct (an_invitation_is_stored_as_given _ _ _ _ _ S)
    as (_ & (_ & Inviter & Email & _) & _ & (row & Rows & _) & _ & _ & As & _).
  exists inv, db'. split; [reflexivity|]. split; [exact Email|].
  split; [vm_compute in S; injection S as <- _; reflexivity|].
  split; [exact Inviter|]. split; [exact As|].
  rewrite Rows. reflexivity.
Defined.

(** ** The handlers of the event package *)

Section Forbidden.
Import pg sql event.
Context `{time.Pkg}.

Ltac other_error :=
  let E := fresh in
  let T := fresh in
  intros E; injection E as <- <-;
  split; [intros T; cbn in T; discriminate T|].

Lemma Repository_UpdateEvent_text eventID req db e db' :
  Repository.UpdateEvent eventID req db = (Err e, db') ->
  Error e <> "you are not authorized to update this event".
Proof.
  unfold Repository.UpdateEvent, bind. rewrite GetEventByID_eq.
  destruct (served db).
  2:{ intros E; injection E as <- _. discriminate. }
  destruct (filter _ (events db)) as [|ev rest] eqn:L.
  { intros E; injection E as <- _. discriminate. }
  unfold lift.
  destruct (Repository.applyUpdates req ev) as [cur|e0] eqn:A.
  2:{ intros E; injection E as <- _.
      revert A. unfold Repository.applyUpdates.
      destruct (UpdateEventRequest.Title req =? "")%string,
               (UpdateEventRequest.Description req =? "")%string,
               (UpdateEventRequest.Location req =? "")%string,
               (UpdateEventRequest.Date req =? "")%string,
               (UpdateEventRequest.Time req =? "")%string; simpl;
        repeat match goal with
               | |- context [time.Parse ?l ?v] => destruct (time.Parse l v); simpl
               end;
        intros A; try discriminate A; injection A as <-; discriminate. }
  unfold onError, bind, write, read, queryRow, fail, ret. rewrite roundTrip_eq.
  destruct (served (trip db)).
  2:{ intros E; injection E as <- _. discriminate. }
  match goal with
  | |- context [match ?x with [] => _ | _ :: _ => _ end] => destruct x
  end; intros E; [injection E as <- _|]; discriminate.
Qed.

Lemma Service_UpdateEvent_forbidden eventID req caller db e db' :
  Service.UpdateEvent eventID req caller db = (Err e, db') ->
  Error e = "you are not authorized to update this event"
  <-> notTheOrganizer eventID caller db.
Proof.
  unfold Service.UpdateEvent, fail, notTheOrganizer.
  destruct (Z.leb_spec eventID 0) as [|P].
  { other_error. intros (? & _). lia. }
  unfold bind at 1. rewrite GetEventByID_eq.
  destruct (served db).
  2:{ other_error. intros (_ & D & _). discriminate D. }
  destruct (filter _ (events db)) as [|ev rest] eqn:L.
  { other_error. intros (_ & _ & ? & ? & D & _). discriminate D. }
  destruct (Z.eqb_spec (Event.OrganizerID ev) caller) as [O|N]; cbn [negb].
  2:{ intros E; injection E as <- <-. split; [|reflexivity].
      intros _. split; [exact P|]. split; [reflexivity|]. eauto. }
  assert (No : ~ (0 < eventID /\ true = true
                  /\ exists ev0 rest0, ev :: rest = ev0 :: rest0
                                       /\ Event.OrganizerID ev0 <> caller)).
  { intros (_ & _ & ev0 & rest0 & E & N). injection E as <- _. contradiction. }
  unfold bind at 1.
  match goal with
  | |- (match ?v (trip db) with _ => _ end) = _ -> _ =>
      assert (V : exists r, v (trip db) = (r, trip db)
                            /\ forall e0, r = Err e0 ->
                                 Error e0 <> "you are not authorized to update this event")
  end.
  { destruct (negb _ && negb _).
    - unfold bind, lift, Service.validateDateTime, Service.validateDateFormat,
        Service.validateTimeFormat, Service.validateFutureEvent.
      destruct (time.Parse "2006-01-02" _);
        [|eexists; split; [reflexivity|intros ? E; injection E as <-; discriminate]].
      destruct (time.Parse "15:04:05" _);
        [|eexists; split; [reflexivity|intros ? E; injection E as <-; discriminate]].
      cbn [ok].
      destruct (time.Parse "2006-01-02 15:04:05" _);
        [|eexists; split; [reflexivity|intros ? E; injection E as <-; discriminate]].
      unfold bind, Service.Now, read, fail, ret.
      destruct (time.Before _ _);
        eexists; (split; [reflexivity|intros ? E; try discriminate E;
                                      injection E as <-; discriminate]).
    - destruct (negb _).
      + unfold lift, Service.validateDateFormat. destruct (time.Parse _ _);
          eexists; (split; [reflexivity|intros ? E; try discriminate E;
                                        injection E as <-; discriminate]).
      + destruct (negb _).
        * unfold lift, Service.validateTimeFormat. destruct (time.Parse _ _);
            eexists; (split; [reflexivity|intros ? E; try discriminate E;
                                          injection E as <-; discriminate]).
        * eexists. split; [reflexivity|discriminate]. }
  destruct V as (r & -> & Text). destruct r as [[]|e0].
  - intros R. apply Repository_UpdateEvent_text in R. tauto.
  - intros E; injection E as <- <-. specialize (Text e0 eq_refl). tauto.
Qed.

Lemma Service_DeleteEvent_forbidden eventID caller db e db' :
  Service.DeleteEvent eventID caller db = (Err e, db') ->
  Error e = "you are not authorized to delete this event"
  <-> notTheOrganizer eventID caller db.
Proof.
  unfold Service.DeleteEvent, fail, notTheOrganizer.
  destruct (Z.leb_spec eventID 0) as [|P].
  { other_error. intros (? & _). lia. }
  unfold bind at 1. rewrite GetEventByID_eq.
  destruct (served db).
  2:{ other_error. intros (_ & D & _). discriminate D. }
  destruct (filter _ (events db)) as [|ev rest] eqn:L.
  { other_error. intros (_ & _ & ? & ? & D & _). discriminate D. }
  destruct (Z.eqb_spec (Event.OrganizerID ev) caller) as [O|N]; cbn [negb].
  2:{ intros E; injection E as <- <-. split; [|reflexivity].
      intros _. split; [exact P|]. split; [reflexivity|]. eauto. }
  unfold Repository.DeleteEvent, bind, onError, read, write, ret, fail.
  rewrite roundTrip_eq.
  destruct (served (trip db)).
  2:{ other_error. intros (_ & _ & ev0 & rest0 & E & N).
      injection E as <- _. contradiction. }
  destruct (Nat.eqb _ 0); [|discriminate].
  other_error. intros (_ & _ & ev0 & rest0 & E & N).
  injection E as <- _. contradiction.
Qed.

Lemma Service_InviteUserToEvent_forbidden eventID inviterID req db e db' :
  Service.InviteUserToEvent eventID inviterID req db = (Err e, db') ->
  Error e = "only the event creator can invite users to this event"
  <-> notTheOrganizer eventID inviterID db
      /\ 0 < inviterID /\ 0 < AddAttendeeRequest.UserID req
      /\ validRole (AddAttendeeRequest.Role req).
Proof.
  unfold Service.InviteUserToEvent, fail, notTheOrganizer.
  destruct (Z.leb_spec eventID 0) as [|P].
  { other_error. intros ((? & _) & _). lia. }
  destruct (Z.leb_spec inviterID 0) as [|PI].
  { other_error. intros (_ & ? & _). lia. }
  destruct (Z.leb_spec (AddAttendeeRequest.UserID req) 0) as [|PU].
  { other_error. intros (_ & _ & ? & _). lia. }
  destruct (negb _ && negb _ && negb _) eqn:Role.
  { other_error. intros (_ & _ & _ & V). revert Role V. unfold validRole.
    destruct (String.eqb_spec (AddAttendeeRequest.Role req) "attendee"),
      (String.eqb_spec (AddAttendeeRequest.Role req) "collaborator"),
      (String.eqb_spec (AddAttendeeRequest.Role req) "organizer");
      cbn; intros; try discriminate; intuition congruence. }
  assert (V : validRole (AddAttendeeRequest.Role req)).
  { revert Role. unfold validRole.
    destruct (String.eqb_spec (AddAttendeeRequest.Role req) "attendee"),
      (String.eqb_spec (AddAttendeeRequest.Role req) "collaborator"),
      (String.eqb_spec (AddAttendeeRequest.Role req) "organizer");
      cbn; intros; try discriminate; auto. }
  unfold bind, onError. rewrite GetEventByID_eq.
  destruct (served db).
  2:{ other_error. intros ((_ & D & _) & _). discriminate D. }
  destruct (filter _ (events db)) as [|ev rest] eqn:L.
  { other_error. intros ((_ & _ & ? & ? & D & _) & _). discriminate D. }
  destruct (Z.eqb_spec (Event.OrganizerID ev) inviterID) as [O|N]; cbn [negb].
  2:{ intros E; injection E as <- <-. split; [|reflexivity].
      intros _. repeat split; try assumption. eauto. }
  destruct (AddAttendeeRequest.UserID req =? inviterID).
  { other_error. intros ((_ & _ & ev0 & rest0 & E & N) & _).
    injection E as <- _. contradiction. }
  unfold Repository.AddAttendee, onError.
  destruct (insertAttendee _ _ _ _ (trip db)) as [[[]|c] db2]; [discriminate|].
  other_error. intros ((_ & _ & ev0 & rest0 & E & N) & _).
  injection E as <- _. contradiction.
Qed.

(** X17. The handlers that change or delete an event, or invite to it,
    answer 403 to those who are not its organizer, and only to them.
    [UpdateEvent], [DeleteEvent] and [InviteUserToEvent] answer 401
    exactly when the request carries no user, and then the store is not
    touched; they answer 403 exactly when the request carries a user, its
    path value and body are read, the identifier is positive (for an
    invitation, also those of the inviter and the invited user, and the
    role is a valid one), the store serves the lookup, and the first event
    stored under the identifier has another organizer; and whenever the
    answer is not 200, no table has changed. *)
Theorem forbidden_means_not_the_organizer db :
  (forall (r : http.Request UpdateEventRequest.t) resp db',
     Handler.UpdateEvent r db = (resp, db') ->
     (http.StatusCode resp = http.StatusUnauthorized
      <-> http.UserID r = None /\ db' = db)
     /\ (http.StatusCode resp = http.StatusForbidden
         <-> exists userID eventID req,
               http.UserID r = Some userID /\ http.PathID r = Ok eventID
               /\ http.Decode r = Ok req
               /\ notTheOrganizer eventID userID db)
     /\ (http.StatusCode resp <> http.StatusOK -> same_tables db db'))
  /\ (forall (r : http.Request unit) resp db',
        Handler.DeleteEvent r db = (resp, db') ->
        (http.StatusCode resp = http.StatusUnauthorized
         <-> http.UserID r = None /\ db' = db)
        /\ (http.StatusCode resp = http.StatusForbidden
            <-> exists userID eventID,
                  http.UserID r = Some userID /\ http.PathID r = Ok eventID
                  /\ notTheOrganizer eventID userID db)
        /\ (http.StatusCode resp <> http.StatusOK -> same_tables db db'))
  /\ (forall (r : http.Request AddAttendeeRequest.t) resp db',
        Handler.InviteUserToEvent r db = (resp, db') ->
        (http.StatusCode resp = http.StatusUnauthorized
         <-> http.UserID r = None /\ db' = db)
        /\ (http.StatusCode resp = http.StatusForbidden
            <-> exists inviterID eventID req,
                  http.UserID r = Some inviterID /\ http.PathID r = Ok eventID
                  /\ http.Decode r = Ok req
                  /\ notTheOrganizer eventID inviterID db
                  /\ 0 < inviterID /\ 0 < AddAttendeeRequest.UserID req
                  /\ validRole (AddAttendeeRequest.Role req))
        /\ (http.StatusCode resp <> http.StatusOK -> same_tables db db')).
Proof.
  split; [|split].
  - intros r resp db'. unfold Handler.UpdateEvent.
    destruct (http.UserID r) as [userID|].
    2:{ intros E; injection E as <- <-. cbn.
        split; [tauto|]. split; [|intros _; apply same_tables_refl].
        split; [discriminate|]. intros (? & ? & ? & D & _). discriminate D. }
    destruct (http.PathID r) as [eventID|].
    2:{ intros E; injection E as <- <-. cbn.
        split; [split; [discriminate|intros [D _]; discriminate D]|].
        split; [|intros _; apply same_tables_refl].
        split; [discriminate|]. intros (? & ? & ? & _ & D & _). discriminate D. }
    destruct (http.Decode r) as [req|].
    2:{ intros E; injection E as <- <-. cbn.
        split; [split; [discriminate|intros [D _]; discriminate D]|].
        split; [|intros _; apply same_tables_refl].
        split; [discriminate|]. intros (? & ? & ? & _ & _ & D & _). discriminate D. }
    destruct (Service.UpdateEvent eventID req userID db) as [[ev|e] db1] eqn:S.
    { intros E; injection E as <- <-. cbn.
      split; [split; [discriminate|intros [D _]; discriminate D]|].
      split; [|intros N; destruct (N eq_refl)].
      split; [discriminate|].
      intros (u & i & q & U & I & Q & (_ & Sv & ev0 & rest & L & N)).
      injection U as <-. injection I as <-. injection Q as <-.
      destruct (Service_UpdateEvent_Ok _ _ _ _ _ _ S) as (_ & ev1 & G & O & _).
      rewrite GetEventByID_eq, Sv, L in G. injection G as <-. contradiction. }
    pose proof (Service_UpdateEvent_forbidden _ _ _ _ _ _ S) as F.
    pose proof (Service_UpdateEvent_Err _ _ _ _ _ _ S) as T.
    destruct (String.eqb_spec (Error e) "you are not authorized to update this event")
      as [Y|Y]; intros E; injection E as <- <-; cbn.
    + split; [split; [discriminate|intros [D _]; discriminate D]|].
      split; [|intros _; exact T].
      split; [|reflexivity]. intros _. exists userID, eventID, req.
      split; [reflexivity|]. split; [reflexivity|]. split; [reflexivity|].
      apply F, Y.
    + split; [split; [discriminate|intros [D _]; discriminate D]|].
      split; [|intros _; exact T].
      split; [discriminate|].
      intros (u & i & q & U & I & Q & N).
      injection U as <-. injection I as <-. injection Q as <-.
      apply F in N. contradiction.
  - intros r resp db'. unfold Handler.DeleteEvent.
    destruct (http.UserID r) as [userID|].
    2:{ intros E; injection E as <- <-. cbn.
        split; [tauto|]. split; [|intros _; apply same_tables_refl].
        split; [discriminate|]. intros (? & ? & D & _). discriminate D. }
    destruct (http.PathID r) as [eventID|].
    2:{ intros E; injection E as <- <-. cbn.
        split; [split; [discriminate|intros [D _]; discriminate D]|].
        split; [|intros _; apply same_tables_refl].
        split; [discriminate|]. intros (? & ? & _ & D & _). discriminate D. }
    destruct (Service.DeleteEvent eventID userID db) as [[[]|e] db1] eqn:S.
    { intros E; injection E as <- <-. cbn.
      split; [split; [discriminate|intros [D _]; discriminate D]|].
      split; [|intros N; destruct (N eq_refl)].
      split; [discriminate|].
      intros (u & i & U & I & (_ & Sv & ev0 & rest & L & N)).
      injection U as <-. injection I as <-.
      destruct (DeleteEvent_cases _ _ _ _ _ S)
        as [(_ & _ & (ev1 & rest1 & L1 & O) & _) | (e & D & _)]; [|discriminate D].
      rewrite L in L1. injection L1 as <- _. contradiction. }
    pose proof (Service_DeleteEvent_forbidden _ _ _ _ _ S) as F.
    assert (T : same_tables db db1).
    { destruct (DeleteEvent_cases _ _ _ _ _ S)
        as [(D & _) | (e0 & _ & T & _)]; [discriminate D|exact T]. }
    destruct (String.eqb_spec (Error e) "you are not authorized to delete this event")
      as [Y|Y]; intros E; injection E as <- <-; cbn.
    + split; [split; [discriminate|intros [D _]; discriminate D]|].
      split; [|intros _; exact T].
      split; [|reflexivity]. intros _. exists userID, eventID.
      split; [reflexivity|]. split; [reflexivity|]. apply F, Y.
    + split; [split; [discriminate|intros [D _]; discriminate D]|].
      split; [|intros _; exact T].
      split; [discriminate|].
      intros (u & i & U & I & N).
      injection U as <-. injection I as <-.
      apply F in N. contradiction.
  - intros r resp db'. unfold Handler.InviteUserToEvent.
    destruct (http.UserID r) as [inviterID|].
    2:{ intros E; injection E as <- <-. cbn.
        split; [tauto|]. split; [|intros _; apply same_tables_refl].
        split; [discriminate|]. intros (? & ? & ? & D & _). discriminate D. }
    destruct (http.PathID r) as [eventID|].
    2:{ intros E; injection E as <- <-. cbn.
        split; [split; [discriminate|intros [D _]; discriminate D]|].
        split; [|intros _; apply same_tables_refl].
        split; [discriminate|]. intros (? & ? & ? & _ & D & _). discriminate D. }
    destruct (http.Decode r) as [req|].
    2:{ intros E; injection E as <- <-. cbn.
        split; [split; [discriminate|intros [D _]; discriminate D]|].
        split; [|intros _; apply same_tables_refl].
        split; [discriminate|]. intros (? & ? & ? & _ & _ & D & _). discriminate D. }
    destruct (Service.InviteUserToEvent eventID inviterID req db)
      as [[[]|e] db1] eqn:S.
    { intros E; injection E as <- <-. cbn.
      split; [split; [discriminate|intros [D _]; discriminate D]|].
      split; [|intros N; destruct (N eq_refl)].
      split; [discriminate|].
      intros (u & i & q & U & I & Q & (_ & Sv & ev0 & rest & L & N) & _).
      injection U as <-. injection I as <-. injection Q as <-.
      exfalso. revert S. unfold Service.InviteUserToEvent, fail.
      destruct (eventID <=? 0); [discriminate|].
      destruct (inviterID <=? 0); [discriminate|].
      destruct (AddAttendeeRequest.UserID req <=? 0); [discriminate|].
      destruct (negb _ && negb _ && negb _); [discriminate|].
      unfold bind, onError. rewrite GetEventByID_eq, Sv, L.
      destruct (Z.eqb_spec (Event.OrganizerID ev0) inviterID); [contradiction|].
      discriminate. }
    pose proof (Service_InviteUserToEvent_forbidden _ _ _ _ _ _ S) as F.
    pose proof (Service_InviteUserToEvent_Err _ _ _ _ _ _ S) as T.
    destruct (String.eqb_spec (Error e)
                "only the event creator can invite users to this event")
      as [Y|Y]; intros E; injection E as <- <-; cbn.
    + split; [split; [discriminate|intros [D _]; discriminate D]|].
      split; [|intros _; exact T].
      split; [|reflexivity]. intros _. exists inviterID, eventID, req.
      split; [reflexivity|]. split; [reflexivity|]. split; [reflexivity|].
      apply F, Y.
    + split; [split; [discriminate|intros [D _]; discriminate D]|].
      split; [|intros _; exact T].
      split; [discriminate|].
      intros (u & i & q & U & I & Q & N).
      injection U as <-. injection I as <-. injection Q as <-.
      apply F in N. contradiction.
Qed.

End Forbidden.

Lemma forbidden_means_not_the_organizer_witness :
  http.StatusCode
    (fst (event.Handler.UpdateEvent
            (http.mkRequest (Some 2) (Ok 1) (Ok example.moveIt)) example.db0))
  = http.StatusForbidden
  /\ http.StatusCode
       (fst (event.Handler.DeleteEvent
               (http.mkRequest (Some 2) (Ok 1) (Ok tt)) example.db0))
     = http.StatusForbidden
  /\ http.StatusCode
       (fst (event.Handler.InviteUserToEvent
               (http.mkRequest (Some 2) (Ok 1) (Ok (AddAttendeeRequest.mk 1 "attendee")))
               example.db0))
     = http.StatusForbidden
  /\ http.StatusCode
       (fst (event.Handler.DeleteEvent
               (http.mkRequest None (Ok 1) (Ok tt)) example.db0))
     = http.StatusUnauthorized.
Proof.
  assert (Bob : notTheOrganizer 1 2 example.db0).
  { split; [reflexivity|]. split; [reflexivity|].
    exists example.party, []. split; [reflexivity|discriminate]. }
  destruct (forbidden_means_not_the_organizer example.db0) as (Upd & Del & Inv).
  split; [|split; [|split]].
  - destruct (event.Handler.UpdateEvent
                (http.mkRequest (Some 2) (Ok 1) (Ok example.moveIt)) example.db0)
      as [resp db'] eqn:R.
    apply (Upd _ _ _ R). exists 2, 1, example.moveIt.
    split; [reflexivity|]. split; [reflexivity|]. split; [reflexivity|exact Bob].
  - destruct (event.Handler.DeleteEvent
                (http.mkRequest (Some 2) (Ok 1) (Ok tt)) example.db0)
      as [resp db'] eqn:R.
    apply (Del _ _ _ R). exists 2, 1.
    split; [reflexivity|]. split; [reflexivity|exact Bob].
  - destruct (event.Handler.InviteUserToEvent
                (http.mkRequest (Some 2) (Ok 1)
                   (Ok (AddAttendeeRequest.mk 1 "attendee"))) example.db0)
      as [resp db'] eqn:R.
    apply (Inv _ _ _ R). exists 2, 1, (AddAttendeeRequest.mk 1 "attendee").
    split; [reflexivity|]. split; [reflexivity|]. split; [reflexivity|].
    split; [exact Bob|]. split; [reflexivity|]. split; [reflexivity|].
    left. reflexivity.
  - destruct (event.Handler.DeleteEvent
                (http.mkRequest None (Ok 1) (Ok tt)) example.db0)
      as [resp db'] eqn:R.
    apply (Del _ _ _ R). split; [reflexivity|].
    vm_compute in R. injection R as _ <-. reflexivity.
Defined.

(** ** Updating twice *)

Section Again.
Import pg sql event.
Context `{time.Pkg}.




End Again.


(** ** Listings of invitations *)

Section Invited.
Import pg sql invitation.
Context `{time.Pkg}.

(** The rows of the join. *)
Lemma joined_rows keep db r :
  In r (Repository.joined keep db)
  <-> exists e u,
        In (InvitationWithDetails.Invitation r) (invitations db)
        /\ keep (InvitationWithDetails.Invitation r) = true
        /\ In e (events db)
        /\ Event.ID e = Invitation.EventID (InvitationWithDetails.Invitation r)
        /\ In u (users db)
        /\ User.ID u = Invitation.InviterID (InvitationWithDetails.Invitation r)
        /\ r = InvitationWithDetails.mk (InvitationWithDetails.Invitation r)
                 (Event.Title e) (time.Format "2006-01-02" (Event.Date e))
                 (time.Format "15:04:05" (Event.Time e)) (Event.Location e)
                 (User.Email u).
Proof.
  unfold Repository.joined.
  split.
  - intros I. apply (Permutation_in _ (orderByDesc_perm _ _)) in I.
    apply in_flat_map in I as (i & Ii & I). apply filter_In in Ii as [Ii K].
    apply in_flat_map in I as (e & Ie & I). apply filter_In in Ie as [Ie Ke].
    apply in_map_iff in I as (u & <- & Iu). apply filter_In in Iu as [Iu Ku].
    apply Z.eqb_eq in Ke, Ku. cbn.
    exists e, u. repeat split; auto.
  - intros (e & u & Ii & K & Ie & Ke & Iu & Ku & ->).
    apply (Permutation_in _ (Permutation_sym (orderByDesc_perm _ _))).
    cbn in *. apply in_flat_map. eexists. split; [apply filter_In; eauto|].
    apply in_flat_map. exists e.
    split; [apply filter_In; split; [exact Ie|apply Z.eqb_eq; auto]|].
    apply in_map_iff. exists u.
    split; [reflexivity|apply filter_In; split; [exact Iu|apply Z.eqb_eq; auto]].
Qed.

Lemma joined_descending keep db :
  descending (fun r => Invitation.CreatedAt (InvitationWithDetails.Invitation r))
             (Repository.joined keep db).
Proof. apply orderByDesc_descending. Qed.

Lemma GetInvitationsByEmail_eq email db :
  Repository.GetInvitationsByEmail email db
  = if served db
    then (Ok (collect (Repository.joined
                         (fun i => (Invitation.InviteeEmail i =? email)%string) db)),
          trip db)
    else (Err (Wrap "failed to get invitations by email" (Pg ConnFailure)), trip db).
Proof.
  unfold Repository.GetInvitationsByEmail, onError, bind, read, ret.
  rewrite roundTrip_eq. destruct (served db); reflexivity.
Qed.

Lemma GetInvitationsByEventID_eq eventID db :
  Repository.GetInvitationsByEventID eventID db
  = if served db
    then (Ok (collect (Repository.joined
                         (fun i => Invitation.EventID i =? eventID) db)),
          trip db)
    else (Err (Wrap "failed to get invitations by event" (Pg ConnFailure)), trip db).
Proof.
  unfold Repository.GetInvitationsByEventID, onError, bind, read, ret.
  rewrite roundTrip_eq. destruct (served db); reflexivity.
Qed.

Lemma joined_lists keep db : listsInvitations keep db (Repository.joined keep db).
Proof.
  split; [apply joined_descending|]. split.
  - intros r I. apply joined_rows in I as (e & u & Ii & K & Ie & Ke & Iu & Ku & R).
    split; [exact Ii|]. split; [exact K|]. exists e, u.
    rewrite R. cbn. repeat split; assumption.
  - intros i e u Ii K Ie Ke Iu Ku.
    exists (InvitationWithDetails.mk i (Event.Title e)
              (time.Format "2006-01-02" (Event.Date e))
              (time.Format "15:04:05" (Event.Time e)) (Event.Location e)
              (User.Email u)).
    split; [apply joined_rows; exists e, u; cbn; repeat split; assumption|].
    cbn. repeat split.
Qed.

(** X19. A listing of invitations holds the invitations asked for,
    joined with their event and their inviter. When [GetMyInvitations]
    succeeds for an email, or [GetEventInvitations] for an event, no table
    has changed; the rows are in descending order of creation; every
    row is a stored invitation for that email (for that event), with the
    title and location of a stored event it refers to and the email of a
    stored user who sent it; and every stored invitation for that email
    (for that event) whose event and inviter are stored is among the
    rows. [GetEventInvitations] asks nothing about who is calling, and
    lists for any identifier. *)
Theorem invitations_are_listed_with_their_event db s db' :
  (forall email,
     Service.GetMyInvitations email db = (Ok s, db') ->
     same_tables db db'
     /\ listsInvitations (fun i => (Invitation.InviteeEmail i =? email)%string)
                         db (elems s)
     /\ forall r, In r (elems s) ->
                  Invitation.InviteeEmail (InvitationWithDetails.Invitation r) = email)
  /\ (forall eventID,
        Service.GetEventInvitations eventID db = (Ok s, db') ->
        same_tables db db'
        /\ listsInvitations (fun i => Invitation.EventID i =? eventID) db (elems s)
        /\ forall r, In r (elems s) ->
                     Invitation.EventID (InvitationWithDetails.Invitation r) = eventID).
Proof.
  split.
  - intros email R.
    destruct (listed _ _ _ (GetInvitationsByEmail_eq email) _ _ _ R) as (_ & -> & ->).
    split; [apply same_tables_trip|]. cbn [elems].
    split; [apply joined_lists|].
    intros r I. apply joined_rows in I as (_ & _ & _ & K & _).
    apply String.eqb_eq in K. exact K.
  - intros eventID R.
    destruct (listed _ _ _ (GetInvitationsByEventID_eq eventID) _ _ _ R)
      as (_ & -> & ->).
    split; [apply same_tables_trip|]. cbn [elems].
    split; [apply joined_lists|].
    intros r I. apply joined_rows in I as (_ & _ & _ & K & _).
    apply Z.eqb_eq in K. exact K.
Qed.

End Invited.

Lemma invitations_are_listed_with_their_event_witness :
  exists r,
    invitation.Service.GetMyInvitations "bob@example.com" example.db1
    = (Ok (Some [r]), example.db1)
    /\ InvitationWithDetails.Invitation r = example.invite
    /\ InvitationWithDetails.EventTitle r = "Party"
    /\ InvitationWithDetails.InviterEmail r = "alice@example.com".
Proof.
  destruct (invitation.Service.GetMyInvitations "bob@example.com" example.db1)
    as [res db'] eqn:R.
  assert (E : exists r, res = Ok (Some [r]) /\ db' = example.db1)
    by (vm_compute in R; injection R as <- <-; eexists; split; reflexivity).
  destruct E as (r & -> & ->).
  destruct (proj1 (invitations_are_listed_with_their_event _ _ _) _ R)
    as (_ & (_ & _ & Complete) & _).
  destruct (Complete example.invite example.party example.alice)
    as (r' & I & Inv & Title & Mail);
    try reflexivity; try (left; reflexivity).
  destruct I as [<-|[]].
  exists r. repeat split; assumption.
Defined.

(** ** One row per user and event *)

Section Once.
Import pg sql event.
Context `{time.Pkg}.

Lemma UpdateAttendanceStatus_Ok_inv userID eventID status db db' :
  Service.UpdateAttendanceStatus userID eventID status db = (Ok tt, db') ->
  event_attendees db' = withStatus userID eventID status (event_attendees db).
Proof.
  destruct (Z.leb_spec userID 0) as [|PU].
  { unfold Service.UpdateAttendanceStatus.
    replace (userID <=? 0) with true by (symmetry; apply Z.leb_le; assumption).
    discriminate. }
  destruct (Z.leb_spec eventID 0) as [|PE].
  { unfold Service.UpdateAttendanceStatus.
    replace (userID <=? 0) with false by (symmetry; apply Z.leb_gt; assumption).
    replace (eventID <=? 0) with true by (symmetry; apply Z.leb_le; assumption).
    discriminate. }
  destruct (existsb (String.eqb status) ["going"; "maybe"; "not_going"]) eqn:T.
  - apply validStatus_test in T.
    rewrite (UpdateAttendanceStatus_eq _ _ _ _ PU PE T).
    destruct (served db); [|discriminate].
    destruct (existsb _ (event_attendees db)); [|discriminate].
    intros E; injection E as <-. reflexivity.
  - unfold Service.UpdateAttendanceStatus.
    replace (userID <=? 0) with false by (symmetry; apply Z.leb_gt; assumption).
    replace (eventID <=? 0) with false by (symmetry; apply Z.leb_gt; assumption).
    cbv zeta. rewrite T. discriminate.
Qed.

Lemma hasAttendee_withStatus userID eventID status u e rows :
  existsb (fun a => (EventAttendee.UserID a =? u) && (EventAttendee.EventID a =? e))
          (withStatus userID eventID status rows)
  = existsb (fun a => (EventAttendee.UserID a =? u) && (EventAttendee.EventID a =? e))
            rows.
Proof.
  unfold withStatus. induction rows as [|a rows IH]; simpl; [reflexivity|].
  rewrite IH.
  destruct ((EventAttendee.UserID a =? userID) && (EventAttendee.EventID a =? eventID));
    reflexivity.
Qed.

(** X20. One attendance row per user and event, whichever way it came.
    A user who has a row for an event can neither join the event nor be
    invited to it: both calls fail and change no table. A row is what
    [CreateEvent] leaves for the organizer, [JoinEvent] for the user who
    joined and [InviteUserToEvent] for the user invited; so the organizer
    of an event cannot join it, nor one who joined be invited, nor one
    invited join. Changing an attendance status neither gives nor takes a
    row. *)
Theorem one_row_per_user_and_event db :
  (forall userID eventID,
     hasAttendee userID eventID db = true ->
     (forall r db',
        Service.JoinEvent userID eventID db = (r, db') ->
        is_ok r = false /\ same_tables db db')
     /\ (forall inviterID role r db',
           Service.InviteUserToEvent eventID inviterID
             (AddAttendeeRequest.mk userID role) db = (r, db') ->
           is_ok r = false /\ same_tables db db'))
  /\ (forall req organizerID ev db',
        Service.CreateEvent req organizerID db = (Ok ev, db') ->
        hasAttendee organizerID (Event.ID ev) db' = true)
  /\ (forall userID eventID db',
        Service.JoinEvent userID eventID db = (Ok tt, db') ->
        hasAttendee userID eventID db' = true)
  /\ (forall eventID inviterID req db',
        Service.InviteUserToEvent eventID inviterID req db = (Ok tt, db') ->
        hasAttendee (AddAttendeeRequest.UserID req) eventID db' = true)
  /\ (forall userID eventID status db',
        Service.UpdateAttendanceStatus userID eventID status db = (Ok tt, db') ->
        forall u e, hasAttendee u e db' = hasAttendee u e db).
Proof.
  split; [|split; [|split; [|split]]].
  - intros userID eventID Has. split.
    + intros [[]|e] db' R.
      * destruct (JoinEvent_Ok_inv _ _ _ _ R) as (_ & _ & _ & _ & No & _). congruence.
      * split; [reflexivity|]. eapply Service_JoinEvent_Err; exact R.
    + intros inviterID role [[]|e] db' R.
      * exfalso. revert R. unfold Service.InviteUserToEvent, fail.
        destruct (eventID <=? 0); [discriminate|].
        destruct (inviterID <=? 0); [discriminate|].
        destruct (_ <=? 0); [discriminate|].
        destruct (negb _ && negb _ && negb _); [discriminate|].
        unfold Repository.AddAttendee, bind, onError.
        destruct (Repository.GetEventByID eventID db) as [[ev|] db1] eqn:G;
          [|discriminate].
        destruct (GetEventByID_Ok _ _ _ _ G) as (_ & -> & _).
        destruct (negb _); [discriminate|].
        destruct (_ =? inviterID); [discriminate|].
        destruct (insertAttendee _ _ _ _ (trip db)) as [[[]|] db2] eqn:I;
          [|discriminate].
        intros _.
        destruct (insertAttendee_Ok _ _ _ _ _ _ I) as (_ & No & _).
        cbn [AddAttendeeRequest.UserID] in No.
        change (hasAttendee userID eventID (trip db))
          with (hasAttendee userID eventID db) in No. congruence.
      * split; [reflexivity|]. eapply Service_InviteUserToEvent_Err; exact R.
  - intros req organizerID ev db' R.
    destruct (CreateEvent_Ok_inv _ _ _ _ _ R)
      as (d & c & _ & _ & _ & -> & _ & Rows & _).
    apply (hasAttendee_app _ _ _ _ _ Rows); reflexivity.
  - intros userID eventID db' R.
    destruct (JoinEvent_Ok_inv _ _ _ _ R) as (_ & _ & _ & _ & _ & Rows & _).
    apply (hasAttendee_app _ _ _ _ _ Rows); reflexivity.
  - intros eventID inviterID req db' R.
    destruct (InviteUserToEvent_Ok_inv _ _ _ _ _ R) as (_ & _ & _ & Rows & _).
    apply (hasAttendee_app _ _ _ _ _ Rows); reflexivity.
  - intros userID eventID status db' R u e.
    unfold hasAttendee. rewrite (UpdateAttendanceStatus_Ok_inv _ _ _ _ _ R).
    apply hasAttendee_withStatus.
Qed.

End Once.

Lemma one_row_per_user_and_event_witness :
  is_ok (fst (event.Service.JoinEvent 1 1 example.db0)) = false
  /\ is_ok (fst (event.Service.InviteUserToEvent 1 1
                   (AddAttendeeRequest.mk 1 "collaborator") example.db0)) = false
  /\ is_ok (fst (event.Service.JoinEvent 2 1 example.db0)) = true.
Proof.
  destruct (one_row_per_user_and_event example.db0) as (Once & _).
  destruct (Once 1 1 eq_refl) as (Join & Invite).
  split; [|split].
  - exact (proj1 (Join _ _ (surjective_pairing _))).
  - exact (proj1 (Invite _ _ _ _ (surjective_pairing _))).
  - reflexivity.
Defined.

(** ** Reading one event over HTTP *)

Section Found.
Import pg sql event.

(** X21. An event is answered when it is stored; everything else is "not
    found". The handler [GetEventByID] changes no table. It answers 200,
    with the event as data, exactly when the path value is a positive
    identifier, the store serves the query, and that event is the first
    stored under the identifier; it answers 400 exactly when the path
    value is not a number; and it answers 404 in every other case: when
    no event has the identifier, and also when the identifier is not
    positive or the store fails to serve the query. *)
Theorem not_found_is_every_failure (r : http.Request unit) db resp db' :
  Handler.GetEventByID r db = (resp, db') ->
  same_tables db db'
  /\ (forall ev,
        (http.StatusCode resp = http.StatusOK /\ http.data resp = Some ev)
        <-> exists eventID rest,
              http.PathID r = Ok eventID /\ 0 < eventID /\ served db = true
              /\ filter (fun e => Event.ID e =? eventID) (events db) = ev :: rest)
  /\ (http.StatusCode resp = http.StatusBadRequest
      <-> exists e, http.PathID r = Err e)
  /\ (http.StatusCode resp = http.StatusNotFound
      <-> exists eventID,
            http.PathID r = Ok eventID
            /\ (eventID <= 0 \/ served db = false
                \/ forall e, In e (events db) -> Event.ID e <> eventID)).
Proof.
  unfold Handler.GetEventByID.
  destruct (http.PathID r) as [eventID|e0].
  2:{ intros E; injection E as <- <-. split; [apply same_tables_refl|]. cbn.
      split; [|split].
      - intros ev. split; [intros [D _]; discriminate D|].
        intros (? & ? & D & _). discriminate D.
      - split; [eauto|reflexivity].
      - split; [discriminate|]. intros (? & D & _). discriminate D. }
  unfold Service.GetEventByID, fail.
  destruct (Z.leb_spec eventID 0) as [NP|P].
  { intros E; injection E as <- <-. split; [apply same_tables_refl|]. cbn.
    split; [|split].
    - intros ev. split; [intros [D _]; discriminate D|].
      intros (i & ? & I & ? & _). injection I as <-. lia.
    - split; [discriminate|]. intros (? & D). discriminate D.
    - split; [|reflexivity]. intros _. exists eventID. auto. }
  rewrite GetEventByID_eq.
  destruct (served db).
  2:{ intros E; injection E as <- <-. split; [apply same_tables_trip|]. cbn.
      split; [|split].
      - intros ev. split; [intros [D _]; discriminate D|].
        intros (? & ? & _ & _ & D & _). discriminate D.
      - split; [discriminate|]. intros (? & D). discriminate D.
      - split; [|reflexivity]. intros _. exists eventID. auto. }
  destruct (filter _ (events db)) as [|ev0 rest] eqn:L;
    intros E; injection E as <- <-; (split; [apply same_tables_trip|]); cbn.
  - split; [|split].
    + intros ev. split; [intros [D _]; discriminate D|].
      intros (i & ? & I & _ & _ & D). injection I as <-. rewrite L in D.
      discriminate D.
    + split; [discriminate|]. intros (? & D). discriminate D.
    + split; [|reflexivity]. intros _. exists eventID. split; [reflexivity|].
      right. right. intros e I K.
      assert (In e (filter (fun e => Event.ID e =? eventID) (events db)))
        by (apply filter_In; split; [exact I|apply Z.eqb_eq; exact K]).
      rewrite L in *. contradiction.
  - split; [|split].
    + intros ev. split.
      * intros [_ D]. injection D as <-. exists eventID, rest. auto.
      * intros (i & rest' & I & _ & _ & D). injection I as <-. rewrite L in D.
        injection D as <- _. auto.
    + split; [discriminate|]. intros (? & D). discriminate D.
    + split; [discriminate|].
      intros (i & I & [NP | [D | None]]); injection I as <-;
        [lia|discriminate D|].
      destruct (filter_head_In _ _ _ _ L) as [I K]. apply Z.eqb_eq in K.
      destruct (None ev0 I K).
Qed.

End Found.

Lemma not_found_is_every_failure_witness :
  http.StatusCode
    (fst (event.Handler.GetEventByID (http.mkRequest None (Ok 0) (Ok tt)) example.db0))
  = http.StatusNotFound
  /\ http.StatusCode
       (fst (event.Handler.GetEventByID (http.mkRequest None (Ok 1) (Ok tt))
               (pg.set_faults [true] example.db0)))
     = http.StatusNotFound
  /\ http.data
       (fst (event.Handler.GetEventByID (http.mkRequest None (Ok 1) (Ok tt))
               example.db0))
     = Some example.party.
Proof.
  split; [|split].
  - apply (not_found_is_every_failure _ _ _ _ (surjective_pairing _)).
    exists 0. split; [reflexivity|]. left. reflexivity.
  - apply (not_found_is_every_failure _ _ _ _ (surjective_pairing _)).
    exists 1. split; [reflexivity|]. right. left. reflexivity.
  - apply (not_found_is_every_failure _ _ _ _ (surjective_pairing _)).
    exists 1, []. repeat split.
Defined.
